(** * RagChatbot: hybrid retrieval, index writer and summarisation path

    A shallow embedding of the retrieval core of the repository:

    - [Index]     : [app/services/index.py]        (class [QdrantRAGUploader])
    - [Retriever] : [Server/app/services/qdrant_retriever.py] (class [QdrantRetriever])
    - [Chatbot]   : [app/services/generation.py]   (class [RAGChatbot])
    - [Search]    : [search.py]                    (body of the query loop)
    - [ChatRoutes]: [app/routes/chat_routes.py]    (retrieval part of [send_message])
    - [Upload]    : [app/routes/chat_routes.py]    ([allowed_file], [background_process])

    The Python code is effectful: it talks to a vector store, calls three
    embedding models, prints, and raises.  It is embedded in a state and
    exception monad [M] over a [World] that holds the store, a counter of
    storage requests, a supply of fresh point ids and the trace of
    observable events.  Everything outside the repository (embedding
    models, tokenizer, file system, text-generation endpoint, storage
    faults) is gathered in an environment record [Env]. *)

From Stdlib Require Import QArith Qminmax DecimalString Sorted.
From stdpp Require Import strings list gmap.
Close Scope Q_scope.
Open Scope string_scope.
Open Scope list_scope.
Open Scope nat_scope.

(** ** Python helpers *)

Module Py.

(** [str(n)] for a non-negative integer. *)
Definition str_of_nat (n : nat) : string :=
  NilZero.string_of_uint (Nat.to_uint n).

(** [sep.join(l)]. *)
Definition join (sep : string) (l : list string) : string :=
  String.concat sep l.

(** [enumerate(l)], counting from [start]. *)
Fixpoint enumerate_from {A : Type} (start : nat) (l : list A) : list (nat * A) :=
  match l with
  | [] => []
  | x :: l' => (start, x) :: enumerate_from (S start) l'
  end.

Definition enumerate {A : Type} (l : list A) : list (nat * A) :=
  enumerate_from 0 l.

(** [range(start, stop, step)] for a positive [step]; Python raises
    [ValueError] for [step = 0], which callers model themselves. *)
Definition range (start stop step : nat) : list nat :=
  (λ k, start + k * step) <$> seq 0 ((stop - start + step - 1) / step).

(** A dict with string keys and string values, in insertion order
    (iteration over [items()] follows it). *)
Definition dict := list (string * string).

(** [d.get(key)]: the first binding of [key]. *)
Fixpoint get (d : dict) (key : string) : option string :=
  match d with
  | [] => None
  | (k, v) :: d' => if String.eqb k key then Some v else get d' key
  end.

End Py.

(** ** Data model *)

(** Vector components are IEEE doubles in the source; the code never
    computes with them, so a finite component is represented by the
    rational it denotes. *)
Definition float := Q.

Record SparseVector := {
  indices : list nat;
  values : list float
}.

(** The value stored under one vector name of a point. *)
Inductive Vector :=
| VDense (v : list float)
| VSparse (s : SparseVector)
| VMulti (m : list (list float)).

Definition Payload := Py.dict.

(** [qdrant_client.models.PointStruct]. Point ids are UUID strings in the
    source, drawn from [uuid.uuid4()]; the supply is modelled by a counter. *)
Record PointStruct := {
  point_id : nat;
  point_payload : Payload;
  point_vector : gmap string Vector
}.

(** [qdrant_client.models], the request and schema vocabulary. *)
Module models.

Inductive Distance := COSINE | EUCLID | DOT | MANHATTAN.
Inductive MultiVectorComparator := MAX_SIM.
Inductive Modifier := IDF.

Record VectorParams := {
  size : nat;
  distance : Distance;
  multivector_config : option MultiVectorComparator;
  hnsw_config : option nat   (* [HnswConfigDiff(m=...)] *)
}.

Record SparseVectorParams := {
  modifier : option Modifier
}.

(** The [query=] argument of a search. *)
Inductive QueryVector :=
| QDense (v : list float)
| QSparse (s : SparseVector)
| QMulti (m : list (list float)).

(** [Prefetch(query=..., using=..., limit=...)]; [query] and [using]
    are reserved words here, hence the prefix. *)
Record Prefetch := {
  pf_query : QueryVector;
  pf_using : string;
  pf_limit : nat
}.

Record ScoredPoint := {
  id : nat;
  score : Q;
  payload : Payload
}.

End models.

Record Schema := {
  vectors_config : gmap string models.VectorParams;
  sparse_vectors_config : gmap string models.SparseVectorParams
}.

Record Collection := {
  schema : Schema;
  points : list PointStruct   (* in storage order *)
}.

(** The arguments of [client.query_points]. *)
Record QueryRequest := {
  q_collection_name : string;
  q_query : models.QueryVector;
  q_using : string;
  q_prefetch : list models.Prefetch;
  q_limit : nat;
  q_with_payload : bool
}.

(** Requests sent to the storage engine. *)
Inductive Request :=
| ReqCollectionExists (name : string)
| ReqCount (name : string)
| ReqDeleteCollection (name : string)
| ReqCreateCollection (name : string) (s : Schema)
| ReqUpsert (name : string) (pts : list PointStruct)
| ReqQueryPoints (r : QueryRequest)
| ReqScroll (name : string) (page_size : nat) (with_payload : bool).

Inductive Model := Dense | Bm25 | Colbert.

(** Observable events, most recent first in a trace. *)
Inductive Event :=
| EvPrint (line : string)
| EvStorage (r : Request)
| EvLoadModel (m : Model)
| EvLoadTokenizer
| EvEmbed (m : Model) (texts : list string)
| EvQueryEmbed (m : Model) (text : string)
| EvGenerate (model prompt : string).

Inductive exn :=
| FileError (path : string)
| KeyError (key : string)
| IndexError
| ValueError
| EmbeddingFailure (m : Model)
| CollectionNotFound (name : string)
| CollectionAlreadyExists (name : string)
| StorageFailure (request_no : nat)
| RequestFailure
| PyException (msg : string).

Inductive result (A : Type) :=
| Ok (a : A)
| Raise (e : exn).
Arguments Ok {A} a.
Arguments Raise {A} e.

Record World := {
  collections : gmap string Collection;
  requests : nat;          (* storage requests issued so far *)
  next_uuid : nat;         (* next fresh point id *)
  trace : list Event
}.

(** Everything the repository calls but does not define. *)
Record Env := {
  (** [json.load(open(path))]: the chunk dicts, or [None] when opening or
      parsing raises. *)
  read_chunks : string → option (list Py.dict);
  (** Passage embedding ([model.embed]) and query embedding
      ([model.query_embed]) of the three models; [None] when the model
      raises. *)
  dense_embed : string → option (list float);
  sparse_embed : string → option SparseVector;
  late_embed : string → option (list (list float));
  dense_query_embed : string → option (list float);
  sparse_query_embed : string → option SparseVector;
  late_query_embed : string → option (list (list float));
  (** [tokenizer.encode]. *)
  tokenizer_encode : string → list nat;
  (** Python's [str] of a payload dict. *)
  str_payload : Payload → string;
  (** The stripped [response] field returned by the generation endpoint
      for a model and a prompt; [None] when the request raises. *)
  generate : string → string → option string;
  (** Whether storage request number [n] fails in the engine. *)
  storage_fault : nat → bool;
  (** The engine's similarity of two vectors under a distance, and of two
      sparse vectors under a modifier. *)
  similarity : models.Distance → list float → list float → Q;
  sparse_similarity : option models.Modifier → SparseVector → SparseVector → Q
}.

(** ** The effect monad *)

Definition M (A : Type) : Type := World → result A * World.

Definition ret {A} (a : A) : M A := λ w, (Ok a, w).

Definition bind {A B} (m : M A) (k : A → M B) : M B :=
  λ w, match m w with
       | (Ok a, w') => k a w'
       | (Raise e, w') => (Raise e, w')
       end.

#[global] Instance M_ret : MRet M := @ret.
#[global] Instance M_bind : MBind M := λ A B k m, bind m k.

Definition raise {A} (e : exn) : M A := λ w, (Raise e, w).

(** [try: body  except Exception as e: handler(e)]. State changes made by
    [body] before it raised are kept. *)
Definition try_except {A} (body : M A) (handler : exn → M A) : M A :=
  λ w, match body w with
       | (Ok a, w') => (Ok a, w')
       | (Raise e, w') => handler e w'
       end.

Definition add_event (e : Event) (w : World) : World :=
  {| collections := collections w; requests := requests w;
     next_uuid := next_uuid w; trace := e :: trace w |}.

Definition emit (e : Event) : M unit := λ w, (Ok tt, add_event e w).

Definition print (line : string) : M unit := emit (EvPrint line).

(** [uuid.uuid4()]: a fresh identifier. The code draws a random UUID;
    the model draws the next value of a counter. What the two share is
    that every identifier drawn is new; that identifiers grow in the
    order in which they are drawn holds in the model only. *)
Definition take_uuid (w : World) : World :=
  {| collections := collections w; requests := requests w;
     next_uuid := S (next_uuid w); trace := trace w |}.

Definition uuid4 : M nat := λ w, (Ok (next_uuid w), take_uuid w).

(** Lift an optional value, raising [e] on [None]. *)
Definition from_option {A} (e : exn) (o : option A) : M A :=
  match o with
  | Some a => ret a
  | None => raise e
  end.

(** Run [f] on every element in order, stopping at the first exception. *)
Fixpoint mapM {A B} (f : A → M B) (l : list A) : M (list B) :=
  match l with
  | [] => ret []
  | x :: l' => y ← f x; ys ← mapM f l'; ret (y :: ys)
  end.

Fixpoint forM_ {A} (l : list A) (f : A → M unit) : M unit :=
  match l with
  | [] => ret tt
  | x :: l' => f x;; forM_ l' f
  end.

(** ** The storage engine

    The vector store is a third-party service; the repository only calls
    its client. *)

(** Modelled from the spec: the storage interface consumed by the core
    ([collection_exists], [create_collection], [delete_collection],
    [upsert], [search] with prefetch, [scroll], [count]) and the two-stage
    search it performs: each prefetch returns its own top candidates, the
    union of the candidate sets is deduplicated by point id, re-scored in
    the space of the outer query, ordered by descending score with ties
    in original order, and truncated to the limit. *)
Module Qdrant.

Definition set_collections (cs : gmap string Collection) (w : World) : World :=
  {| collections := cs; requests := requests w;
     next_uuid := next_uuid w; trace := trace w |}.

(** Every request is logged and numbered. Request number [n] fails when
    the environment says so, before it has any effect on the store. *)
Definition log_request (r : Request) (w : World) : World :=
  {| collections := collections w; requests := S (requests w);
     next_uuid := next_uuid w; trace := EvStorage r :: trace w |}.

Definition request (E : Env) (r : Request) : M unit :=
  λ w, if storage_fault E (requests w)
       then (Raise (StorageFailure (requests w)), log_request r w)
       else (Ok tt, log_request r w).

Definition get_store : M (gmap string Collection) :=
  λ w, (Ok (collections w), w).

Definition put_store (cs : gmap string Collection) : M unit :=
  λ w, (Ok tt, set_collections cs w).

Definition get_collection (name : string) : M Collection :=
  cs ← get_store;
  from_option (CollectionNotFound name) (cs !! name).

Definition put_collection (name : string) (c : Collection) : M unit :=
  cs ← get_store;
  put_store (<[name := c]> cs).

Definition collection_exists (E : Env) (name : string) : M bool :=
  request E (ReqCollectionExists name);;
  cs ← get_store;
  mret (bool_decide (is_Some (cs !! name))).

Definition count (E : Env) (name : string) : M nat :=
  request E (ReqCount name);;
  c ← get_collection name;
  mret (length (points c)).

Definition delete_collection (E : Env) (name : string) : M unit :=
  request E (ReqDeleteCollection name);;
  cs ← get_store;
  put_store (delete name cs).

Definition create_collection (E : Env) (name : string) (s : Schema) : M unit :=
  request E (ReqCreateCollection name s);;
  cs ← get_store;
  match cs !! name with
  | Some _ => raise (CollectionAlreadyExists name)
  | None => put_store (<[name := {| schema := s; points := [] |}]> cs)
  end.

(** Insert-or-overwrite of one point, by id. *)
Definition upsert_point (pts : list PointStruct) (p : PointStruct) : list PointStruct :=
  if existsb (λ p', Nat.eqb (point_id p') (point_id p)) pts
  then (λ p', if Nat.eqb (point_id p') (point_id p) then p else p') <$> pts
  else pts ++ [p].

Definition upsert (E : Env) (name : string) (batch : list PointStruct) : M unit :=
  request E (ReqUpsert name batch);;
  c ← get_collection name;
  put_collection name
    {| schema := schema c; points := foldl upsert_point (points c) batch |}.

(** *** Scoring *)

Definition Qsum (l : list Q) : Q := foldr Qplus 0%Q l.

Definition Qmaximum (l : list Q) : Q :=
  match l with
  | [] => 0%Q
  | x :: l' => foldr Qmax x l'
  end.

(** The late-interaction comparator: for every token vector of the
    query the best similarity with a token vector of the document,
    summed over the query. *)
Definition max_sim (sim : list float → list float → Q)
    (q d : list (list float)) : Q :=
  Qsum ((λ qi, Qmaximum (sim qi <$> d)) <$> q).

(** The score of a stored point for a query vector in a named space of
    the schema; [None] when the space is not declared, the point has no
    vector of that name, or the shapes do not fit. *)
Definition score_point (E : Env) (s : Schema) (space : string)
    (q : models.QueryVector) (p : PointStruct) : option Q :=
  match q, point_vector p !! space with
  | models.QDense qv, Some (VDense v) =>
      match vectors_config s !! space with
      | Some vp =>
          match models.multivector_config vp with
          | None => Some (similarity E (models.distance vp) qv v)
          | Some _ => None
          end
      | None => None
      end
  | models.QSparse qs, Some (VSparse v) =>
      match sparse_vectors_config s !! space with
      | Some sp => Some (sparse_similarity E (models.modifier sp) qs v)
      | None => None
      end
  | models.QMulti qm, Some (VMulti m) =>
      match vectors_config s !! space with
      | Some vp =>
          match models.multivector_config vp with
          | Some models.MAX_SIM =>
              Some (max_sim (similarity E (models.distance vp)) qm m)
          | None => None
          end
      | None => None
      end
  | _, _ => None
  end.

Definition scored (E : Env) (s : Schema) (space : string)
    (q : models.QueryVector) (p : PointStruct) : option (Q * PointStruct) :=
  sc ← score_point E s space q p; Some (sc, p).

(** Stable insertion by descending score: [x] goes in front of the first
    element that does not score strictly higher. *)
Fixpoint insert_desc (x : Q * PointStruct) (l : list (Q * PointStruct))
    : list (Q * PointStruct) :=
  match l with
  | [] => [x]
  | y :: l' => if Qle_bool y.1 x.1 then x :: y :: l' else y :: insert_desc x l'
  end.

Definition sort_desc (l : list (Q * PointStruct)) : list (Q * PointStruct) :=
  foldr insert_desc [] l.

(** One nearest-neighbour search over a candidate list. *)
Definition search (E : Env) (s : Schema) (space : string)
    (q : models.QueryVector) (limit : nat) (candidates : list PointStruct)
    : list (Q * PointStruct) :=
  take limit (sort_desc (omap (scored E s space q) candidates)).

(** Keep the first occurrence of every point id. *)
Fixpoint dedup_by_id (seen : list nat) (l : list PointStruct) : list PointStruct :=
  match l with
  | [] => []
  | p :: l' =>
      if bool_decide (point_id p ∈ seen) then dedup_by_id seen l'
      else p :: dedup_by_id (point_id p :: seen) l'
  end.

Definition run_prefetch (E : Env) (c : Collection) (pf : models.Prefetch)
    : list PointStruct :=
  snd <$> search E (schema c) (models.pf_using pf) (models.pf_query pf)
                 (models.pf_limit pf) (points c).

(** The candidate pool of a query: the whole collection without
    prefetch, the deduplicated union of the prefetch results with it. *)
Definition candidate_pool (E : Env) (c : Collection)
    (prefetch : list models.Prefetch) : list PointStruct :=
  match prefetch with
  | [] => points c
  | _ => dedup_by_id [] (mjoin (run_prefetch E c <$> prefetch))
  end.

Definition to_scored_point (with_payload : bool) (x : Q * PointStruct)
    : models.ScoredPoint :=
  {| models.id := point_id x.2;
     models.score := x.1;
     models.payload := if with_payload then point_payload x.2 else [] |}.

Definition rerank (E : Env) (c : Collection) (r : QueryRequest)
    : list (Q * PointStruct) :=
  search E (schema c) (q_using r) (q_query r) (q_limit r)
         (candidate_pool E c (q_prefetch r)).

Definition query_points (E : Env) (r : QueryRequest) : M (list models.ScoredPoint) :=
  request E (ReqQueryPoints r);;
  c ← get_collection (q_collection_name r);
  mret (to_scored_point (q_with_payload r) <$> rerank E c r).

(** One page of an unranked scan: the first [page_size] points in
    storage order, and the id at which the next page starts, if any.
    Storage order is the order of insertion here. The order in which the
    engine itself scans a collection is not part of the interface the
    repository relies on, and the round trips through the store proved
    below are stated up to it. *)
Definition scroll (E : Env) (name : string) (page_size : nat) (with_payload : bool)
    : M (list PointStruct * option nat) :=
  request E (ReqScroll name page_size with_payload);;
  c ← get_collection name;
  mret (take page_size (points c),
        point_id <$> head (drop page_size (points c))).

End Qdrant.

(** [str(e)] of a caught exception, as printed by the handlers. *)
Definition str_exn (e : exn) : string :=
  match e with
  | FileError path => "No such file or directory: '" +:+ path +:+ "'"
  | KeyError key => "'" +:+ key +:+ "'"
  | IndexError => "list index out of range"
  | ValueError => "range() arg 3 must not be zero"
  | EmbeddingFailure _ => "embedding model failed"
  | CollectionNotFound name => "Collection " +:+ name +:+ " not found"
  | CollectionAlreadyExists name => "Collection " +:+ name +:+ " already exists"
  | StorageFailure _ => "storage request failed"
  | RequestFailure => "generation request failed"
  | PyException msg => msg
  end.

(** Names of the three vector spaces, as the source spells them. *)
Definition DENSE : string := "all-MiniLM-L6-v2".
Definition SPARSE : string := "bm25".
Definition LATE : string := "colbertv2.0".

(** ** Index writer: [app/services/index.py] *)

Module Index.

Record QdrantRAGUploader := {
  file_path : string;
  collection_name : string;
  texts : list string;
  chunks : list Py.dict;
  dense_vecs : list (list float);
  sparse_vecs : list SparseVector;
  colbert_vecs : list (list (list float))
}.

Definition __init__ (file_path collection_name : string) : M QdrantRAGUploader :=
  emit (EvLoadModel Dense);;
  emit (EvLoadModel Bm25);;
  emit (EvLoadModel Colbert);;
  mret {| file_path := file_path; collection_name := collection_name;
          texts := []; chunks := [];
          dense_vecs := []; sparse_vecs := []; colbert_vecs := [] |}.

Definition load_chunks (E : Env) (self : QdrantRAGUploader) : M QdrantRAGUploader :=
  cs ← from_option (FileError (file_path self)) (read_chunks E (file_path self));
  ts ← mapM (λ chunk, from_option (KeyError "content") (Py.get chunk "content")) cs;
  print ("[INFO] " +:+ Py.str_of_nat (length cs) +:+ " chunks loaded from file");;
  mret {| file_path := file_path self; collection_name := collection_name self;
          texts := ts; chunks := cs;
          dense_vecs := dense_vecs self; sparse_vecs := sparse_vecs self;
          colbert_vecs := colbert_vecs self |}.

(** The schema declared by [setup_collection]. *)
Definition rag_schema : Schema :=
  {| vectors_config :=
       {[ DENSE := {| models.size := 384; models.distance := models.COSINE;
                      models.multivector_config := None;
                      models.hnsw_config := None |};
          LATE := {| models.size := 128; models.distance := models.COSINE;
                     models.multivector_config := Some models.MAX_SIM;
                     models.hnsw_config := Some 0 |} ]};
     sparse_vectors_config :=
       {[ SPARSE := {| models.modifier := Some models.IDF |} ]} |}.

Definition setup_collection (E : Env) (self : QdrantRAGUploader) : M unit :=
  ex ← Qdrant.collection_exists E (collection_name self);
  (if ex : bool then
     Qdrant.delete_collection E (collection_name self);;
     print ("[INFO] Collection '" +:+ collection_name self +:+ "' deleted successfully.")
   else mret tt);;
  Qdrant.create_collection E (collection_name self) rag_schema;;
  print ("[INFO] Collection '" +:+ collection_name self +:+ "' created successfully.").

(** [list(model.embed(doc for doc in texts))]. *)
Definition embed_all {V} (m : Model) (f : string → option V) (docs : list string)
    : M (list V) :=
  emit (EvEmbed m docs);;
  mapM (λ doc, from_option (EmbeddingFailure m) (f doc)) docs.

Definition embed_texts (E : Env) (self : QdrantRAGUploader) : M QdrantRAGUploader :=
  print "[INFO] Generating embeddings...";;
  d ← embed_all Dense (dense_embed E) (texts self);
  s ← embed_all Bm25 (sparse_embed E) (texts self);
  c ← embed_all Colbert (late_embed E) (texts self);
  mret {| file_path := file_path self; collection_name := collection_name self;
          texts := texts self; chunks := chunks self;
          dense_vecs := d; sparse_vecs := s; colbert_vecs := c |}.

(** The body of the inner loop: one [PointStruct] for chunk [j]. *)
Definition build_point (self : QdrantRAGUploader) (j : nat) : M PointStruct :=
  i ← uuid4;
  chunk ← from_option IndexError (chunks self !! j);
  content ← from_option (KeyError "content") (Py.get chunk "content");
  d ← from_option IndexError (dense_vecs self !! j);
  s ← from_option IndexError (sparse_vecs self !! j);
  c ← from_option IndexError (colbert_vecs self !! j);
  mret {| point_id := i;
          point_payload := [("text", content)];
          point_vector := {[ DENSE := VDense d; SPARSE := VSparse s;
                             LATE := VMulti c ]} |}.

(** The body of the outer loop: build and upsert the batch starting at
    chunk [i]. *)
Definition insert_batch (E : Env) (self : QdrantRAGUploader) (batch_size i : nat)
    : M unit :=
  batch_points ←
    mapM (build_point self)
         (seq i (Nat.min (i + batch_size) (length (chunks self)) - i));
  Qdrant.upsert E (collection_name self) batch_points.

Definition insert_into_qdrant (E : Env) (self : QdrantRAGUploader) (batch_size : nat)
    : M unit :=
  print ("[INFO] Inserting " +:+ Py.str_of_nat (length (chunks self))
         +:+ " points into Qdrant in batches of " +:+ Py.str_of_nat batch_size
         +:+ "...");;
  (if Nat.eqb batch_size 0 then raise ValueError else mret tt);;
  forM_ (Py.range 0 (length (chunks self)) batch_size)
        (insert_batch E self batch_size);;
  print "[SUCCESS] All data inserted into Qdrant successfully.".

(** The four stages inside the [try] block of [run]. *)
Definition pipeline (E : Env) (self : QdrantRAGUploader) : M unit :=
  self1 ← load_chunks E self;
  setup_collection E self1;;
  self2 ← embed_texts E self1;
  insert_into_qdrant E self2 10.

Definition run (E : Env) (self : QdrantRAGUploader) : M bool :=
  try_except
    (pipeline E self;; mret true)
    (λ e, print ("[ERROR] " +:+ str_exn e);; mret false).

End Index.

(** The newline character of Python's ["\n"]. *)
Definition nl : string := String (Ascii.ascii_of_nat 10) EmptyString.

(** [next(model.query_embed(query))]. *)
Definition query_embed {V} (m : Model) (f : string → option V) (query : string) : M V :=
  emit (EvQueryEmbed m query);;
  from_option (EmbeddingFailure m) (f query).

(** The two first-stage searches, capped at [prefetch_limit] each. *)
Definition hybrid_prefetch (dense_vector : list float) (sparse_vector : SparseVector)
    (prefetch_limit : nat) : list models.Prefetch :=
  [ {| models.pf_query := models.QDense dense_vector;
       models.pf_using := DENSE;
       models.pf_limit := prefetch_limit |};
    {| models.pf_query := models.QSparse sparse_vector;
       models.pf_using := SPARSE;
       models.pf_limit := prefetch_limit |} ].

(** ** Retriever: [Server/app/services/qdrant_retriever.py] *)

Module Retriever.

Record QdrantRetriever := {
  persistence_path : string;
  collection_name : string
}.

Definition _check_collection (E : Env) (self : QdrantRetriever) : M unit :=
  ex ← Qdrant.collection_exists E (collection_name self);
  if negb ex then
    print ("[INFO] Collection '" +:+ collection_name self
           +:+ "' does not exist. Please create it first.")
  else
    collection_count ← Qdrant.count E (collection_name self);
    print ("[INFO] Collection '" +:+ collection_name self +:+ "' exists with count="
           +:+ Py.str_of_nat collection_count +:+ ".").

Definition __init__ (E : Env) (persistence_path collection_name : string)
    : M QdrantRetriever :=
  let self := {| persistence_path := persistence_path;
                 collection_name := collection_name |} in
  emit (EvLoadModel Dense);;
  emit (EvLoadModel Bm25);;
  emit (EvLoadModel Colbert);;
  _check_collection E self;;
  mret self.

(** The request built by [retrieve] from the three query vectors. *)
Definition retrieve_request (self : QdrantRetriever) (dense_query_vector : list float)
    (sparse_query_vector : SparseVector) (late_query_vector : list (list float))
    (limit : nat) : QueryRequest :=
  {| q_collection_name := collection_name self;
     q_query := models.QMulti late_query_vector;
     q_using := LATE;
     q_prefetch := hybrid_prefetch dense_query_vector sparse_query_vector 20;
     q_limit := limit;
     q_with_payload := true |}.

Definition retrieve (E : Env) (self : QdrantRetriever) (query : string) (limit : nat)
    : M (list Payload) :=
  dense_query_vector ← query_embed Dense (dense_query_embed E) query;
  sparse_query_vector ← query_embed Bm25 (sparse_query_embed E) query;
  late_query_vector ← query_embed Colbert (late_query_embed E) query;
  results ← Qdrant.query_points E
    (retrieve_request self dense_query_vector sparse_query_vector
                      late_query_vector limit);
  mret (models.payload <$> results).

Definition _format_payload (payload : Payload) : string :=
  Py.join nl ((λ kv, kv.1 +:+ ": " +:+ kv.2) <$> payload).

(** The part of [get_context_string] after the retrieval. *)
Definition format_contexts (contexts : list Payload) : string :=
  match contexts with
  | [] => "No relevant information found."
  | _ =>
      Py.join (nl +:+ nl)
        ((λ idoc, "Document " +:+ Py.str_of_nat (idoc.1 + 1) +:+ ":" +:+ nl
                  +:+ _format_payload idoc.2)
           <$> Py.enumerate contexts)
  end.

Definition get_context_string (E : Env) (self : QdrantRetriever) (query : string)
    (limit : nat) : M string :=
  contexts ← retrieve E self query limit;
  mret (format_contexts contexts).

End Retriever.

(** ** Chat pipeline: [app/services/generation.py] *)

Module Chatbot.

Record RAGChatbot := {
  collection_name : string
}.

Definition __init__ (E : Env) (collection_name : string) : M RAGChatbot :=
  emit EvLoadTokenizer;;
  ex ← Qdrant.collection_exists E collection_name;
  (if negb ex then
     raise (PyException ("Collection '" +:+ collection_name
                         +:+ "' does not exist. Please create it first."))
   else mret tt);;
  collection_count ← Qdrant.count E collection_name;
  print ("[INFO] Collection '" +:+ collection_name +:+ "' exists with "
         +:+ Py.str_of_nat collection_count +:+ " documents.");;
  emit (EvLoadModel Dense);;
  emit (EvLoadModel Bm25);;
  emit (EvLoadModel Colbert);;
  mret {| collection_name := collection_name |}.

Definition _embed_query (E : Env) (query : string)
    : M (list float * SparseVector * list (list float)) :=
  dense_vector ← query_embed Dense (dense_query_embed E) query;
  sparse_vector ← query_embed Bm25 (sparse_query_embed E) query;
  late_vector ← query_embed Colbert (late_query_embed E) query;
  mret (dense_vector, sparse_vector, late_vector).

(** [payload.get("text", str(payload))]. *)
Definition payload_text (E : Env) (payload : Payload) : string :=
  default (str_payload E payload) (Py.get payload "text").

Definition retrieve_request (self : RAGChatbot) (dense_vector : list float)
    (sparse_vector : SparseVector) (late_vector : list (list float)) : QueryRequest :=
  {| q_collection_name := collection_name self;
     q_query := models.QMulti late_vector;
     q_using := LATE;
     q_prefetch := hybrid_prefetch dense_vector sparse_vector 10;
     q_limit := 5;
     q_with_payload := true |}.

Definition _retrieve_context (E : Env) (self : RAGChatbot) (dense_vector : list float)
    (sparse_vector : SparseVector) (late_vector : list (list float)) : M string :=
  results ← Qdrant.query_points E
    (retrieve_request self dense_vector sparse_vector late_vector);
  let context_docs := (λ point, payload_text E (models.payload point)) <$> results in
  mret (Py.join (nl +:+ nl) context_docs).

(** [requests.post(...).json().get("response", "").strip()]. *)
Definition post_generate (E : Env) (model prompt : string) : M string :=
  emit (EvGenerate model prompt);;
  from_option RequestFailure (generate E model prompt).

Definition _generate_answer_with_ollama (E : Env) (query context model : string)
    : M string :=
  let prompt := "Answer the question based on the following context:" +:+ nl +:+ nl
                +:+ context +:+ nl +:+ nl +:+ "Question: " +:+ query +:+ nl
                +:+ "Answer:" in
  post_generate E model prompt.

Definition answer_query (E : Env) (self : RAGChatbot) (query : string) : M string :=
  vs ← _embed_query E query;
  context ← _retrieve_context E self vs.1.1 vs.1.2 vs.2;
  _generate_answer_with_ollama E query context "gemma3:4b".

(** The accumulation loop of [summarize_full_document]: the state is
    [(document_text, total_tokens)]; the [else] branch breaks. *)
Fixpoint accumulate (E : Env) (max_tokens : nat) (all_chunks : list string)
    (document_text : string) (total_tokens : nat) : string * nat :=
  match all_chunks with
  | [] => (document_text, total_tokens)
  | chunk :: rest =>
      let tokens := length (tokenizer_encode E chunk) in
      if Nat.leb (total_tokens + tokens) max_tokens
      then accumulate E max_tokens rest
                      (document_text +:+ (chunk +:+ nl +:+ nl))
                      (total_tokens + tokens)
      else (document_text, total_tokens)
  end.

(** [all_chunks]: the texts of the points of the one scroll page read. *)
Definition scanned_chunks (E : Env) (page : list PointStruct) : list string :=
  (λ point, payload_text E (point_payload point)) <$> page.

Definition summarize_prompt (document_text : string) : string :=
  "Summarize the following document:" +:+ nl +:+ nl +:+ document_text
  +:+ nl +:+ nl +:+ "Summary:".

Definition summarize_full_document (E : Env) (self : RAGChatbot)
    (model : string) (max_tokens : nat) : M string :=
  results ← Qdrant.scroll E (collection_name self) 1000 true;
  let all_chunks := scanned_chunks E results.1 in
  let document_text := (accumulate E max_tokens all_chunks "" 0).1 in
  post_generate E model (summarize_prompt document_text).

End Chatbot.

(** ** Standalone search: [search.py] *)

Module Search.

Definition collection_name : string := "myRag".

Definition search_request (dense_query_vector : list float)
    (sparse_query_vector : SparseVector) (late_query_vector : list (list float))
    : QueryRequest :=
  {| q_collection_name := collection_name;
     q_query := models.QMulti late_query_vector;
     q_using := LATE;
     q_prefetch := hybrid_prefetch dense_query_vector sparse_query_vector 20;
     q_limit := 10;
     q_with_payload := true |}.

(** One iteration of the query loop, for a query other than [exit]. *)
Definition search_once (E : Env) (query : string) : M unit :=
  dense_query_vector ← query_embed Dense (dense_query_embed E) query;
  sparse_query_vector ← query_embed Bm25 (sparse_query_embed E) query;
  late_query_vector ← query_embed Colbert (late_query_embed E) query;
  results ← Qdrant.query_points E
    (search_request dense_query_vector sparse_query_vector late_query_vector);
  print (nl +:+ "[RESULTS]");;
  print (Py.str_of_nat (length results));;
  forM_ results (λ point,
    print (str_payload E (models.payload point));;
    print "----------------------------------------").

End Search.

(** ** Chat route: the retrieval part of [send_message] in
    [app/routes/chat_routes.py] *)

Module ChatRoutes.

(** A bot is constructed for every message, then asked according to the
    classified intent. *)
Definition bot_response (E : Env) (collection_name user_text intent : string)
    : M string :=
  rag_bot ← Chatbot.__init__ E collection_name;
  if String.eqb intent "Summarize Full Document" then
    print "Intent detected: Summarize Full Document";;
    Chatbot.summarize_full_document E rag_bot "gemma3:4b" (120 * 1000)
  else
    print "Intent detected: Q&A";;
    Chatbot.answer_query E rag_bot user_text.

End ChatRoutes.

(** ** Vocabulary of the properties *)

(** Token count of a sequence of chunks, as the summarisation loop
    measures it. *)
Definition sum_tokens (E : Env) (chunks : list string) : nat :=
  sum_list ((λ chunk, length (tokenizer_encode E chunk)) <$> chunks).

(** The concatenation of whole chunks, each followed by a blank line. *)
Definition concat_chunks (chunks : list string) : string :=
  foldr (λ chunk acc, (chunk +:+ nl +:+ nl) +:+ acc) "" chunks.

(** A stored vector is non-empty. *)
Definition vector_nonempty (v : Vector) : bool :=
  match v with
  | VDense l => negb (Nat.eqb (length l) 0)
  | VSparse s => negb (Nat.eqb (length (indices s)) 0)
  | VMulti m => negb (Nat.eqb (length m) 0)
  end.

(** A point carries the three named vector spaces. *)
Definition has_three_spaces (p : PointStruct) : Prop :=
  ∃ d s m, point_vector p !! DENSE = Some (VDense d)
         ∧ point_vector p !! SPARSE = Some (VSparse s)
         ∧ point_vector p !! LATE = Some (VMulti m)
         ∧ dom (point_vector p) = ({[ DENSE; SPARSE; LATE ]} : gset string).

(** Point completeness: the three spaces are present and non-empty. *)
Definition point_complete (p : PointStruct) : bool :=
  forallb (λ space, match point_vector p !! space with
                    | Some v => vector_nonempty v
                    | None => false
                    end)
          [DENSE; SPARSE; LATE].

(** The points of a collection of the store, none if it does not exist. *)
Definition stored_points (w : World) (name : string) : list PointStruct :=
  match collections w !! name with
  | Some c => points c
  | None => []
  end.

(** The upsert batches recorded in a trace. *)
Definition upserted_points (events : list Event) : list PointStruct :=
  mjoin ((λ e, match e with
               | EvStorage (ReqUpsert _ batch) => batch
               | _ => []
               end) <$> events).

(** [emits P m]: whatever the outcome, [m] only adds events satisfying
    [P] to the trace, in front of what was there. *)
Definition emits {A} (P : Event → Prop) (m : M A) : Prop :=
  ∀ w, ∃ new, trace (m w).2 = new ++ trace w ∧ Forall P new.

(** The requests of the index writer: it never asks the store for a
    point count and never scans or searches it. *)
Definition writer_event (e : Event) : Prop :=
  match e with
  | EvStorage (ReqCount _) | EvStorage (ReqScroll _ _ _)
  | EvStorage (ReqQueryPoints _) => False
  | EvQueryEmbed _ _ | EvGenerate _ _ | EvLoadTokenizer => False
  | _ => True
  end.

(** The number of storage requests [setup_collection] issues: existence
    check, deletion when the collection exists, creation. *)
Definition setup_requests (w : World) (name : string) : nat :=
  if bool_decide (is_Some (collections w !! name)) then 3 else 2.

(** No storage request numbered from [a] up to [b] (excluded) fails. *)
Definition fault_free (E : Env) (a b : nat) : Prop :=
  ∀ n, a ≤ n < b → storage_fault E n = false.

(** Ranked candidates are in non-increasing order of score. *)
Definition by_score_desc (a b : Q * PointStruct) : Prop := (b.1 <= a.1)%Q.

(** The same order on search results. *)
Definition ranked_desc (a b : models.ScoredPoint) : Prop :=
  (models.score b <= models.score a)%Q.

(** A search result stems from a stored point of collection [c] and
    carries its id, its payload and its score against [q] in [space]. *)
Definition result_of (E : Env) (c : Collection) (space : string)
    (q : models.QueryVector) (sp : models.ScoredPoint) : Prop :=
  ∃ p, p ∈ points c
     ∧ models.id sp = point_id p
     ∧ models.payload sp = point_payload p
     ∧ Qdrant.score_point E (schema c) space q p = Some (models.score sp).

(** What the claim on result bounds asks of a ranked result list. *)
Definition ranked_results (E : Env) (c : Collection) (q : models.QueryVector)
    (k : nat) (ranked : list models.ScoredPoint) : Prop :=
  length ranked ≤ k
  ∧ StronglySorted ranked_desc ranked
  ∧ Forall (result_of E c LATE q) ranked.

(** The candidates of one first-stage search: the best [limit] points of
    the collection in one space. *)
Definition first_stage (E : Env) (c : Collection) (space : string)
    (q : models.QueryVector) (limit : nat) : list PointStruct :=
  snd <$> take limit
            (Qdrant.sort_desc (omap (Qdrant.scored E (schema c) space q) (points c))).

(** The union of the dense and the sparse candidates, deduplicated by
    point id. *)
Definition fused_pool (E : Env) (c : Collection) (dense_vector : list float)
    (sparse_vector : SparseVector) (prefetch_limit : nat) : list PointStruct :=
  Qdrant.dedup_by_id []
    (first_stage E c DENSE (models.QDense dense_vector) prefetch_limit
     ++ first_stage E c SPARSE (models.QSparse sparse_vector) prefetch_limit).

(** Two-stage fusion as the specification words it: the fused pool is
    re-scored by the late-interaction comparator, ordered by descending
    score, and truncated to the final limit. *)
Definition two_stage (E : Env) (c : Collection) (dense_vector : list float)
    (sparse_vector : SparseVector) (late_vector : list (list float))
    (prefetch_limit final_limit : nat) : list models.ScoredPoint :=
  Qdrant.to_scored_point true <$>
    take final_limit
      (Qdrant.sort_desc
         (omap (Qdrant.scored E (schema c) LATE (models.QMulti late_vector))
               (fused_pool E c dense_vector sparse_vector prefetch_limit))).

(** The world after the three query embeddings of [query]. *)
Definition after_query_embeds (query : string) (w : World) : World :=
  add_event (EvQueryEmbed Colbert query)
    (add_event (EvQueryEmbed Bm25 query)
       (add_event (EvQueryEmbed Dense query) w)).

(** The fused pool is the deduplicated union of two capped candidate
    lists: both lists respect the cap, no point id occurs twice in the
    pool, the pool holds only candidates, and every candidate's id is in
    the pool. *)
Definition dedup_union_of_two (E : Env) (c : Collection) (dense_vector : list float)
    (sparse_vector : SparseVector) (prefetch_limit : nat) : Prop :=
  let dense_top := first_stage E c DENSE (models.QDense dense_vector) prefetch_limit in
  let sparse_top := first_stage E c SPARSE (models.QSparse sparse_vector) prefetch_limit in
  let pool := fused_pool E c dense_vector sparse_vector prefetch_limit in
  length dense_top ≤ prefetch_limit
  ∧ length sparse_top ≤ prefetch_limit
  ∧ NoDup (point_id <$> pool)
  ∧ (∀ p, p ∈ pool → p ∈ dense_top ∨ p ∈ sparse_top)
  ∧ (∀ p, p ∈ dense_top ∨ p ∈ sparse_top → point_id p ∈ (point_id <$> pool)).

Definition is_print (e : Event) : Prop := ∃ line, e = EvPrint line.

(** A hybrid search request on collection [name]: the outer query is the
    late-interaction vector in the late-interaction space, over exactly
    two prefetches, the first with the dense vector in the dense space
    and the second with the sparse vector in the sparse space, each
    capped at [prefetch_limit]; [final_limit] results are asked for. *)
Definition hybrid_request (r : QueryRequest) (name : string)
    (dense_vector : list float) (sparse_vector : SparseVector)
    (late_vector : list (list float)) (prefetch_limit final_limit : nat) : Prop :=
  q_collection_name r = name
  ∧ q_query r = models.QMulti late_vector
  ∧ q_using r = "colbertv2.0"
  ∧ q_prefetch r
    = [ {| models.pf_query := models.QDense dense_vector;
           models.pf_using := "all-MiniLM-L6-v2";
           models.pf_limit := prefetch_limit |};
        {| models.pf_query := models.QSparse sparse_vector;
           models.pf_using := "bm25";
           models.pf_limit := prefetch_limit |} ]
  ∧ q_limit r = final_limit.

(** What [search.py] prints for a result list, first line first: the
    heading, the number of results, then every payload followed by a
    rule. *)
Definition printed_results (E : Env) (results : list models.ScoredPoint)
    : list Event :=
  EvPrint (nl +:+ "[RESULTS]")
  :: EvPrint (Py.str_of_nat (length results))
  :: flat_map (λ point, [EvPrint (str_payload E (models.payload point));
                         EvPrint "----------------------------------------"])
              results.

(** [t in s] on strings: [t] is a contiguous part of [s]. *)
Definition occurs_in (t s : string) : Prop :=
  ∃ before after, s = before +:+ (t +:+ after).

(** The point the writer should store for a chunk text: a fresh id, the
    text as payload, and what the three embedders return for the text. *)
Definition expected_point (E : Env) (uid : nat) (content : string)
    : option PointStruct :=
  d ← dense_embed E content;
  s ← sparse_embed E content;
  c ← late_embed E content;
  Some {| point_id := uid;
          point_payload := [("text", content)];
          point_vector := {[ DENSE := VDense d; SPARSE := VSparse s;
                             LATE := VMulti c ]} |}.

(** The point [build_point] makes of chunk [j] when given id [uid]. *)
Definition point_for (self : Index.QdrantRAGUploader) (uid j : nat)
    : option PointStruct :=
  chunk ← Index.chunks self !! j;
  content ← Py.get chunk "content";
  d ← Index.dense_vecs self !! j;
  s ← Index.sparse_vecs self !! j;
  c ← Index.colbert_vecs self !! j;
  Some {| point_id := uid;
          point_payload := [("text", content)];
          point_vector := {[ DENSE := VDense d; SPARSE := VSparse s;
                             LATE := VMulti c ]} |}.

(** The points built for chunks [i .. i+len-1], ids counted from [u0]. *)
Definition built_from (self : Index.QdrantRAGUploader) (u0 i len : nat)
    : list PointStruct :=
  omap (λ j, point_for self (u0 + j) j) (seq i len).

(** The uploader holds the chunks, their texts and the three embeddings
    of every text. *)
Definition embedded_with (E : Env) (self : Index.QdrantRAGUploader) : Prop :=
  Forall2 (λ chunk text, Py.get chunk "content" = Some text)
          (Index.chunks self) (Index.texts self)
  ∧ Forall2 (λ text v, dense_embed E text = Some v)
            (Index.texts self) (Index.dense_vecs self)
  ∧ Forall2 (λ text v, sparse_embed E text = Some v)
            (Index.texts self) (Index.sparse_vecs self)
  ∧ Forall2 (λ text v, late_embed E text = Some v)
            (Index.texts self) (Index.colbert_vecs self).

(** The state of the upload loop after [k] batches of ten: the collection
    holds the points of the first [10 k] chunks (all of them, if fewer),
    and as many ids and [k] requests have been used. *)
Definition after_batches (self : Index.QdrantRAGUploader) (sch : Schema)
    (u0 r0 k : nat) (w : World) : Prop :=
  collections w !! Index.collection_name self
  = Some {| schema := sch;
            points := built_from self u0 0
                        (Nat.min (k * 10) (length (Index.chunks self))) |}
  ∧ next_uuid w = u0 + Nat.min (k * 10) (length (Index.chunks self))
  ∧ requests w = r0 + k.

(** Every chunk has a [content] that the three models embed. *)
Definition indexable (E : Env) (cs : list Py.dict) : Prop :=
  Forall (λ chunk, ∃ content,
            Py.get chunk "content" = Some content
            ∧ is_Some (dense_embed E content)
            ∧ is_Some (sparse_embed E content)
            ∧ is_Some (late_embed E content)) cs.

(** The stored points [pts] are the expected points of the first chunks
    of [cs], in order, ids counted from [u0]. *)
Definition points_of_chunks (E : Env) (u0 : nat) (cs : list Py.dict)
    (pts : list PointStruct) : Prop :=
  ∀ j p, pts !! j = Some p →
    ∃ chunk content,
      cs !! j = Some chunk
      ∧ Py.get chunk "content" = Some content
      ∧ expected_point E (u0 + j) content = Some p.

(** ** A small concrete deployment

    Character-level stand-ins for the three embedding models and the
    tokenizer, used to run the embedding on explicit inputs. *)

Module Scenario.

Definition char_codes (s : string) : list nat :=
  (λ a, Ascii.nat_of_ascii a) <$> String.list_ascii_of_string s.

Definition dot (a b : list float) : Q :=
  Qred (Qdrant.Qsum (zip_with Qmult a b)).

Definition dense (t : string) : list float :=
  [inject_Z (Z.of_nat (String.length t)); 1%Q].

(** One entry per character: like a lexical model, the empty text has an
    empty sparse vector. *)
Definition sparse (t : string) : SparseVector :=
  {| indices := char_codes t; values := (λ _, 1%Q) <$> char_codes t |}.

Definition late (t : string) : list (list float) :=
  [1%Q] :: ((λ c, [inject_Z (Z.of_nat c)]) <$> char_codes t).

Definition env (files : string → option (list Py.dict)) (fault : nat → bool) : Env :=
  {| read_chunks := files;
     dense_embed := λ t, Some (dense t);
     sparse_embed := λ t, Some (sparse t);
     late_embed := λ t, Some (late t);
     dense_query_embed := λ t, Some (dense t);
     sparse_query_embed := λ t, Some (sparse t);
     late_query_embed := λ t, Some (late t);
     tokenizer_encode := char_codes;
     str_payload := λ _, "{}";
     generate := λ _ _, Some "ok";
     storage_fault := fault;
     similarity := λ _, dot;
     sparse_similarity := λ _ a b,
       inject_Z (Z.of_nat (length (filter (λ i, i ∈ indices b) (indices a)))) |}.

Definition no_fault : nat → bool := λ _, false.

(** Only storage request number [k] fails. *)
Definition fail_at (k : nat) : nat → bool := λ n, Nat.eqb n k.

Definition chunk (content : string) : Py.dict := [("content", content)].

(** A chunk file with the given contents at [chunks.json]. *)
Definition file (contents : list string) (path : string) : option (list Py.dict) :=
  if String.eqb path "chunks.json" then Some (chunk <$> contents) else None.

Definition uploader : Index.QdrantRAGUploader :=
  {| Index.file_path := "chunks.json"; Index.collection_name := "pdf";
     Index.texts := []; Index.chunks := [];
     Index.dense_vecs := []; Index.sparse_vecs := []; Index.colbert_vecs := [] |}.

Definition empty_world : World :=
  {| collections := ∅; requests := 0; next_uuid := 0; trace := [] |}.

(** The point stored for a text under id [i]. *)
Definition point (i : nat) (text : string) : PointStruct :=
  {| point_id := i;
     point_payload := [("text", text)];
     point_vector := {[ DENSE := VDense (dense text); SPARSE := VSparse (sparse text);
                        LATE := VMulti (late text) ]} |}.

(** A store holding collection [pdf] with one point per text. *)
Definition world_with (texts : list string) : World :=
  {| collections :=
       {[ "pdf" := {| schema := Index.rag_schema; points := imap point texts |} ]};
     requests := 0; next_uuid := length texts; trace := [] |}.

Definition retriever : Retriever.QdrantRetriever :=
  {| Retriever.persistence_path := "Qdrant"; Retriever.collection_name := "pdf" |}.

Definition chatbot : Chatbot.RAGChatbot := {| Chatbot.collection_name := "pdf" |}.

(** The texts of a collection of 1001 points: a thousand one-token
    chunks and a last, different one. *)
Definition thousand_and_one : list string := replicate 1000 "c" ++ ["tail"].

End Scenario.

(** ** Vocabulary of the frame properties *)

(** [preserves R m]: whatever the outcome, the world [m] leaves is
    related by [R] to the world it started in. *)
Definition preserves {A} (R : World → World → Prop) (m : M A) : Prop :=
  ∀ w, R w (m w).2.

(** A relation between worlds that logging an event or a storage
    request cannot break. *)
Class FrameRel (R : World → World → Prop) : Prop := {
  frame_refl : ∀ w, R w w;
  frame_trans : ∀ a b c, R a b → R b c → R a c;
  frame_event : ∀ e w, R w (add_event e w);
  frame_request : ∀ r w, R w (Qdrant.log_request r w)
}.

(** The store and the id supply are what they were. *)
Definition same_store (w w' : World) : Prop :=
  collections w' = collections w ∧ next_uuid w' = next_uuid w.

(** Every collection other than [name] is what it was. *)
Definition same_elsewhere (name : string) (w w' : World) : Prop :=
  ∀ other, other ≠ name → collections w' !! other = collections w !! other.

(** No upsert request carries more than [n] points. *)
Definition batch_bounded (n : nat) (e : Event) : Prop :=
  match e with
  | EvStorage (ReqUpsert _ batch) => length batch ≤ n
  | _ => True
  end.

(** The world with the events [new] added to the trace, latest first,
    and nothing else changed. *)
Definition with_events (new : list Event) (w : World) : World :=
  {| collections := collections w; requests := requests w;
     next_uuid := next_uuid w; trace := new ++ trace w |}.



(** The prompt [answer_query] builds from a context and a query. *)
Definition answer_prompt (context query : string) : string :=
  "Answer the question based on the following context:" +:+ nl +:+ nl
  +:+ context +:+ nl +:+ nl +:+ "Question: " +:+ query +:+ nl +:+ "Answer:".

(** ** Upload side of the chat routes: [app/routes/chat_routes.py] *)

(** String operations of Python used by [allowed_file]. A Python string
    is represented by its UTF-8 bytes. The byte of ['.'] occurs in such a
    string only where the character ['.'] does, so searching and splitting
    at ['.'] are done on the bytes. Lower-casing is not: [str.lower] knows
    the capitals of every script, and is passed to [allowed_file] as the
    function [str_lower]. On a string of ASCII characters it is
    [lower_ascii], which maps [A-Z] to [a-z]. *)
Module PyStr.

(** The character ['.']. *)
Definition dot : Ascii.ascii := Ascii.ascii_of_nat 46.

(** [c in s] for a one-character [c]. *)
Fixpoint contains (c : Ascii.ascii) (s : string) : bool :=
  match s with
  | EmptyString => false
  | String a s' => Ascii.eqb a c || contains c s'
  end.

(** [s.rsplit(c, 1)]: the parts before and after the last [c], or the
    whole string alone when [c] does not occur. *)
Fixpoint rsplit1 (c : Ascii.ascii) (s : string) : list string :=
  match s with
  | EmptyString => [EmptyString]
  | String a s' =>
      match rsplit1 c s' with
      | [before; after] => [String a before; after]
      | [rest] => if Ascii.eqb a c then [EmptyString; rest] else [String a rest]
      | _ => []
      end
  end.

Definition lower_ascii_char (a : Ascii.ascii) : Ascii.ascii :=
  let n := Ascii.nat_of_ascii a in
  if (65 <=? n) && (n <=? 90) then Ascii.ascii_of_nat (n + 32) else a.

(** [s.lower()] for a string [s] of ASCII characters. *)
Fixpoint lower_ascii (s : string) : string :=
  match s with
  | EmptyString => EmptyString
  | String a s' => String (lower_ascii_char a) (lower_ascii s')
  end.

(** [s.isascii()]. *)
Fixpoint isascii (s : string) : bool :=
  match s with
  | EmptyString => true
  | String a s' => (Ascii.nat_of_ascii a <? 128) && isascii s'
  end.

End PyStr.

Module Upload.

(** [allowed_file]; [str_lower] is Python's [str.lower]. [list[1]]
    raises [IndexError] when the list has one element only. *)
Definition allowed_file (str_lower : string → string)
    (filename : string) (allowed_extensions : gset string) : result bool :=
  if PyStr.contains PyStr.dot filename then
    match PyStr.rsplit1 PyStr.dot filename !! 1 with
    | Some extension => Ok (bool_decide (str_lower extension ∈ allowed_extensions))
    | None => Raise IndexError
    end
  else Ok false.

(** What the background task works on besides the store: the
    module-level [progress_store] and the [status] column of the PDF
    table. *)
Record AppState := {
  world : World;
  progress_store : gmap string nat;
  pdf_status : gmap nat string
}.

Definition App (A : Type) : Type := AppState → result A * AppState.

#[global] Instance App_ret : MRet App := λ A a s, (Ok a, s).
#[global] Instance App_bind : MBind App :=
  λ A B k m s, match m s with
               | (Ok a, s') => k a s'
               | (Raise e, s') => (Raise e, s')
               end.

Definition app_raise {A} (e : exn) : App A := λ s, (Raise e, s).

(** Run a computation on the store inside the application state. *)
Definition lift {A} (m : M A) : App A :=
  λ s, let r := m (world s) in
       (r.1, {| world := r.2; progress_store := progress_store s;
                pdf_status := pdf_status s |}).

(** [progress_store[task_id] = n]. *)
Definition set_progress (task_id : string) (n : nat) : App unit :=
  λ s, (Ok tt, {| world := world s;
                  progress_store := <[task_id := n]> (progress_store s);
                  pdf_status := pdf_status s |}).

(** [pdf = db.session.get(PDF, pdf_id); pdf.status = status]: the lookup
    yields [None] for an unknown id, and setting the attribute raises. *)
Definition set_pdf_status (pdf_id : nat) (status : string) : App unit :=
  λ s, match pdf_status s !! pdf_id with
       | Some _ =>
           (Ok tt, {| world := world s; progress_store := progress_store s;
                      pdf_status := <[pdf_id := status]> (pdf_status s) |})
       | None =>
           (Raise (PyException "'NoneType' object has no attribute 'status'"), s)
       end.

(** [background_process]. The PDF processor is outside the modelled
    code and is passed in as [process_pdf_for_rag]; the global
    [current_collection_name] is read when the indexer is made and is
    passed in as well. The table of PDFs is the map [pdf_status];
    [db.session.commit] and [time.sleep] are left out. *)
Definition background_process (E : Env) (process_pdf_for_rag : string → M unit)
    (current_collection_name task_id file_path : string) (pdf_id : nat) : App unit :=
  set_progress task_id 25;;
  lift (process_pdf_for_rag file_path);;
  set_progress task_id 50;;
  indexer ← lift (Index.__init__ "./my_rag_chunks/rag_chunks.json"
                                 current_collection_name);
  success ← lift (Index.run E indexer);
  (if negb success then app_raise (PyException "Failed to index PDF data")
   else mret tt);;
  set_progress task_id 75;;
  set_pdf_status pdf_id "success";;
  set_progress task_id 100.

End Upload.

(** * Properties *)

(** ** Reasoning about the monad *)

Lemma bind_eq {A B} (m : M A) (k : A → M B) (w : World) :
  (m ≫= k) w = match m w with
               | (Ok a, w') => k a w'
               | (Raise e, w') => (Raise e, w')
               end.
Proof. reflexivity. Qed.

Lemma bind_ok {A B} (m : M A) (k : A → M B) (w w' : World) (a : A) :
  m w = (Ok a, w') → (m ≫= k) w = k a w'.
Proof. intros H. rewrite bind_eq, H. reflexivity. Qed.

Lemma bind_raise {A B} (m : M A) (k : A → M B) (w w' : World) (e : exn) :
  m w = (Raise e, w') → (m ≫= k) w = (Raise e, w').
Proof. intros H. rewrite bind_eq, H. reflexivity. Qed.

Lemma mret_eq {A} (a : A) (w : World) : (mret a : M A) w = (Ok a, w).
Proof. reflexivity. Qed.

(** A list of optional lookups lifted through [mapM] succeeds exactly
    when every lookup does, and leaves the world alone. *)
Lemma mapM_from_option_ok {A B} (e : exn) (f : A → option B) (l : list A)
    (ys : list B) (w : World) :
  Forall2 (λ x y, f x = Some y) l ys →
  mapM (λ x, from_option e (f x)) l w = (Ok ys, w).
Proof.
  intros H. revert w. induction H as [|x y l ys Hxy _ IH]; intros w.
  - reflexivity.
  - cbn [mapM]. rewrite bind_eq, Hxy. cbn [from_option].
    rewrite mret_eq, bind_eq, IH. reflexivity.
Qed.

(** ** Event footprints *)

Section Footprint.
Context (P : Event → Prop).

Lemma emits_ret {A} (a : A) : emits P (mret a : M A).
Proof. intros w. exists []. split; [reflexivity|constructor]. Qed.

Lemma emits_raise {A} (e : exn) : emits P (raise e : M A).
Proof. intros w. exists []. split; [reflexivity|constructor]. Qed.

Lemma emits_bind {A B} (m : M A) (k : A → M B) :
  emits P m → (∀ a, emits P (k a)) → emits P (m ≫= k).
Proof.
  intros Hm Hk w. rewrite bind_eq. destruct (Hm w) as (n1 & E1 & F1).
  destruct (m w) as [[a|e] w1]; cbn in *.
  - destruct (Hk a w1) as (n2 & E2 & F2). exists (n2 ++ n1).
    rewrite E2, E1, app_assoc. split; [reflexivity|].
    apply Forall_app; split; assumption.
  - exists n1. split; assumption.
Qed.

Lemma emits_try_except {A} (body : M A) (handler : exn → M A) :
  emits P body → (∀ e, emits P (handler e)) → emits P (try_except body handler).
Proof.
  intros Hm Hk w. unfold try_except. destruct (Hm w) as (n1 & E1 & F1).
  destruct (body w) as [[a|e] w1]; cbn in *.
  - exists n1. split; assumption.
  - destruct (Hk e w1) as (n2 & E2 & F2). exists (n2 ++ n1).
    rewrite E2, E1, app_assoc. split; [reflexivity|].
    apply Forall_app; split; assumption.
Qed.

Lemma emits_emit (e : Event) : P e → emits P (emit e).
Proof.
  intros He w. exists [e]. split; [reflexivity|].
  constructor; [assumption|constructor].
Qed.

Lemma emits_print (line : string) : P (EvPrint line) → emits P (print line).
Proof. apply emits_emit. Qed.

Lemma emits_uuid4 : emits P uuid4.
Proof. intros w. exists []. split; [reflexivity|constructor]. Qed.

Lemma emits_from_option {A} (e : exn) (o : option A) : emits P (from_option e o).
Proof. destruct o; [apply emits_ret|apply emits_raise]. Qed.

Lemma emits_mapM {A B} (f : A → M B) (l : list A) :
  (∀ x, emits P (f x)) → emits P (mapM f l).
Proof.
  intros Hf. induction l as [|x l IH]; cbn [mapM].
  - apply emits_ret.
  - apply emits_bind; [apply Hf|]. intros y.
    apply emits_bind; [apply IH|]. intros ys. apply emits_ret.
Qed.

Lemma emits_forM_ {A} (f : A → M unit) (l : list A) :
  (∀ x, emits P (f x)) → emits P (forM_ l f).
Proof.
  intros Hf. induction l as [|x l IH]; cbn [forM_].
  - apply emits_ret.
  - apply emits_bind; [apply Hf|]. intros _. apply IH.
Qed.

Lemma emits_request (E : Env) (r : Request) :
  P (EvStorage r) → emits P (Qdrant.request E r).
Proof.
  intros Hr w. exists [EvStorage r]. unfold Qdrant.request.
  destruct (storage_fault E (requests w)); cbn;
    (split; [reflexivity|constructor; [assumption|constructor]]).
Qed.

Lemma emits_get_store : emits P Qdrant.get_store.
Proof. intros w. exists []. split; [reflexivity|constructor]. Qed.

Lemma emits_put_store cs : emits P (Qdrant.put_store cs).
Proof. intros w. exists []. split; [reflexivity|constructor]. Qed.

End Footprint.

(** Decompose a footprint goal along the structure of the program. *)
Ltac footprint :=
  repeat first
    [ apply emits_ret | apply emits_raise | apply emits_uuid4
    | apply emits_get_store | apply emits_put_store | apply emits_from_option
    | apply emits_bind; [|intros ?]
    | apply emits_try_except; [|intros ?]
    | apply emits_mapM; intros ?
    | apply emits_forM_; intros ?
    | apply emits_print | apply emits_emit | apply emits_request
    | match goal with
      | |- emits _ (if ?b then _ else _) => destruct b
      | |- emits _ (match ?x with _ => _ end) => destruct x
      end ].

Lemma run_footprint (E : Env) (self : Index.QdrantRAGUploader) :
  emits writer_event (Index.run E self).
Proof.
  unfold Index.run, Index.pipeline, Index.load_chunks, Index.setup_collection,
    Index.embed_texts, Index.embed_all, Index.insert_into_qdrant,
    Index.insert_batch, Index.build_point,
    Qdrant.collection_exists, Qdrant.delete_collection, Qdrant.create_collection,
    Qdrant.upsert, Qdrant.get_collection, Qdrant.put_collection.
  footprint; exact I.
Qed.

(** Expose the state passing of a monadic program to evaluation. *)
Ltac unfold_monad :=
  unfold mbind, M_bind, bind, mret, M_ret, ret, raise, print, emit in *; cbn in *.

(** ** The index writer *)

(** [setup_collection] always leaves the collection freshly created,
    whether it existed or not, provided its own requests go through. *)
Lemma setup_collection_ok (E : Env) (self : Index.QdrantRAGUploader) (w : World) :
  fault_free E (requests w)
             (requests w + setup_requests w (Index.collection_name self)) →
  ∃ w', Index.setup_collection E self w = (Ok tt, w')
      ∧ collections w' =
          <[Index.collection_name self :=
              {| schema := Index.rag_schema; points := [] |}]> (collections w)
      ∧ requests w' = requests w + setup_requests w (Index.collection_name self)
      ∧ next_uuid w' = next_uuid w.
Proof.
  intros Hff. unfold setup_requests in *.
  unfold Index.setup_collection, Qdrant.collection_exists,
    Qdrant.delete_collection, Qdrant.create_collection, Qdrant.request.
  set (name := Index.collection_name self) in *.
  destruct w as [cs rq uu tr]. unfold_monad.
  rewrite (Hff rq) by (case_bool_decide; lia). cbn.
  case_bool_decide as Hex; cbn.
  - (* the collection exists: delete, then create *)
    rewrite (Hff (S rq)) by lia. cbn.
    rewrite (Hff (S (S rq))) by lia. cbn.
    rewrite lookup_delete_eq. cbn.
    eexists. split; [reflexivity|]. cbn.
    rewrite insert_delete_eq. repeat split; lia.
  - rewrite (Hff (S rq)) by lia. cbn.
    apply eq_None_not_Some in Hex. rewrite Hex. cbn.
    eexists. split; [reflexivity|]. cbn. repeat split; lia.
Qed.

(** C7. Calling the collection-creation operation twice in recreate mode
    is idempotent on schema and state: after the second call, as after the
    first, the collection has zero points and declares the same three
    vector spaces (dense cosine 384, sparse IDF-weighted, late-interaction
    max-sim cosine 128), and the store as a whole is unchanged by the
    second call. *)
Theorem C7_setup_collection_idempotent
    (E : Env) (self : Index.QdrantRAGUploader) (w : World) :
  fault_free E (requests w)
             (requests w + setup_requests w (Index.collection_name self) + 3) →
  ∃ w1 w2,
    Index.setup_collection E self w = (Ok tt, w1)
    ∧ Index.setup_collection E self w1 = (Ok tt, w2)
    ∧ collections w1 !! Index.collection_name self
        = Some {| schema := Index.rag_schema; points := [] |}
    ∧ collections w2 !! Index.collection_name self
        = Some {| schema := Index.rag_schema; points := [] |}
    ∧ collections w2 = collections w1
    ∧ vectors_config Index.rag_schema !! "all-MiniLM-L6-v2"
        = Some {| models.size := 384; models.distance := models.COSINE;
                  models.multivector_config := None; models.hnsw_config := None |}
    ∧ sparse_vectors_config Index.rag_schema !! "bm25"
        = Some {| models.modifier := Some models.IDF |}
    ∧ vectors_config Index.rag_schema !! "colbertv2.0"
        = Some {| models.size := 128; models.distance := models.COSINE;
                  models.multivector_config := Some models.MAX_SIM;
                  models.hnsw_config := Some 0 |}
    ∧ size (vectors_config Index.rag_schema)
      + size (sparse_vectors_config Index.rag_schema) = 3.
Proof.
  intros Hff.
  destruct (setup_collection_ok E self w) as (w1 & R1 & C1 & Q1 & _).
  { intros n Hn. apply Hff. lia. }
  assert (Hin : collections w1 !! Index.collection_name self
                = Some {| schema := Index.rag_schema; points := [] |}).
  { rewrite C1. apply lookup_insert_eq. }
  assert (Hreq : setup_requests w1 (Index.collection_name self) = 3).
  { unfold setup_requests. rewrite Hin. reflexivity. }
  destruct (setup_collection_ok E self w1) as (w2 & R2 & C2 & _ & _).
  { intros n Hn. apply Hff. lia. }
  exists w1, w2. split; [exact R1|]. split; [exact R2|].
  split; [exact Hin|].
  assert (Heq : collections w2 = collections w1).
  { rewrite C2, C1. apply insert_insert_eq. }
  rewrite Heq. split; [exact Hin|]. split; [reflexivity|].
  repeat split; reflexivity.
Qed.

Lemma C7_setup_collection_idempotent_witness :
  ∃ w1 w2,
    Index.setup_collection (Scenario.env (Scenario.file []) Scenario.no_fault)
                           Scenario.uploader (Scenario.world_with ["a"; "b"])
      = (Ok tt, w1)
    ∧ Index.setup_collection (Scenario.env (Scenario.file []) Scenario.no_fault)
                             Scenario.uploader w1 = (Ok tt, w2)
    ∧ stored_points (Scenario.world_with ["a"; "b"]) "pdf"
        = [Scenario.point 0 "a"; Scenario.point 1 "b"]
    ∧ stored_points w1 "pdf" = []
    ∧ stored_points w2 "pdf" = [].
Proof.
  destruct (C7_setup_collection_idempotent
              (Scenario.env (Scenario.file []) Scenario.no_fault)
              Scenario.uploader (Scenario.world_with ["a"; "b"]))
    as (w1 & w2 & R1 & R2 & H1 & H2 & _).
  { intros n _. reflexivity. }
  exists w1, w2. split; [exact R1|]. split; [exact R2|].
  split; [reflexivity|]. unfold stored_points.
  change (Index.collection_name Scenario.uploader) with "pdf" in H1, H2.
  rewrite H1, H2. split; reflexivity.
Defined.

(** C4 (amended). The indexing run never raises past its boundary: it
    returns [True] exactly when loading, collection setup, embedding and
    upsert all went through, and otherwise prints the error and returns
    [False], keeping the store as the failing stage left it. The boolean
    is all it returns: it never asks the store for a point count. *)
Theorem C4_run_never_raises (E : Env) (self : Index.QdrantRAGUploader) (w : World) :
  ∃ b w',
    Index.run E self w = (Ok b, w')
    ∧ (b = true ↔ ∃ w1, Index.pipeline E self w = (Ok tt, w1))
    ∧ (b = false →
       ∃ e w1, Index.pipeline E self w = (Raise e, w1)
             ∧ trace w' = EvPrint ("[ERROR] " +:+ str_exn e) :: trace w1
             ∧ collections w' = collections w1)
    ∧ (∃ new, trace w' = new ++ trace w ∧ Forall writer_event new).
Proof.
  pose proof (run_footprint E self w) as Hfp.
  unfold Index.run, try_except in *. rewrite bind_eq in *.
  destruct (Index.pipeline E self w) as [[[]|e] w1]; cbn in *.
  - exists true, w1. split; [reflexivity|]. split; [|split; [discriminate|exact Hfp]].
    split; [eauto|reflexivity].
  - eexists false, _. split; [reflexivity|].
    split; [|split; [|exact Hfp]].
    + split; [discriminate|]. intros [w2 ?]. discriminate.
    + intros _. exists e, w1. repeat split; reflexivity.
Qed.

(** C4 as stated fails: the value returned by the run carries no
    collection statistics. Two runs return the same [True] while the
    collections they leave hold one and two points, so no function of the
    returned value yields the point count. *)
Lemma C4_counterexample :
  ¬ (∃ stats : bool → nat,
       ∀ E self w b w',
         Index.run E self w = (Ok b, w') →
         stats b = length (stored_points w' (Index.collection_name self))).
Proof.
  intros [stats H].
  set (E1 := Scenario.env (Scenario.file ["a"]) Scenario.no_fault).
  set (E2 := Scenario.env (Scenario.file ["a"; "b"]) Scenario.no_fault).
  assert (R1 : Index.run E1 Scenario.uploader Scenario.empty_world
               = (Ok true, (Index.run E1 Scenario.uploader Scenario.empty_world).2))
    by (vm_compute; reflexivity).
  assert (R2 : Index.run E2 Scenario.uploader Scenario.empty_world
               = (Ok true, (Index.run E2 Scenario.uploader Scenario.empty_world).2))
    by (vm_compute; reflexivity).
  assert (L1 : length (stored_points
                 (Index.run E1 Scenario.uploader Scenario.empty_world).2 "pdf") = 1)
    by (vm_compute; reflexivity).
  assert (L2 : length (stored_points
                 (Index.run E2 Scenario.uploader Scenario.empty_world).2 "pdf") = 2)
    by (vm_compute; reflexivity).
  apply H in R1. apply H in R2.
  change (Index.collection_name Scenario.uploader) with "pdf" in R1, R2.
  rewrite L1 in R1. rewrite L2 in R2. congruence.
Qed.

(** ** Strings *)

Lemma append_nil_r (s : string) : s +:+ "" = s.
Proof.
  induction s as [|a s IH]; [reflexivity|].
  change (String a (s +:+ "") = String a s). f_equal. exact IH.
Qed.

Lemma append_assoc (s1 s2 s3 : string) : (s1 +:+ s2) +:+ s3 = s1 +:+ (s2 +:+ s3).
Proof.
  induction s1 as [|a s1 IH]; [reflexivity|].
  change (String a ((s1 +:+ s2) +:+ s3) = String a (s1 +:+ (s2 +:+ s3))).
  f_equal. exact IH.
Qed.

(** ** Context formatting *)

Lemma length_enumerate_from {A} (k : nat) (l : list A) :
  length (Py.enumerate_from k l) = length l.
Proof. revert k. induction l as [|x l IH]; intros k; cbn; [reflexivity|]. rewrite IH. reflexivity. Qed.

Lemma lookup_enumerate_from {A} (k i : nat) (l : list A) (x : A) :
  l !! i = Some x → Py.enumerate_from k l !! i = Some (k + i, x).
Proof.
  revert k i. induction l as [|y l IH]; intros k i H; [discriminate|].
  destruct i as [|i].
  - injection H as ->. rewrite Nat.add_0_r. reflexivity.
  - rewrite Nat.add_succ_r. exact (IH (S k) i H).
Qed.

Lemma occurs_in_refl (t : string) : occurs_in t t.
Proof. exists "", "". rewrite append_nil_r. reflexivity. Qed.

Lemma occurs_in_app (t s before after : string) :
  occurs_in t s → occurs_in t (before +:+ (s +:+ after)).
Proof.
  intros (a & b & ->). exists (before +:+ a), (b +:+ after).
  rewrite !append_assoc. reflexivity.
Qed.

Lemma occurs_in_join (sep x : string) (l : list string) :
  x ∈ l → occurs_in x (Py.join sep l).
Proof.
  unfold Py.join. induction l as [|y l IH]; intros Hx.
  - apply elem_of_nil in Hx. destruct Hx.
  - destruct l as [|z l].
    + apply list_elem_of_singleton in Hx. subst. apply occurs_in_refl.
    + change (occurs_in x (y +:+ (sep +:+ String.concat sep (z :: l)))).
      apply elem_of_cons in Hx as [->|Hx].
      * exists "", (sep +:+ String.concat sep (z :: l)). reflexivity.
      * destruct (IH Hx) as (a & b & ->).
        exists (y +:+ (sep +:+ a)), b. rewrite !append_assoc. reflexivity.
Qed.

Lemma elem_of_enumerate_from {A} (k : nat) (l : list A) (x : A) :
  x ∈ l → ∃ i, (i, x) ∈ Py.enumerate_from k l.
Proof.
  intros Hx. apply list_elem_of_lookup in Hx as (i & Hi).
  exists (k + i). apply list_elem_of_lookup. exists i.
  apply lookup_enumerate_from. exact Hi.
Qed.

(** C10. When retrieval returns no payload, [get_context_string] returns
    the fixed sentinel, never the empty string; otherwise it returns one
    block per payload, in rank order, joined by blank lines. Block [i] is
    headed [Document i] (counting from one) and carries the payload
    itself: one line [key: value] per entry of the payload, in the order
    of the payload. So every key and every value of every retrieved
    payload can be read in the string returned. *)
Theorem C10_get_context_string
    (E : Env) (self : Retriever.QdrantRetriever) (query : string) (limit : nat)
    (w w' : World) (contexts : list Payload) :
  Retriever.retrieve E self query limit w = (Ok contexts, w') →
  ∃ s,
    Retriever.get_context_string E self query limit w = (Ok s, w')
    ∧ s ≠ ""
    ∧ (contexts = [] → s = "No relevant information found.")
    ∧ (contexts ≠ [] →
       ∃ blocks,
         s = Py.join (nl +:+ nl) blocks
         ∧ length blocks = length contexts
         ∧ ∀ i (doc : Payload), contexts !! i = Some doc →
             ∃ lines,
               blocks !! i
               = Some ("Document " +:+ Py.str_of_nat (i + 1) +:+ ":" +:+ nl
                       +:+ Py.join nl lines)
               ∧ length lines = length doc
               ∧ ∀ j key value, doc !! j = Some (key, value) →
                   lines !! j = Some (key +:+ ": " +:+ value))
    ∧ (∀ (doc : Payload) key value,
         doc ∈ contexts → (key, value) ∈ doc →
         occurs_in (key +:+ ": " +:+ value) s).
Proof.
  intros Hr. unfold Retriever.get_context_string.
  rewrite (bind_ok _ _ _ _ _ Hr), mret_eq.
  eexists. split; [reflexivity|]. split; [|split; [|split]].
  - destruct contexts as [|doc [|doc' rest]]; cbn; discriminate.
  - intros ->. reflexivity.
  - intros Hne. destruct contexts as [|doc rest]; [congruence|].
    eexists. split; [reflexivity|]. split.
    + rewrite length_fmap. apply length_enumerate_from.
    + intros i d Hi.
      exists ((λ kv : string * string, kv.1 +:+ ": " +:+ kv.2) <$> d).
      split; [|split].
      * pose proof (lookup_enumerate_from 0 i _ d Hi) as He.
        change (Py.enumerate_from 0 (doc :: rest))
          with (Py.enumerate (doc :: rest)) in He.
        rewrite list_lookup_fmap, He. reflexivity.
      * apply length_fmap.
      * intros j key value Hj. apply list_lookup_fmap_Some.
        exists (key, value). split; [reflexivity|exact Hj].
  - intros doc key value Hdoc Hkv.
    destruct contexts as [|doc0 rest]; [apply elem_of_nil in Hdoc; destruct Hdoc|].
    set (contexts := doc0 :: rest) in *.
    destruct (elem_of_enumerate_from 0 contexts doc Hdoc) as (i & Hi).
    change (Retriever.format_contexts contexts)
      with (Py.join (nl +:+ nl)
              ((λ idoc : nat * Payload,
                  "Document " +:+ Py.str_of_nat (idoc.1 + 1) +:+ ":" +:+ nl
                  +:+ Retriever._format_payload idoc.2)
                 <$> Py.enumerate contexts)).
    set (block := λ idoc : nat * Payload,
                    "Document " +:+ Py.str_of_nat (idoc.1 + 1) +:+ ":" +:+ nl
                    +:+ Retriever._format_payload idoc.2).
    assert (Hblock : occurs_in (key +:+ ": " +:+ value) (block (i, doc))).
    { unfold block. cbn [fst snd].
      assert (Hline : occurs_in (key +:+ ": " +:+ value)
                                (Retriever._format_payload doc)).
      { unfold Retriever._format_payload. apply occurs_in_join.
        apply list_elem_of_fmap. exists (key, value). split; [reflexivity|exact Hkv]. }
      destruct Hline as (a & b & ->).
      exists ("Document " +:+ Py.str_of_nat (i + 1) +:+ ":" +:+ nl +:+ a), b.
      rewrite !append_assoc. reflexivity. }
    destruct Hblock as (a & b & Hab).
    assert (Hin : occurs_in (block (i, doc))
                    (Py.join (nl +:+ nl) (block <$> Py.enumerate contexts))).
    { apply occurs_in_join. apply list_elem_of_fmap. exists (i, doc).
      split; [reflexivity|exact Hi]. }
    destruct Hin as (a' & b' & ->). rewrite Hab.
    exists (a' +:+ a), (b +:+ b'). rewrite !append_assoc. reflexivity.
Qed.

Lemma C10_get_context_string_witness :
  (Retriever.get_context_string
     (Scenario.env (Scenario.file []) Scenario.no_fault) Scenario.retriever
     "ab" 2 (Scenario.world_with ["ab"; ""; "abc"])).1
  = Ok ("Document 1:" +:+ nl +:+ "text: abc" +:+ nl +:+ nl
        +:+ "Document 2:" +:+ nl +:+ "text: ab").
Proof.
  destruct (C10_get_context_string
              (Scenario.env (Scenario.file []) Scenario.no_fault)
              Scenario.retriever "ab" 2
              (Scenario.world_with ["ab"; ""; "abc"])
              (Retriever.retrieve
                 (Scenario.env (Scenario.file []) Scenario.no_fault)
                 Scenario.retriever "ab" 2
                 (Scenario.world_with ["ab"; ""; "abc"])).2
              [[("text", "abc")]; [("text", "ab")]])
    as (s & H1 & _ & _ & H2 & _).
  { vm_compute. reflexivity. }
  rewrite H1. cbn [fst]. f_equal.
  destruct H2 as (blocks & -> & Hlen & Hblocks); [discriminate|].
  destruct (Hblocks 0 [("text", "abc")] eq_refl) as (l0 & Hb0 & Hl0 & Hline0).
  destruct (Hblocks 1 [("text", "ab")] eq_refl) as (l1 & Hb1 & Hl1 & Hline1).
  pose proof (Hline0 0 "text" "abc" eq_refl) as H0.
  pose proof (Hline1 0 "text" "ab" eq_refl) as H1'.
  destruct l0 as [|x0 [|? ?]]; try discriminate Hl0.
  destruct l1 as [|x1 [|? ?]]; try discriminate Hl1.
  injection H0 as ->. injection H1' as ->.
  destruct blocks as [|b0 [|b1 [|? ?]]]; try discriminate Hlen.
  injection Hb0 as ->. injection Hb1 as ->.
  reflexivity.
Defined.

(** ** Summarisation *)

Lemma sum_tokens_cons (E : Env) (chunk : string) (chunks : list string) :
  sum_tokens E (chunk :: chunks)
  = length (tokenizer_encode E chunk) + sum_tokens E chunks.
Proof. reflexivity. Qed.

(** The loop stops at the first chunk that does not fit: it has then
    appended a prefix of whole chunks within the budget. *)
Lemma accumulate_spec (E : Env) (max_tokens : nat) (all_chunks : list string)
    (document_text : string) (total_tokens : nat) :
  total_tokens ≤ max_tokens →
  ∃ n,
    n ≤ length all_chunks
    ∧ Chatbot.accumulate E max_tokens all_chunks document_text total_tokens
      = (document_text +:+ concat_chunks (take n all_chunks),
         total_tokens + sum_tokens E (take n all_chunks))
    ∧ total_tokens + sum_tokens E (take n all_chunks) ≤ max_tokens
    ∧ (n < length all_chunks →
       max_tokens < total_tokens + sum_tokens E (take (S n) all_chunks)).
Proof.
  revert document_text total_tokens.
  induction all_chunks as [|chunk rest IH]; intros doc total Hle.
  - exists 0. cbn. rewrite append_nil_r, Nat.add_0_r.
    split; [lia|]. split; [reflexivity|]. split; lia.
  - cbn [Chatbot.accumulate].
    destruct (Nat.leb_spec (total + length (tokenizer_encode E chunk)) max_tokens)
      as [Hfit|Hover].
    + destruct (IH (doc +:+ (chunk +:+ nl +:+ nl))
                   (total + length (tokenizer_encode E chunk)) Hfit)
        as (n & Hn & Hacc & Hsum & Hmax).
      exists (S n). cbn [take length concat_chunks foldr].
      rewrite !sum_tokens_cons. fold (concat_chunks (take n rest)).
      rewrite Hacc, append_assoc.
      split; [lia|]. split; [f_equal; lia|]. split; [lia|].
      intros Hlt. specialize (Hmax ltac:(lia)). lia.
    + exists 0. rewrite take_0. cbn [concat_chunks foldr length].
      rewrite append_nil_r.
      change (sum_tokens E []) with 0.
      change (take 1 (chunk :: rest)) with [chunk].
      rewrite sum_tokens_cons. change (sum_tokens E []) with 0.
      rewrite !Nat.add_0_r.
      split; [lia|]. split; [reflexivity|]. split; [lia|]. intros _. lia.
Qed.

(** What [summarize_full_document] does on an existing collection: one
    scroll request for a page of 1000 points, then one generation request
    whose prompt holds the accumulated text of that page. *)
Lemma summarize_full_document_run
    (E : Env) (self : Chatbot.RAGChatbot) (model : string) (max_tokens : nat)
    (w : World) (c : Collection) :
  collections w !! Chatbot.collection_name self = Some c →
  storage_fault E (requests w) = false →
  ∃ w',
    Chatbot.summarize_full_document E self model max_tokens w
    = (match generate E model
               (Chatbot.summarize_prompt
                  (Chatbot.accumulate E max_tokens
                     (Chatbot.scanned_chunks E (take 1000 (points c))) "" 0).1) with
       | Some response => Ok response
       | None => Raise RequestFailure
       end, w')
    ∧ trace w'
      = EvGenerate model
          (Chatbot.summarize_prompt
             (Chatbot.accumulate E max_tokens
                (Chatbot.scanned_chunks E (take 1000 (points c))) "" 0).1)
        :: EvStorage (ReqScroll (Chatbot.collection_name self) 1000 true)
        :: trace w
    ∧ collections w' = collections w.
Proof.
  intros Hc Hf.
  unfold Chatbot.summarize_full_document, Chatbot.post_generate, Qdrant.scroll,
    Qdrant.get_collection, Qdrant.request.
  destruct w as [cs rq uu tr]. unfold_monad.
  rewrite Hf. cbn. rewrite Hc. cbn.
  destruct (generate E model _); cbn; eexists; repeat split; reflexivity.
Qed.

(** C8. When the stored chunks together exceed the token budget, the
    text handed to the generation step is the concatenation, in storage
    order, of a proper prefix of whole chunks (each followed by a blank
    line) whose token count fits the budget; unless the page of 1000
    points ended first, the next stored chunk would not have fitted. No
    chunk is ever cut. *)
Theorem C8_summarize_whole_chunk_prefix
    (E : Env) (self : Chatbot.RAGChatbot) (model : string) (max_tokens : nat)
    (w : World) (c : Collection) :
  collections w !! Chatbot.collection_name self = Some c →
  storage_fault E (requests w) = false →
  max_tokens < sum_tokens E (Chatbot.scanned_chunks E (points c)) →
  ∃ n,
    n < length (points c)
    ∧ n ≤ 1000
    ∧ sum_tokens E (take n (Chatbot.scanned_chunks E (points c))) ≤ max_tokens
    ∧ (n < 1000 →
       max_tokens < sum_tokens E (take (S n) (Chatbot.scanned_chunks E (points c))))
    ∧ trace (Chatbot.summarize_full_document E self model max_tokens w).2
      = EvGenerate model
          (Chatbot.summarize_prompt
             (concat_chunks (take n (Chatbot.scanned_chunks E (points c)))))
        :: EvStorage (ReqScroll (Chatbot.collection_name self) 1000 true)
        :: trace w.
Proof.
  intros Hc Hf Hover.
  destruct (summarize_full_document_run E self model max_tokens w c Hc Hf)
    as (w' & Hrun & Htr & _).
  rewrite Hrun. cbn [snd]. rewrite Htr. clear Hrun Htr.
  set (stored := Chatbot.scanned_chunks E (points c)) in *.
  assert (Hpage : Chatbot.scanned_chunks E (take 1000 (points c)) = take 1000 stored).
  { unfold stored, Chatbot.scanned_chunks. apply fmap_take. }
  assert (Hlen : length stored = length (points c)).
  { unfold stored, Chatbot.scanned_chunks. apply length_fmap. }
  rewrite Hpage.
  destruct (accumulate_spec E max_tokens (take 1000 stored) "" 0 (Nat.le_0_l _))
    as (n & Hn & Hacc & Hsum & Hmax).
  rewrite length_take in Hn.
  assert (Htake : take n (take 1000 stored) = take n stored).
  { rewrite take_take. f_equal. lia. }
  rewrite Htake in *. cbn [Nat.add] in *.
  assert (Hlt : n < length stored).
  { destruct (Nat.lt_ge_cases n (length stored)) as [?|Hge]; [assumption|].
    rewrite (take_ge stored n Hge) in Hsum. lia. }
  exists n. rewrite Hacc. cbn [fst].
  split; [lia|]. split; [lia|]. split; [exact Hsum|]. split; [|reflexivity].
  intros Hn1000.
  assert (Htake' : take (S n) (take 1000 stored) = take (S n) stored).
  { rewrite take_take. f_equal. lia. }
  rewrite <- Htake'. apply Hmax. rewrite length_take. lia.
Qed.

Lemma C8_summarize_whole_chunk_prefix_witness :
  sum_tokens (Scenario.env (Scenario.file []) Scenario.no_fault) ["ab"; ""; "abc"] = 5
  ∧ trace (Chatbot.summarize_full_document
             (Scenario.env (Scenario.file []) Scenario.no_fault)
             Scenario.chatbot "gemma3:4b" 4
             (Scenario.world_with ["ab"; ""; "abc"])).2
    = [EvGenerate "gemma3:4b" (Chatbot.summarize_prompt (concat_chunks ["ab"; ""]));
       EvStorage (ReqScroll "pdf" 1000 true)].
Proof.
  split; [reflexivity|].
  destruct (C8_summarize_whole_chunk_prefix
              (Scenario.env (Scenario.file []) Scenario.no_fault)
              Scenario.chatbot "gemma3:4b" 4
              (Scenario.world_with ["ab"; ""; "abc"])
              {| schema := Index.rag_schema;
                 points := imap Scenario.point ["ab"; ""; "abc"] |})
    as (n & _ & _ & _ & _ & Htr).
  - reflexivity.
  - reflexivity.
  - vm_compute. lia.
  - vm_compute. reflexivity.
Defined.

(** C9, evaluated on a collection of 1001 points. All 1001 chunks
    together take 1004 tokens, far below the budget of 120000, yet the
    prompt holds the first 1000 chunks only: the single scroll call reads
    one page and the rest of the collection is never looked at. *)
Theorem C9_scan_stops_after_first_page :
  length (stored_points (Scenario.world_with Scenario.thousand_and_one) "pdf") = 1001
  ∧ sum_tokens (Scenario.env (Scenario.file []) Scenario.no_fault)
               Scenario.thousand_and_one = 1004
  ∧ trace (Chatbot.summarize_full_document
             (Scenario.env (Scenario.file []) Scenario.no_fault)
             Scenario.chatbot "gemma3:4b" (120 * 1000)
             (Scenario.world_with Scenario.thousand_and_one)).2
    = [EvGenerate "gemma3:4b"
         (Chatbot.summarize_prompt (concat_chunks (replicate 1000 "c")));
       EvStorage (ReqScroll "pdf" 1000 true)]
  ∧ String.length (concat_chunks (replicate 1000 "c"))
    < String.length (concat_chunks Scenario.thousand_and_one).
Proof.
  split; [vm_compute; reflexivity|].
  split; [vm_compute; reflexivity|].
  split; [vm_compute; reflexivity|].
  vm_compute. lia.
Qed.

(** ** The storage engine's ranking *)

Lemma insert_desc_perm (x : Q * PointStruct) (l : list (Q * PointStruct)) :
  Qdrant.insert_desc x l ≡ₚ x :: l.
Proof.
  induction l as [|y l IH]; cbn [Qdrant.insert_desc]; [reflexivity|].
  destruct (Qle_bool y.1 x.1); [reflexivity|].
  rewrite IH. apply Permutation_swap.
Qed.

Lemma sort_desc_perm (l : list (Q * PointStruct)) : Qdrant.sort_desc l ≡ₚ l.
Proof.
  induction l as [|x l IH]; [reflexivity|].
  cbn [Qdrant.sort_desc foldr]. fold (Qdrant.sort_desc l).
  rewrite insert_desc_perm, IH. reflexivity.
Qed.

Lemma insert_desc_sorted (x : Q * PointStruct) (l : list (Q * PointStruct)) :
  StronglySorted by_score_desc l →
  StronglySorted by_score_desc (Qdrant.insert_desc x l).
Proof.
  induction 1 as [|y l Hl IH Hy]; cbn [Qdrant.insert_desc].
  - repeat constructor.
  - destruct (Qle_bool y.1 x.1) eqn:Hle.
    + apply Qle_bool_iff in Hle.
      constructor; [constructor; assumption|].
      constructor; [exact Hle|].
      eapply Forall_impl; [exact Hy|]. intros z Hz.
      unfold by_score_desc in *. eapply Qle_trans; eassumption.
    + constructor; [exact IH|].
      rewrite insert_desc_perm. constructor; [|exact Hy].
      unfold by_score_desc. apply Qlt_le_weak, Qnot_le_lt.
      intros Hc. apply Qle_bool_iff in Hc. congruence.
Qed.

Lemma sort_desc_sorted (l : list (Q * PointStruct)) :
  StronglySorted by_score_desc (Qdrant.sort_desc l).
Proof.
  induction l as [|x l IH]; [constructor|].
  cbn [Qdrant.sort_desc foldr]. apply insert_desc_sorted, IH.
Qed.

Lemma StronglySorted_take {A} (R : A → A → Prop) (n : nat) (l : list A) :
  StronglySorted R l → StronglySorted R (take n l).
Proof.
  intros H. revert n. induction H as [|x l Hl IH Hx]; intros [|n]; cbn;
    try constructor.
  - apply IH.
  - eapply Forall_forall. intros y Hy.
    apply (proj1 (Forall_forall _ _) Hx). eapply subseteq_take, Hy.
Qed.

Lemma StronglySorted_fmap {A B} (R : A → A → Prop) (S : B → B → Prop)
    (f : A → B) (l : list A) :
  (∀ x y, R x y → S (f x) (f y)) →
  StronglySorted R l → StronglySorted S (f <$> l).
Proof.
  intros Hf. induction 1 as [|x l Hl IH Hx]; cbn; constructor; [exact IH|].
  apply Forall_fmap. eapply Forall_impl; [exact Hx|]. intros y. apply Hf.
Qed.

(** A search returns at most [limit] candidates, best first, each with
    its score in the searched space. *)
Lemma search_length (E : Env) (s : Schema) (space : string)
    (q : models.QueryVector) (limit : nat) (candidates : list PointStruct) :
  length (Qdrant.search E s space q limit candidates) ≤ limit.
Proof. unfold Qdrant.search. rewrite length_take. lia. Qed.

Lemma search_sorted (E : Env) (s : Schema) (space : string)
    (q : models.QueryVector) (limit : nat) (candidates : list PointStruct) :
  StronglySorted by_score_desc (Qdrant.search E s space q limit candidates).
Proof. apply StronglySorted_take, sort_desc_sorted. Qed.

Lemma search_elem (E : Env) (s : Schema) (space : string)
    (q : models.QueryVector) (limit : nat) (candidates : list PointStruct)
    (x : Q * PointStruct) :
  x ∈ Qdrant.search E s space q limit candidates →
  x.2 ∈ candidates ∧ Qdrant.score_point E s space q x.2 = Some x.1.
Proof.
  unfold Qdrant.search. intros Hx. apply subseteq_take in Hx.
  rewrite sort_desc_perm in Hx. apply list_elem_of_omap in Hx.
  destruct Hx as (p & Hp & Hsc). unfold Qdrant.scored in Hsc.
  destruct (Qdrant.score_point E s space q p) as [sc|] eqn:Hs; [|discriminate].
  cbn in Hsc. injection Hsc as <-. cbn. split; assumption.
Qed.

(** *** Deduplication of the candidate pool *)

Lemma dedup_by_id_elem (seen : list nat) (l : list PointStruct) (p : PointStruct) :
  p ∈ Qdrant.dedup_by_id seen l → p ∈ l ∧ point_id p ∉ seen.
Proof.
  revert seen. induction l as [|x l IH]; intros seen; cbn [Qdrant.dedup_by_id].
  - intros H. inversion H.
  - case_bool_decide as Hseen.
    + intros H. apply IH in H as [? ?]. split; [by apply list_elem_of_further|done].
    + intros H. apply elem_of_cons in H as [->|H].
      * split; [apply list_elem_of_here|exact Hseen].
      * apply IH in H as [? Hn]. split; [by apply list_elem_of_further|].
        intros Hin. apply Hn. by apply list_elem_of_further.
Qed.

Lemma dedup_by_id_NoDup (seen : list nat) (l : list PointStruct) :
  NoDup (point_id <$> Qdrant.dedup_by_id seen l).
Proof.
  revert seen. induction l as [|x l IH]; intros seen; cbn [Qdrant.dedup_by_id].
  - constructor.
  - case_bool_decide as Hseen; [apply IH|].
    cbn. constructor; [|apply IH].
    intros Hin. apply list_elem_of_fmap in Hin as (p & Hid & Hp).
    apply dedup_by_id_elem in Hp as [_ Hn]. apply Hn. rewrite <- Hid.
    apply list_elem_of_here.
Qed.

Lemma dedup_by_id_complete (seen : list nat) (l : list PointStruct) (p : PointStruct) :
  p ∈ l → point_id p ∉ seen →
  point_id p ∈ (point_id <$> Qdrant.dedup_by_id seen l).
Proof.
  revert seen. induction l as [|x l IH]; intros seen Hp Hn; [inversion Hp|].
  cbn [Qdrant.dedup_by_id]. apply elem_of_cons in Hp as [->|Hp].
  - rewrite bool_decide_eq_false_2 by exact Hn. cbn. apply list_elem_of_here.
  - case_bool_decide as Hseen; [by apply IH|].
    cbn. destruct (decide (point_id p = point_id x)) as [->|Hne].
    + apply list_elem_of_here.
    + apply list_elem_of_further, IH; [exact Hp|].
      intros Hin. apply elem_of_cons in Hin as [?|?]; done.
Qed.

(** ** Retrieval *)

Lemma query_points_run (E : Env) (r : QueryRequest) (w : World) (c : Collection) :
  collections w !! q_collection_name r = Some c →
  storage_fault E (requests w) = false →
  Qdrant.query_points E r w
  = (Ok (Qdrant.to_scored_point (q_with_payload r) <$> Qdrant.rerank E c r),
     Qdrant.log_request (ReqQueryPoints r) w).
Proof.
  intros Hc Hf. unfold Qdrant.query_points, Qdrant.get_collection, Qdrant.request.
  destruct w as [cs rq uu tr]. unfold_monad. rewrite Hf. cbn. rewrite Hc.
  reflexivity.
Qed.

Lemma query_points_missing (E : Env) (r : QueryRequest) (w : World) :
  collections w !! q_collection_name r = None →
  storage_fault E (requests w) = false →
  Qdrant.query_points E r w
  = (Raise (CollectionNotFound (q_collection_name r)),
     Qdrant.log_request (ReqQueryPoints r) w).
Proof.
  intros Hc Hf. unfold Qdrant.query_points, Qdrant.get_collection, Qdrant.request.
  destruct w as [cs rq uu tr]. unfold_monad. rewrite Hf. cbn. rewrite Hc.
  reflexivity.
Qed.

Lemma query_embed_ok {V} (m : Model) (f : string → option V) (query : string)
    (v : V) (w : World) :
  f query = Some v →
  query_embed m f query w = (Ok v, add_event (EvQueryEmbed m query) w).
Proof. intros H. unfold query_embed. unfold_monad. rewrite H. reflexivity. Qed.

(** With the hybrid prefetch the engine's re-ranking is the two-stage
    fusion. *)
Lemma rerank_hybrid (E : Env) (c : Collection) (r : QueryRequest)
    (d : list float) (s : SparseVector) (l : list (list float)) (n : nat) :
  q_query r = models.QMulti l → q_using r = LATE →
  q_prefetch r = hybrid_prefetch d s n →
  Qdrant.to_scored_point true <$> Qdrant.rerank E c r
  = two_stage E c d s l n (q_limit r).
Proof.
  intros Hq Hu Hp. unfold Qdrant.rerank, two_stage, Qdrant.search.
  rewrite Hq, Hu, Hp. unfold hybrid_prefetch, Qdrant.candidate_pool, fused_pool.
  cbn [fmap list_fmap mjoin list_join]. rewrite app_nil_r. reflexivity.
Qed.

Lemma first_stage_length (E : Env) (c : Collection) (space : string)
    (q : models.QueryVector) (limit : nat) :
  length (first_stage E c space q limit) ≤ limit.
Proof. unfold first_stage. rewrite length_fmap, length_take. lia. Qed.

Lemma first_stage_elem (E : Env) (c : Collection) (space : string)
    (q : models.QueryVector) (limit : nat) (p : PointStruct) :
  p ∈ first_stage E c space q limit → p ∈ points c.
Proof.
  unfold first_stage. intros Hp. apply list_elem_of_fmap in Hp as (x & -> & Hx).
  apply (search_elem E (schema c) space q limit (points c) x Hx).
Qed.

Lemma fused_pool_elem (E : Env) (c : Collection) (d : list float)
    (s : SparseVector) (n : nat) (p : PointStruct) :
  p ∈ fused_pool E c d s n →
  p ∈ first_stage E c DENSE (models.QDense d) n
  ∨ p ∈ first_stage E c SPARSE (models.QSparse s) n.
Proof.
  unfold fused_pool. intros Hp. apply dedup_by_id_elem in Hp as [Hp _].
  apply elem_of_app in Hp. exact Hp.
Qed.

(** The result of the two-stage fusion is bounded, ranked, and made of
    stored points with their late-interaction scores. *)
Lemma two_stage_ranked (E : Env) (c : Collection) (d : list float)
    (s : SparseVector) (l : list (list float)) (n k : nat) :
  ranked_results E c (models.QMulti l) k (two_stage E c d s l n k).
Proof.
  unfold ranked_results, two_stage. split; [|split].
  - rewrite length_fmap, length_take. lia.
  - apply (StronglySorted_fmap by_score_desc); [intros x y H; exact H|].
    apply StronglySorted_take, sort_desc_sorted.
  - apply Forall_fmap, Forall_forall. intros x Hx.
    apply (search_elem E (schema c) LATE (models.QMulti l) k) in Hx as [Hin Hsc].
    exists x.2. split; [|repeat split; assumption].
    apply fused_pool_elem in Hin as [Hin|Hin];
      eapply first_stage_elem; exact Hin.
Qed.

Lemma retrieve_run (E : Env) (self : Retriever.QdrantRetriever) (query : string)
    (limit : nat) (w : World) (c : Collection)
    (d : list float) (s : SparseVector) (l : list (list float)) :
  collections w !! Retriever.collection_name self = Some c →
  dense_query_embed E query = Some d →
  sparse_query_embed E query = Some s →
  late_query_embed E query = Some l →
  storage_fault E (requests w) = false →
  Retriever.retrieve E self query limit w
  = (Ok (models.payload <$> two_stage E c d s l 20 limit),
     Qdrant.log_request (ReqQueryPoints (Retriever.retrieve_request self d s l limit))
                        (after_query_embeds query w)).
Proof.
  intros Hc Hd Hs Hl Hf. unfold Retriever.retrieve.
  rewrite (bind_ok _ _ _ _ _ (query_embed_ok Dense _ query d w Hd)).
  rewrite (bind_ok _ _ _ _ _ (query_embed_ok Bm25 _ query s _ Hs)).
  rewrite (bind_ok _ _ _ _ _ (query_embed_ok Colbert _ query l _ Hl)).
  erewrite bind_ok; [|apply (query_points_run E _ _ c); [exact Hc|exact Hf]].
  rewrite mret_eq.
  rewrite (rerank_hybrid E c _ d s l 20) by reflexivity.
  reflexivity.
Qed.

Lemma _retrieve_context_run (E : Env) (self : Chatbot.RAGChatbot) (w : World)
    (c : Collection) (d : list float) (s : SparseVector) (l : list (list float)) :
  collections w !! Chatbot.collection_name self = Some c →
  storage_fault E (requests w) = false →
  Chatbot._retrieve_context E self d s l w
  = (Ok (Py.join (nl +:+ nl)
           ((λ point, Chatbot.payload_text E (models.payload point))
              <$> two_stage E c d s l 10 5)),
     Qdrant.log_request (ReqQueryPoints (Chatbot.retrieve_request self d s l)) w).
Proof.
  intros Hc Hf. unfold Chatbot._retrieve_context.
  erewrite bind_ok; [|apply (query_points_run E _ _ c); [exact Hc|exact Hf]].
  rewrite mret_eq.
  rewrite (rerank_hybrid E c _ d s l 10) by reflexivity.
  reflexivity.
Qed.

Lemma fused_pool_dedup_union (E : Env) (c : Collection) (d : list float)
    (s : SparseVector) (n : nat) :
  dedup_union_of_two E c d s n.
Proof.
  unfold dedup_union_of_two. cbn zeta.
  split; [apply first_stage_length|]. split; [apply first_stage_length|].
  split; [apply dedup_by_id_NoDup|]. split; [apply fused_pool_elem|].
  intros p Hp. unfold fused_pool. apply dedup_by_id_complete.
  - apply elem_of_app. exact Hp.
  - intros H. inversion H.
Qed.

(** [retrieve] returns only when the three embeddings were computed
    and the storage query went through on an existing collection. *)
Lemma retrieve_inv (E : Env) (self : Retriever.QdrantRetriever) (query : string)
    (limit : nat) (w w' : World) (r : list Payload) :
  Retriever.retrieve E self query limit w = (Ok r, w') →
  ∃ c d s l,
    collections w !! Retriever.collection_name self = Some c
    ∧ dense_query_embed E query = Some d
    ∧ sparse_query_embed E query = Some s
    ∧ late_query_embed E query = Some l
    ∧ storage_fault E (requests w) = false.
Proof.
  unfold Retriever.retrieve, query_embed, Qdrant.query_points,
    Qdrant.get_collection, Qdrant.request.
  destruct w as [cs rq uu tr]. unfold_monad.
  destruct (dense_query_embed E query) as [d|]; [|discriminate].
  destruct (sparse_query_embed E query) as [s|]; [|discriminate].
  destruct (late_query_embed E query) as [l|]; [|discriminate]. cbn.
  destruct (storage_fault E rq); [discriminate|]. cbn.
  destruct (cs !! Retriever.collection_name self) as [c|]; [|discriminate].
  intros _. exists c, d, s, l. repeat split; reflexivity.
Qed.

(** C1. For every query and every limit [k], whatever [retrieve] returns
    is a sequence of at most [k] payloads: the payloads of results that
    are ordered by non-increasing late-interaction score, each the payload
    of a stored point carrying that score. It does return such a sequence
    whenever the collection exists, the three query embeddings are
    computed and the storage query goes through. The chat pipeline's
    [_retrieve_context] joins the texts of such a list for the fixed
    limit 5. *)
Theorem C1_retrieve_bounded_and_ranked
    (E : Env) (self : Retriever.QdrantRetriever) (bot : Chatbot.RAGChatbot)
    (query : string) (k : nat) (w : World) :
  (∀ r w',
     Retriever.retrieve E self query k w = (Ok r, w') →
     length r ≤ k
     ∧ ∃ c l ranked,
         collections w !! Retriever.collection_name self = Some c
         ∧ late_query_embed E query = Some l
         ∧ r = models.payload <$> ranked
         ∧ ranked_results E c (models.QMulti l) k ranked)
  ∧ (∀ c d s l,
       collections w !! Retriever.collection_name self = Some c →
       Chatbot.collection_name bot = Retriever.collection_name self →
       dense_query_embed E query = Some d →
       sparse_query_embed E query = Some s →
       late_query_embed E query = Some l →
       storage_fault E (requests w) = false →
       (∃ ranked w',
          Retriever.retrieve E self query k w = (Ok (models.payload <$> ranked), w')
          ∧ length (models.payload <$> ranked) ≤ k
          ∧ ranked_results E c (models.QMulti l) k ranked)
       ∧ (∃ ranked w',
            Chatbot._retrieve_context E bot d s l w
            = (Ok (Py.join (nl +:+ nl)
                     ((λ point, Chatbot.payload_text E (models.payload point))
                        <$> ranked)),
               w')
            ∧ ranked_results E c (models.QMulti l) 5 ranked)).
Proof.
  split.
  - intros r w' Hr.
    destruct (retrieve_inv E self query k w w' r Hr)
      as (c & d & s & l & Hc & Hd & Hs & Hl & Hf).
    rewrite (retrieve_run E self query k w c d s l Hc Hd Hs Hl Hf) in Hr.
    injection Hr as <- _.
    pose proof (two_stage_ranked E c d s l 20 k) as Hrk.
    split; [rewrite length_fmap; apply Hrk|].
    exists c, l, (two_stage E c d s l 20 k).
    split; [exact Hc|]. split; [exact Hl|]. split; [reflexivity|exact Hrk].
  - intros c d s l Hc Hbot Hd Hs Hl Hf. split.
    + exists (two_stage E c d s l 20 k). eexists.
      split; [apply (retrieve_run E self query k w c d s l); assumption|].
      pose proof (two_stage_ranked E c d s l 20 k) as Hr.
      split; [|exact Hr]. rewrite length_fmap. apply Hr.
    + exists (two_stage E c d s l 10 5). eexists.
      split; [apply (_retrieve_context_run E bot w c d s l); [|exact Hf]|].
      * rewrite Hbot. exact Hc.
      * apply two_stage_ranked.
Qed.

Lemma C1_retrieve_bounded_and_ranked_witness :
  ∃ ranked w',
    Retriever.retrieve (Scenario.env (Scenario.file []) Scenario.no_fault)
                       Scenario.retriever "ab" 2
                       (Scenario.world_with ["ab"; ""; "abc"])
    = (Ok (models.payload <$> ranked), w')
    ∧ length (models.payload <$> ranked) ≤ 2
    ∧ ranked_results (Scenario.env (Scenario.file []) Scenario.no_fault)
                     {| schema := Index.rag_schema;
                        points := imap Scenario.point ["ab"; ""; "abc"] |}
                     (models.QMulti (Scenario.late "ab")) 2 ranked.
Proof.
  apply (proj2 (C1_retrieve_bounded_and_ranked
                  (Scenario.env (Scenario.file []) Scenario.no_fault)
                  Scenario.retriever Scenario.chatbot "ab" 2
                  (Scenario.world_with ["ab"; ""; "abc"]))
               {| schema := Index.rag_schema;
                  points := imap Scenario.point ["ab"; ""; "abc"] |}
               (Scenario.dense "ab") (Scenario.sparse "ab") (Scenario.late "ab"));
    reflexivity.
Defined.

(** The search request is logged whether it succeeds or not. *)
Lemma query_points_cases (E : Env) (r : QueryRequest) (w : World) :
  (∃ res, Qdrant.query_points E r w
          = (Ok res, Qdrant.log_request (ReqQueryPoints r) w))
  ∨ (∃ e, Qdrant.query_points E r w
          = (Raise e, Qdrant.log_request (ReqQueryPoints r) w)).
Proof.
  unfold Qdrant.query_points, Qdrant.get_collection, Qdrant.request.
  destruct w as [cs rq uu tr]. unfold_monad.
  destruct (storage_fault E rq); cbn; [right; eauto|].
  destruct (cs !! q_collection_name r); cbn; [left|right]; eauto.
Qed.

Lemma print_results_trace (E : Env) (results : list models.ScoredPoint) (w : World) :
  trace (forM_ results (λ point,
           print (str_payload E (models.payload point));;
           print "----------------------------------------") w).2
  = reverse (flat_map (λ point, [EvPrint (str_payload E (models.payload point));
                                 EvPrint "----------------------------------------"])
                      results)
    ++ trace w.
Proof.
  revert w. induction results as [|point results IH]; intros w; [reflexivity|].
  cbn [forM_ flat_map].
  rewrite (bind_ok _ _ w
             (add_event (EvPrint "----------------------------------------")
                (add_event (EvPrint (str_payload E (models.payload point))) w)) tt)
    by reflexivity.
  rewrite IH, reverse_app, <- app_assoc. reflexivity.
Qed.

(** C2. Every retrieval issues exactly one search request, and that
    request has exactly two prefetches under an outer late-interaction
    query: the first in the dense space and the second in the sparse
    space, each capped at 20 in the standalone retriever and in
    [search.py] and at 10 in the chat pipeline. This holds for every
    collection name and whether or not the search succeeds. When the
    collection exists and the request goes through, what comes back is
    the deduplicated union of the two candidate lists, re-scored by the
    late-interaction comparator, ordered, and only then truncated to the
    final limit. *)
Theorem C2_two_prefetches_then_rerank
    (E : Env) (self : Retriever.QdrantRetriever) (bot : Chatbot.RAGChatbot)
    (query : string) (k : nat) (w : World)
    (d : list float) (s : SparseVector) (l : list (list float)) :
  dense_query_embed E query = Some d →
  sparse_query_embed E query = Some s →
  late_query_embed E query = Some l →
  (* the standalone retriever *)
  (∃ r,
     hybrid_request r (Retriever.collection_name self) d s l 20 k
     ∧ trace (Retriever.retrieve E self query k w).2
       = EvStorage (ReqQueryPoints r) :: trace (after_query_embeds query w)
     ∧ ∀ c,
         collections w !! Retriever.collection_name self = Some c →
         storage_fault E (requests w) = false →
         (Retriever.retrieve E self query k w).1
         = Ok (models.payload <$> two_stage E c d s l 20 k)
         ∧ dedup_union_of_two E c d s 20)
  (* the chat pipeline *)
  ∧ (∃ r,
       hybrid_request r (Chatbot.collection_name bot) d s l 10 5
       ∧ trace (Chatbot._retrieve_context E bot d s l w).2
         = EvStorage (ReqQueryPoints r) :: trace w
       ∧ ∀ c,
           collections w !! Chatbot.collection_name bot = Some c →
           storage_fault E (requests w) = false →
           (Chatbot._retrieve_context E bot d s l w).1
           = Ok (Py.join (nl +:+ nl)
                   ((λ point, Chatbot.payload_text E (models.payload point))
                      <$> two_stage E c d s l 10 5))
           ∧ dedup_union_of_two E c d s 10)
  (* search.py *)
  ∧ (∃ r,
       hybrid_request r Search.collection_name d s l 20 10
       ∧ (∃ printed,
            trace (Search.search_once E query w).2
            = printed ++ EvStorage (ReqQueryPoints r)
                      :: trace (after_query_embeds query w)
            ∧ Forall is_print printed)
       ∧ ∀ c,
           collections w !! Search.collection_name = Some c →
           storage_fault E (requests w) = false →
           trace (Search.search_once E query w).2
           = reverse (printed_results E (two_stage E c d s l 20 10))
             ++ EvStorage (ReqQueryPoints r) :: trace (after_query_embeds query w)
           ∧ dedup_union_of_two E c d s 20).
Proof.
  intros Hd Hs Hl. split; [|split].
  - exists (Retriever.retrieve_request self d s l k).
    split; [repeat split|]. split.
    + unfold Retriever.retrieve.
      rewrite (bind_ok _ _ _ _ _ (query_embed_ok Dense _ query d w Hd)).
      rewrite (bind_ok _ _ _ _ _ (query_embed_ok Bm25 _ query s _ Hs)).
      rewrite (bind_ok _ _ _ _ _ (query_embed_ok Colbert _ query l _ Hl)).
      destruct (query_points_cases E (Retriever.retrieve_request self d s l k)
                  (after_query_embeds query w)) as [(res & H)|(e & H)].
      * unfold after_query_embeds in H.
        rewrite (bind_ok _ _ _ _ _ H). reflexivity.
      * unfold after_query_embeds in H.
        rewrite (bind_raise _ _ _ _ _ H). reflexivity.
    + intros c Hc Hf.
      rewrite (retrieve_run E self query k w c d s l Hc Hd Hs Hl Hf).
      split; [reflexivity|apply fused_pool_dedup_union].
  - exists (Chatbot.retrieve_request bot d s l).
    split; [repeat split|]. split.
    + unfold Chatbot._retrieve_context.
      destruct (query_points_cases E (Chatbot.retrieve_request bot d s l) w)
        as [(res & H)|(e & H)].
      * rewrite (bind_ok _ _ _ _ _ H). reflexivity.
      * rewrite (bind_raise _ _ _ _ _ H). reflexivity.
    + intros c Hc Hf.
      rewrite (_retrieve_context_run E bot w c d s l Hc Hf).
      split; [reflexivity|apply fused_pool_dedup_union].
  - exists (Search.search_request d s l).
    split; [repeat split|].
    assert (Hstart : ∀ k',
              (query_embed Dense (dense_query_embed E) query ≫= λ dv,
               query_embed Bm25 (sparse_query_embed E) query ≫= λ sv,
               query_embed Colbert (late_query_embed E) query ≫= λ lv,
               k' dv sv lv) w
              = (k' d s l : M unit) (after_query_embeds query w)).
    { intros k'.
      rewrite (bind_ok _ _ _ _ _ (query_embed_ok Dense _ query d w Hd)).
      rewrite (bind_ok _ _ _ _ _ (query_embed_ok Bm25 _ query s _ Hs)).
      rewrite (bind_ok _ _ _ _ _ (query_embed_ok Colbert _ query l _ Hl)).
      reflexivity. }
    unfold Search.search_once. rewrite Hstart. clear Hstart.
    set (w0 := after_query_embeds query w).
    assert (Hok : ∀ results,
              Qdrant.query_points E (Search.search_request d s l) w0
              = (Ok results,
                 Qdrant.log_request (ReqQueryPoints (Search.search_request d s l)) w0) →
              trace ((Qdrant.query_points E (Search.search_request d s l) ≫= λ results,
                      print (nl +:+ "[RESULTS]");;
                      print (Py.str_of_nat (length results));;
                      forM_ results (λ point,
                        print (str_payload E (models.payload point));;
                        print "----------------------------------------")) w0).2
              = reverse (printed_results E results)
                ++ EvStorage (ReqQueryPoints (Search.search_request d s l))
                :: trace w0).
    { intros results H. rewrite (bind_ok _ _ _ _ _ H).
      set (w1 := Qdrant.log_request _ w0).
      rewrite (bind_ok _ _ w1 (add_event (EvPrint (nl +:+ "[RESULTS]")) w1) tt)
        by reflexivity.
      rewrite (bind_ok _ _ _ (add_event (EvPrint (Py.str_of_nat (length results)))
                                (add_event (EvPrint (nl +:+ "[RESULTS]")) w1)) tt)
        by reflexivity.
      rewrite print_results_trace. unfold printed_results.
      rewrite !reverse_cons, <- !app_assoc. reflexivity. }
    split.
    + destruct (query_points_cases E (Search.search_request d s l) w0)
        as [(res & H)|(e & H)].
      * exists (reverse (printed_results E res)).
        split; [exact (Hok res H)|].
        apply Forall_reverse. unfold printed_results.
        repeat (constructor; [eexists; reflexivity|]).
        apply Forall_flat_map, Forall_forall. intros point _.
        repeat (constructor; [eexists; reflexivity|]). constructor.
      * exists []. rewrite (bind_raise _ _ _ _ _ H).
        split; [reflexivity|constructor].
    + intros c Hc Hf.
      assert (Hq : Qdrant.query_points E (Search.search_request d s l) w0
                   = (Ok (two_stage E c d s l 20 10),
                      Qdrant.log_request
                        (ReqQueryPoints (Search.search_request d s l)) w0)).
      { rewrite (query_points_run E (Search.search_request d s l) w0 c Hc Hf).
        rewrite (rerank_hybrid E c _ d s l 20) by reflexivity. reflexivity. }
      split; [exact (Hok _ Hq)|apply fused_pool_dedup_union].
Qed.

Lemma C2_two_prefetches_then_rerank_witness :
  (Retriever.retrieve (Scenario.env (Scenario.file []) Scenario.no_fault)
                      Scenario.retriever "ab" 2
                      (Scenario.world_with ["ab"; ""; "abc"])).1
  = Ok [[("text", "abc")]; [("text", "ab")]]
  ∧ (Chatbot._retrieve_context
       (Scenario.env (Scenario.file []) Scenario.no_fault)
       {| Chatbot.collection_name := "pdf" |}
       (Scenario.dense "ab") (Scenario.sparse "ab") (Scenario.late "ab")
       (Scenario.world_with ["ab"; ""; "abc"])).1
    = Ok (Py.join (nl +:+ nl) ["abc"; "ab"; ""]).
Proof.
  destruct (C2_two_prefetches_then_rerank
              (Scenario.env (Scenario.file []) Scenario.no_fault)
              Scenario.retriever {| Chatbot.collection_name := "pdf" |}
              "ab" 2 (Scenario.world_with ["ab"; ""; "abc"])
              (Scenario.dense "ab") (Scenario.sparse "ab") (Scenario.late "ab")
              eq_refl eq_refl eq_refl)
    as ((r1 & _ & _ & H1) & (r2 & _ & _ & H2) & _).
  destruct (H1 {| schema := Index.rag_schema;
                  points := imap Scenario.point ["ab"; ""; "abc"] |}
               eq_refl eq_refl) as [-> _].
  destruct (H2 {| schema := Index.rag_schema;
                  points := imap Scenario.point ["ab"; ""; "abc"] |}
               eq_refl eq_refl) as [-> _].
  split; vm_compute; reflexivity.
Defined.

(** In a collection with the writer's schema the re-rank score is the
    max-sim of the query's and the point's token vectors under cosine. *)
Lemma score_point_late (E : Env) (p : PointStruct) (l m : list (list float)) :
  point_vector p !! LATE = Some (VMulti m) →
  Qdrant.score_point E Index.rag_schema LATE (models.QMulti l) p
  = Some (Qdrant.max_sim (similarity E models.COSINE) l m).
Proof. intros Hm. unfold Qdrant.score_point. rewrite Hm. reflexivity. Qed.

(** ** Missing collections *)

Lemma retrieve_missing (E : Env) (self : Retriever.QdrantRetriever) (query : string)
    (limit : nat) (w : World)
    (d : list float) (s : SparseVector) (l : list (list float)) :
  collections w !! Retriever.collection_name self = None →
  dense_query_embed E query = Some d →
  sparse_query_embed E query = Some s →
  late_query_embed E query = Some l →
  storage_fault E (requests w) = false →
  Retriever.retrieve E self query limit w
  = (Raise (CollectionNotFound (Retriever.collection_name self)),
     Qdrant.log_request (ReqQueryPoints (Retriever.retrieve_request self d s l limit))
                        (after_query_embeds query w)).
Proof.
  intros Hc Hd Hs Hl Hf. unfold Retriever.retrieve.
  rewrite (bind_ok _ _ _ _ _ (query_embed_ok Dense _ query d w Hd)).
  rewrite (bind_ok _ _ _ _ _ (query_embed_ok Bm25 _ query s _ Hs)).
  rewrite (bind_ok _ _ _ _ _ (query_embed_ok Colbert _ query l _ Hl)).
  erewrite bind_raise; [reflexivity|].
  exact (query_points_missing E (Retriever.retrieve_request self d s l limit)
           (after_query_embeds query w) Hc Hf).
Qed.

Lemma chatbot_init_missing (E : Env) (name : string) (w : World) :
  collections w !! name = None →
  ∃ e,
    Chatbot.__init__ E name w
    = (Raise e, Qdrant.log_request (ReqCollectionExists name)
                                   (add_event EvLoadTokenizer w))
    ∧ (storage_fault E (requests w) = false →
       e = PyException ("Collection '" +:+ name
                        +:+ "' does not exist. Please create it first.")).
Proof.
  intros Hc. unfold Chatbot.__init__, Qdrant.collection_exists, Qdrant.request.
  destruct w as [cs rq uu tr]. unfold_monad.
  destruct (storage_fault E rq); cbn.
  - eexists. split; [reflexivity|discriminate].
  - rewrite Hc. cbn. eexists. split; reflexivity.
Qed.

Lemma retriever_init_missing (E : Env) (path name : string) (w : World) :
  collections w !! name = None →
  storage_fault E (requests w) = false →
  ∃ w',
    Retriever.__init__ E path name w
    = (Ok {| Retriever.persistence_path := path;
             Retriever.collection_name := name |}, w')
    ∧ head (trace w')
      = Some (EvPrint ("[INFO] Collection '" +:+ name
                       +:+ "' does not exist. Please create it first."))
    ∧ collections w' = collections w
    ∧ requests w' = S (requests w).
Proof.
  intros Hc Hf.
  unfold Retriever.__init__, Retriever._check_collection,
    Qdrant.collection_exists, Qdrant.request.
  destruct w as [cs rq uu tr]. unfold_monad.
  rewrite Hf. cbn. rewrite Hc. cbn.
  eexists. repeat split; reflexivity.
Qed.

(** C3 (amended). In the chat pipeline a message against a collection
    that does not exist fails in the constructor of the chatbot, right
    after the existence check: no embedding model has been loaded and no
    query embedding computed. The standalone retriever only logs the
    missing collection when it is constructed; its [retrieve] computes the
    three query embeddings and then fails in the storage query with the
    engine's not-found error. *)
Theorem C3_missing_collection
    (E : Env) (name user_text intent : string) (w : World) :
  collections w !! name = None →
  (∃ e w',
     ChatRoutes.bot_response E name user_text intent w = (Raise e, w')
     ∧ Chatbot.__init__ E name w = (Raise e, w')
     ∧ trace w' = EvStorage (ReqCollectionExists name) :: EvLoadTokenizer :: trace w
     ∧ (storage_fault E (requests w) = false →
        e = PyException ("Collection '" +:+ name
                         +:+ "' does not exist. Please create it first.")))
  ∧ (∀ path, storage_fault E (requests w) = false →
       ∃ w',
         Retriever.__init__ E path name w
         = (Ok {| Retriever.persistence_path := path;
                  Retriever.collection_name := name |}, w')
         ∧ head (trace w')
           = Some (EvPrint ("[INFO] Collection '" +:+ name
                            +:+ "' does not exist. Please create it first.")))
  ∧ (∀ self query k d s l,
       Retriever.collection_name self = name →
       dense_query_embed E query = Some d →
       sparse_query_embed E query = Some s →
       late_query_embed E query = Some l →
       storage_fault E (requests w) = false →
       Retriever.retrieve E self query k w
       = (Raise (CollectionNotFound name),
          Qdrant.log_request
            (ReqQueryPoints (Retriever.retrieve_request self d s l k))
            (after_query_embeds query w))).
Proof.
  intros Hc. split; [|split].
  - destruct (chatbot_init_missing E name w Hc) as (e & Hinit & He).
    exists e. eexists. split; [|split; [exact Hinit|split; [reflexivity|exact He]]].
    unfold ChatRoutes.bot_response. apply bind_raise. exact Hinit.
  - intros path Hf.
    destruct (retriever_init_missing E path name w Hc Hf) as (w' & H1 & H2 & _).
    exists w'. split; assumption.
  - intros self query k d s l <- Hd Hs Hl Hf.
    apply retrieve_missing; assumption.
Qed.

Lemma C3_missing_collection_witness :
  ∃ e w',
    ChatRoutes.bot_response (Scenario.env (Scenario.file []) Scenario.no_fault)
                            "pdf" "ab" "Q&A" Scenario.empty_world
    = (Raise e, w')
    ∧ trace w' = [EvStorage (ReqCollectionExists "pdf"); EvLoadTokenizer].
Proof.
  destruct (C3_missing_collection
              (Scenario.env (Scenario.file []) Scenario.no_fault)
              "pdf" "ab" "Q&A" Scenario.empty_world)
    as ((e & w' & H1 & _ & H2 & _) & _).
  - reflexivity.
  - exists e, w'. split; assumption.
Defined.

(** C3 as stated fails for the standalone retriever: against a store
    without the collection it is constructed without error, computes the
    dense, sparse and late-interaction query embeddings, and only then
    fails in the storage query. *)
Lemma C3_counterexample :
  (Retriever.__init__ (Scenario.env (Scenario.file []) Scenario.no_fault) "Qdrant" "pdf"
   ≫= λ self, Retriever.retrieve (Scenario.env (Scenario.file []) Scenario.no_fault)
                                 self "ab" 10) Scenario.empty_world
  = (Raise (CollectionNotFound "pdf"),
     {| collections := ∅; requests := 2; next_uuid := 0;
        trace :=
          [EvStorage (ReqQueryPoints
             (Retriever.retrieve_request Scenario.retriever (Scenario.dense "ab")
                (Scenario.sparse "ab") (Scenario.late "ab") 10));
           EvQueryEmbed Colbert "ab"; EvQueryEmbed Bm25 "ab"; EvQueryEmbed Dense "ab";
           EvPrint "[INFO] Collection 'pdf' does not exist. Please create it first.";
           EvStorage (ReqCollectionExists "pdf");
           EvLoadModel Colbert; EvLoadModel Bm25; EvLoadModel Dense] |}).
Proof. vm_compute. reflexivity. Qed.

(** ** The upload loop *)

Lemma upsert_point_fresh (pts : list PointStruct) (p : PointStruct) :
  Forall (λ p', point_id p' < point_id p) pts →
  Qdrant.upsert_point pts p = pts ++ [p].
Proof.
  intros H. unfold Qdrant.upsert_point.
  replace (existsb _ pts) with false; [reflexivity|].
  symmetry. apply not_true_is_false. intros Hex.
  apply existsb_exists in Hex as (p' & Hin & Heq).
  apply Nat.eqb_eq in Heq. apply list_elem_of_In in Hin.
  apply (proj1 (Forall_forall _ _) H) in Hin. lia.
Qed.

(** A batch of points with consecutive ids above every stored id is
    appended to the collection, in order. *)
Lemma foldl_upsert_fresh (batch pts : list PointStruct) (u : nat) :
  Forall (λ p, point_id p < u) pts →
  point_id <$> batch = seq u (length batch) →
  foldl Qdrant.upsert_point pts batch = pts ++ batch.
Proof.
  revert pts u. induction batch as [|p batch IH]; intros pts u Hpts Hids.
  - cbn. rewrite app_nil_r. reflexivity.
  - cbn in Hids. injection Hids as Hp Hrest. cbn [foldl].
    rewrite upsert_point_fresh by (rewrite Hp; exact Hpts).
    rewrite (IH _ (S u)); [rewrite <- app_assoc; reflexivity| |exact Hrest].
    apply Forall_app. split.
    + eapply Forall_impl; [exact Hpts|]. cbn. lia.
    + constructor; [lia|constructor].
Qed.

Lemma upsert_run (E : Env) (name : string) (batch : list PointStruct) (w : World)
    (c : Collection) :
  collections w !! name = Some c →
  storage_fault E (requests w) = false →
  ∃ w',
    Qdrant.upsert E name batch w = (Ok tt, w')
    ∧ collections w'
      = <[name := {| schema := schema c;
                     points := foldl Qdrant.upsert_point (points c) batch |}]>
          (collections w)
    ∧ requests w' = S (requests w)
    ∧ next_uuid w' = next_uuid w.
Proof.
  intros Hc Hf. unfold Qdrant.upsert, Qdrant.get_collection, Qdrant.put_collection,
    Qdrant.request.
  destruct w as [cs rq uu tr]. unfold_monad. rewrite Hf. cbn. rewrite Hc. cbn.
  eexists. repeat split; reflexivity.
Qed.

Lemma upsert_fail (E : Env) (name : string) (batch : list PointStruct) (w : World) :
  storage_fault E (requests w) = true →
  ∃ w',
    Qdrant.upsert E name batch w = (Raise (StorageFailure (requests w)), w')
    ∧ collections w' = collections w.
Proof.
  intros Hf. unfold Qdrant.upsert, Qdrant.request.
  destruct w as [cs rq uu tr]. unfold_monad. rewrite Hf. cbn.
  eexists. split; reflexivity.
Qed.

Lemma build_point_ok (self : Index.QdrantRAGUploader) (j : nat) (w : World)
    (p : PointStruct) :
  point_for self (next_uuid w) j = Some p →
  Index.build_point self j w = (Ok p, take_uuid w).
Proof.
  unfold point_for, Index.build_point, uuid4. intros H. unfold_monad.
  destruct (Index.chunks self !! j) as [chunk|]; [|discriminate]. cbn in *.
  destruct (Py.get chunk "content") as [content|]; [|discriminate]. cbn in *.
  destruct (Index.dense_vecs self !! j) as [d|]; [|discriminate]. cbn in *.
  destruct (Index.sparse_vecs self !! j) as [s|]; [|discriminate]. cbn in *.
  destruct (Index.colbert_vecs self !! j) as [c|]; [|discriminate]. cbn in *.
  injection H as <-. reflexivity.
Qed.

Lemma point_for_id (self : Index.QdrantRAGUploader) (uid j : nat) (p : PointStruct) :
  point_for self uid j = Some p → point_id p = uid.
Proof.
  unfold point_for. intros H.
  destruct (Index.chunks self !! j) as [chunk|]; [|discriminate]. cbn in *.
  destruct (Py.get chunk "content") as [content|]; [|discriminate]. cbn in *.
  destruct (Index.dense_vecs self !! j) as [d|]; [|discriminate]. cbn in *.
  destruct (Index.sparse_vecs self !! j) as [s|]; [|discriminate]. cbn in *.
  destruct (Index.colbert_vecs self !! j) as [c|]; [|discriminate]. cbn in *.
  injection H as <-. reflexivity.
Qed.

(** Once loaded and embedded, every chunk yields a point, and it is the
    expected one. *)
Lemma embedded_point_for (E : Env) (self : Index.QdrantRAGUploader) (uid j : nat) :
  embedded_with E self →
  j < length (Index.chunks self) →
  ∃ content p,
    Index.texts self !! j = Some content
    ∧ expected_point E uid content = Some p
    ∧ point_for self uid j = Some p.
Proof.
  intros (Hget & Hd & Hs & Hc) Hj.
  destruct (lookup_lt_is_Some_2 _ _ Hj) as [chunk Hchunk].
  destruct (Forall2_lookup_l _ _ _ _ _ Hget Hchunk) as (content & Htext & Hcontent).
  destruct (Forall2_lookup_l _ _ _ _ _ Hd Htext) as (d & Hdv & Hde).
  destruct (Forall2_lookup_l _ _ _ _ _ Hs Htext) as (s & Hsv & Hse).
  destruct (Forall2_lookup_l _ _ _ _ _ Hc Htext) as (c & Hcv & Hce).
  exists content. eexists. split; [exact Htext|].
  unfold expected_point, point_for.
  rewrite Hde, Hse, Hce, Hchunk. cbn. rewrite Hcontent. cbn.
  rewrite Hdv, Hsv, Hcv. cbn. split; reflexivity.
Qed.

Lemma built_from_S (self : Index.QdrantRAGUploader) (u0 i len : nat) :
  built_from self u0 i (S len)
  = match point_for self (u0 + i) i with
    | Some p => p :: built_from self u0 (S i) len
    | None => built_from self u0 (S i) len
    end.
Proof. reflexivity. Qed.

Lemma built_from_app (self : Index.QdrantRAGUploader) (u0 i a b : nat) :
  built_from self u0 i (a + b) = built_from self u0 i a ++ built_from self u0 (i + a) b.
Proof. unfold built_from. rewrite seq_app, omap_app. reflexivity. Qed.

Lemma built_from_bound (self : Index.QdrantRAGUploader) (u0 i len : nat) :
  Forall (λ p, point_id p < u0 + i + len) (built_from self u0 i len).
Proof.
  apply Forall_forall. intros p Hp. unfold built_from in Hp.
  apply list_elem_of_omap in Hp as (j & Hj & Hp).
  apply point_for_id in Hp. apply elem_of_seq in Hj. lia.
Qed.

Lemma built_from_ids (E : Env) (self : Index.QdrantRAGUploader) (u0 i len : nat) :
  embedded_with E self →
  i + len ≤ length (Index.chunks self) →
  point_id <$> built_from self u0 i len = seq (u0 + i) len.
Proof.
  intros Hemb. revert i. induction len as [|len IH]; intros i Hle; [reflexivity|].
  destruct (embedded_point_for E self (u0 + i) i Hemb) as (content & p & _ & _ & Hp);
    [lia|].
  rewrite built_from_S, Hp. cbn [fmap list_fmap seq].
  rewrite (point_for_id _ _ _ _ Hp). f_equal.
  rewrite IH by lia. f_equal. lia.
Qed.

Lemma built_from_length (E : Env) (self : Index.QdrantRAGUploader) (u0 i len : nat) :
  embedded_with E self →
  i + len ≤ length (Index.chunks self) →
  length (built_from self u0 i len) = len.
Proof.
  intros Hemb Hle.
  rewrite <- (length_fmap point_id), (built_from_ids E) by assumption.
  apply length_seq.
Qed.

Lemma built_from_lookup (E : Env) (self : Index.QdrantRAGUploader) (u0 len j : nat) :
  embedded_with E self →
  len ≤ length (Index.chunks self) →
  j < len →
  built_from self u0 0 len !! j = point_for self (u0 + j) j.
Proof.
  intros Hemb Hle Hj.
  replace len with (j + (1 + (len - j - 1))) by lia.
  rewrite built_from_app, lookup_app_r
    by (rewrite (built_from_length E) by (assumption || lia); lia).
  rewrite (built_from_length E) by (assumption || lia).
  rewrite Nat.sub_diag, built_from_app. cbn [Nat.add].
  destruct (embedded_point_for E self (u0 + j) j Hemb) as (content & p & _ & _ & Hp);
    [lia|].
  rewrite built_from_S, Hp. reflexivity.
Qed.

(** The inner loop of a batch builds the points of its chunks and uses
    one fresh id for each. *)
Lemma mapM_build_points (E : Env) (self : Index.QdrantRAGUploader) (u0 len : nat) :
  embedded_with E self →
  ∀ i w,
    i + len ≤ length (Index.chunks self) →
    next_uuid w = u0 + i →
    ∃ w',
      mapM (Index.build_point self) (seq i len) w
      = (Ok (built_from self u0 i len), w')
      ∧ collections w' = collections w
      ∧ requests w' = requests w
      ∧ next_uuid w' = u0 + i + len.
Proof.
  intros Hemb. induction len as [|len IH]; intros i w Hle Hu.
  - exists w. cbn. repeat split; [lia].
  - destruct (embedded_point_for E self (u0 + i) i Hemb) as (content & p & _ & _ & Hp);
      [lia|].
    destruct (IH (S i) (take_uuid w)) as (w' & Hrun & Hc & Hr & Hn);
      [lia|cbn; lia|].
    exists w'. cbn [seq mapM].
    rewrite (bind_ok _ _ _ _ _ (build_point_ok self i w p ltac:(rewrite Hu; exact Hp))).
    rewrite (bind_ok _ _ _ _ _ Hrun), mret_eq.
    rewrite built_from_S, Hp.
    split; [reflexivity|]. split; [exact Hc|]. split; [exact Hr|lia].
Qed.

(** One batch that goes through: the loop state advances by one batch. *)
Lemma insert_batch_ok (E : Env) (self : Index.QdrantRAGUploader) (sch : Schema)
    (u0 r0 k : nat) (w : World) :
  embedded_with E self →
  after_batches self sch u0 r0 k w →
  k * 10 < length (Index.chunks self) →
  storage_fault E (r0 + k) = false →
  ∃ w',
    Index.insert_batch E self 10 (0 + k * 10) w = (Ok tt, w')
    ∧ after_batches self sch u0 r0 (S k) w'.
Proof.
  intros Hemb (Hc & Hu & Hr) Hk Hf.
  set (n := length (Index.chunks self)) in *.
  rewrite Nat.min_l in Hc, Hu by lia.
  set (len := Nat.min (k * 10 + 10) n - k * 10).
  destruct (mapM_build_points E self u0 len Hemb (k * 10) w) as (w1 & Hrun & Hc1 & Hr1 & Hu1);
    [unfold len; fold n; lia|exact Hu|].
  destruct (upsert_run E (Index.collection_name self)
              (built_from self u0 (k * 10) len) w1 _
              ltac:(rewrite Hc1; exact Hc) ltac:(rewrite Hr1, Hr; exact Hf))
    as (w2 & Hup & Hc2 & Hr2 & Hu2).
  exists w2. split.
  - unfold Index.insert_batch. cbn [Nat.add]. fold n. fold len.
    rewrite (bind_ok _ _ _ _ _ Hrun). exact Hup.
  - unfold after_batches. fold n.
    replace (Nat.min (S k * 10) n) with (k * 10 + len) by (unfold len; lia).
    split; [|lia].
    rewrite Hc2, lookup_insert_eq. cbn [schema points]. do 2 f_equal.
    rewrite built_from_app. cbn [Nat.add].
    apply (foldl_upsert_fresh _ _ (u0 + k * 10)).
    + pose proof (built_from_bound self u0 0 (k * 10)) as Hb.
      rewrite Nat.add_0_r in Hb. exact Hb.
    + rewrite (built_from_length E), (built_from_ids E)
        by (assumption || (unfold len; fold n; lia)).
      reflexivity.
Qed.

(** One batch whose upsert fails: the exception leaves, the store stays. *)
Lemma insert_batch_fail (E : Env) (self : Index.QdrantRAGUploader) (sch : Schema)
    (u0 r0 k : nat) (w : World) :
  embedded_with E self →
  after_batches self sch u0 r0 k w →
  k * 10 < length (Index.chunks self) →
  storage_fault E (r0 + k) = true →
  ∃ w',
    Index.insert_batch E self 10 (0 + k * 10) w = (Raise (StorageFailure (r0 + k)), w')
    ∧ collections w' = collections w.
Proof.
  intros Hemb (Hc & Hu & Hr) Hk Hf.
  set (n := length (Index.chunks self)) in *.
  rewrite Nat.min_l in Hu by lia.
  set (len := Nat.min (k * 10 + 10) n - k * 10).
  destruct (mapM_build_points E self u0 len Hemb (k * 10) w) as (w1 & Hrun & Hc1 & Hr1 & Hu1);
    [unfold len; fold n; lia|exact Hu|].
  destruct (upsert_fail E (Index.collection_name self)
              (built_from self u0 (k * 10) len) w1
              ltac:(rewrite Hr1, Hr; exact Hf))
    as (w2 & Hup & Hc2).
  exists w2. split; [|congruence].
  unfold Index.insert_batch. cbn [Nat.add]. fold n. fold len.
  rewrite (bind_ok _ _ _ _ _ Hrun), Hup, Hr1, Hr. reflexivity.
Qed.

(** The batches from [k] on, all going through. *)
Lemma insert_batches_ok (E : Env) (self : Index.QdrantRAGUploader) (sch : Schema)
    (u0 r0 m : nat) :
  embedded_with E self →
  ∀ k w,
    after_batches self sch u0 r0 k w →
    (m = 0 ∨ (k + m - 1) * 10 < length (Index.chunks self)) →
    fault_free E (r0 + k) (r0 + k + m) →
    ∃ w',
      forM_ ((λ k, 0 + k * 10) <$> seq k m) (Index.insert_batch E self 10) w
      = (Ok tt, w')
      ∧ after_batches self sch u0 r0 (k + m) w'.
Proof.
  intros Hemb. induction m as [|m IH]; intros k w Hst Hm Hff.
  - exists w. rewrite Nat.add_0_r. split; [reflexivity|exact Hst].
  - destruct (insert_batch_ok E self sch u0 r0 k w Hemb Hst) as (w1 & Hrun & Hst1);
      [lia|apply Hff; lia|].
    destruct (IH (S k) w1 Hst1) as (w2 & Hrest & Hst2);
      [lia|intros j Hj; apply Hff; lia|].
    exists w2. cbn [seq fmap list_fmap forM_].
    rewrite (bind_ok _ _ _ _ _ Hrun). split; [exact Hrest|].
    replace (k + S m) with (S k + m) by lia. exact Hst2.
Qed.

(** The batches from [k] on, batch [b] being the first to fail. *)
Lemma insert_batches_fail (E : Env) (self : Index.QdrantRAGUploader) (sch : Schema)
    (u0 r0 b m : nat) :
  embedded_with E self →
  ∀ k w,
    after_batches self sch u0 r0 k w →
    k ≤ b → b < k + m →
    b * 10 < length (Index.chunks self) →
    fault_free E (r0 + k) (r0 + b) →
    storage_fault E (r0 + b) = true →
    ∃ w',
      forM_ ((λ k, 0 + k * 10) <$> seq k m) (Index.insert_batch E self 10) w
      = (Raise (StorageFailure (r0 + b)), w')
      ∧ collections w' !! Index.collection_name self
        = Some {| schema := sch; points := built_from self u0 0 (b * 10) |}.
Proof.
  intros Hemb. induction m as [|m IH]; intros k w Hst Hkb Hbm Hb Hff Hf; [lia|].
  cbn [seq fmap list_fmap forM_].
  destruct (decide (k = b)) as [->|Hne].
  - destruct (insert_batch_fail E self sch u0 r0 b w Hemb Hst Hb Hf)
      as (w1 & Hrun & Hc1).
    exists w1. rewrite (bind_raise _ _ _ _ _ Hrun). split; [reflexivity|].
    destruct Hst as (Hc & _). rewrite Hc1, Hc, Nat.min_l by lia. reflexivity.
  - destruct (insert_batch_ok E self sch u0 r0 k w Hemb Hst) as (w1 & Hrun & Hst1);
      [lia|apply Hff; lia|].
    destruct (IH (S k) w1 Hst1) as (w2 & Hrest & Hc2);
      [lia|lia|exact Hb|intros j Hj; apply Hff; lia|exact Hf|].
    exists w2. rewrite (bind_ok _ _ _ _ _ Hrun). split; assumption.
Qed.

(** ** The stages of the run *)

Lemma indexable_lists (E : Env) (cs : list Py.dict) :
  indexable E cs →
  ∃ ts ds ss ls,
    Forall2 (λ chunk text, Py.get chunk "content" = Some text) cs ts
    ∧ Forall2 (λ text v, dense_embed E text = Some v) ts ds
    ∧ Forall2 (λ text v, sparse_embed E text = Some v) ts ss
    ∧ Forall2 (λ text v, late_embed E text = Some v) ts ls.
Proof.
  induction 1 as [|chunk cs (t & Ht & [d Hd] & [s Hs] & [l Hl]) _
                   (ts & ds & ss & ls & H1 & H2 & H3 & H4)].
  - exists [], [], [], []. repeat split; constructor.
  - exists (t :: ts), (d :: ds), (s :: ss), (l :: ls).
    repeat split; constructor; assumption.
Qed.

Lemma load_chunks_run (E : Env) (self : Index.QdrantRAGUploader) (w : World)
    (cs : list Py.dict) (ts : list string) :
  read_chunks E (Index.file_path self) = Some cs →
  Forall2 (λ chunk text, Py.get chunk "content" = Some text) cs ts →
  ∃ self1 w1,
    Index.load_chunks E self w = (Ok self1, w1)
    ∧ Index.chunks self1 = cs ∧ Index.texts self1 = ts
    ∧ Index.collection_name self1 = Index.collection_name self
    ∧ collections w1 = collections w
    ∧ requests w1 = requests w
    ∧ next_uuid w1 = next_uuid w.
Proof.
  intros Hread Hget. unfold Index.load_chunks. rewrite Hread.
  rewrite (bind_ok _ _ w w cs) by reflexivity.
  rewrite (bind_ok _ _ _ _ _ (mapM_from_option_ok _ _ cs ts w Hget)).
  eexists _, _. split; [reflexivity|]. repeat split; reflexivity.
Qed.

Lemma embed_all_ok {V} (m : Model) (f : string → option V) (docs : list string)
    (vs : list V) (w : World) :
  Forall2 (λ doc v, f doc = Some v) docs vs →
  Index.embed_all m f docs w = (Ok vs, add_event (EvEmbed m docs) w).
Proof.
  intros H. unfold Index.embed_all.
  rewrite (bind_ok _ _ w (add_event (EvEmbed m docs) w) tt) by reflexivity.
  apply mapM_from_option_ok. exact H.
Qed.

Lemma embed_texts_run (E : Env) (self : Index.QdrantRAGUploader) (w : World)
    (ds : list (list float)) (ss : list SparseVector) (ls : list (list (list float))) :
  Forall2 (λ chunk text, Py.get chunk "content" = Some text)
          (Index.chunks self) (Index.texts self) →
  Forall2 (λ text v, dense_embed E text = Some v) (Index.texts self) ds →
  Forall2 (λ text v, sparse_embed E text = Some v) (Index.texts self) ss →
  Forall2 (λ text v, late_embed E text = Some v) (Index.texts self) ls →
  ∃ self2 w2,
    Index.embed_texts E self w = (Ok self2, w2)
    ∧ embedded_with E self2
    ∧ Index.chunks self2 = Index.chunks self
    ∧ Index.collection_name self2 = Index.collection_name self
    ∧ collections w2 = collections w
    ∧ requests w2 = requests w
    ∧ next_uuid w2 = next_uuid w.
Proof.
  intros Hget Hd Hs Hl. unfold Index.embed_texts.
  rewrite (bind_ok _ _ w (add_event (EvPrint "[INFO] Generating embeddings...") w) tt)
    by reflexivity.
  rewrite (bind_ok _ _ _ _ _ (embed_all_ok Dense _ _ ds _ Hd)).
  rewrite (bind_ok _ _ _ _ _ (embed_all_ok Bm25 _ _ ss _ Hs)).
  rewrite (bind_ok _ _ _ _ _ (embed_all_ok Colbert _ _ ls _ Hl)).
  eexists _, _. split; [reflexivity|].
  split; [repeat split; assumption|]. repeat split; reflexivity.
Qed.

(** The number of batches of ten over [n] chunks. *)
Lemma range_batches (n : nat) :
  Py.range 0 n 10 = (λ k, 0 + k * 10) <$> seq 0 ((n + 9) / 10).
Proof.
  unfold Py.range. replace (n - 0 + 10 - 1) with (n + 9) by lia. reflexivity.
Qed.

Lemma batches_cover (n k : nat) : k < (n + 9) / 10 ↔ k * 10 < n.
Proof.
  pose proof (Nat.div_mod_eq (n + 9) 10) as Hdm.
  pose proof (Nat.mod_upper_bound (n + 9) 10 ltac:(lia)). lia.
Qed.

(** The upload of a loaded and embedded uploader into a fresh collection,
    no upsert failing: every chunk ends up stored. *)
Lemma insert_into_qdrant_ok (E : Env) (self : Index.QdrantRAGUploader) (sch : Schema)
    (w : World) :
  embedded_with E self →
  collections w !! Index.collection_name self = Some {| schema := sch; points := [] |} →
  fault_free E (requests w) (requests w + (length (Index.chunks self) + 9) / 10) →
  ∃ w',
    Index.insert_into_qdrant E self 10 w = (Ok tt, w')
    ∧ collections w' !! Index.collection_name self
      = Some {| schema := sch;
                points := built_from self (next_uuid w) 0 (length (Index.chunks self)) |}.
Proof.
  intros Hemb Hc Hff. unfold Index.insert_into_qdrant.
  rewrite range_batches.
  pose proof (batches_cover (length (Index.chunks self))) as Hcov.
  remember (length (Index.chunks self)) as n eqn:Hn.
  remember ((n + 9) / 10) as nb eqn:Hnb.
  erewrite (bind_ok _ _ w _ tt) by reflexivity.
  match goal with |- context [add_event ?e w] => set (w0 := add_event e w) end.
  rewrite (bind_ok _ _ w0 w0 tt) by reflexivity.
  destruct (insert_batches_ok E self sch (next_uuid w) (requests w) nb
              Hemb 0 w0) as (w1 & Hrun & Hst & _ & _).
  { unfold after_batches. cbn. rewrite Hc. split; [reflexivity|split; lia]. }
  { destruct (decide (nb = 0)) as [?|Hne]; [left; assumption|right].
    rewrite <- Hn. apply Hcov. lia. }
  { intros j Hj. apply Hff. cbn in Hj. lia. }
  rewrite (bind_ok _ _ _ _ _ Hrun).
  eexists. split; [reflexivity|]. cbn [collections add_event].
  rewrite Hst, <- Hn. do 3 f_equal.
  pose proof (proj1 (Hcov (nb - 1))).
  pose proof (proj2 (Hcov nb)).
  cbn [Nat.add]. lia.
Qed.

(** The same upload when batch [b] is the first whose upsert fails: the
    exception leaves the loop and the first [b] batches stay stored. *)
Lemma insert_into_qdrant_fail (E : Env) (self : Index.QdrantRAGUploader) (sch : Schema)
    (w : World) (b : nat) :
  embedded_with E self →
  collections w !! Index.collection_name self = Some {| schema := sch; points := [] |} →
  b * 10 < length (Index.chunks self) →
  fault_free E (requests w) (requests w + b) →
  storage_fault E (requests w + b) = true →
  ∃ w',
    Index.insert_into_qdrant E self 10 w = (Raise (StorageFailure (requests w + b)), w')
    ∧ collections w' !! Index.collection_name self
      = Some {| schema := sch; points := built_from self (next_uuid w) 0 (b * 10) |}.
Proof.
  intros Hemb Hc Hb Hff Hf. unfold Index.insert_into_qdrant.
  rewrite range_batches.
  pose proof (batches_cover (length (Index.chunks self))) as Hcov.
  remember ((length (Index.chunks self) + 9) / 10) as nb eqn:Hnb.
  erewrite (bind_ok _ _ w _ tt) by reflexivity.
  match goal with |- context [add_event ?e w] => set (w0 := add_event e w) end.
  rewrite (bind_ok _ _ w0 w0 tt) by reflexivity.
  destruct (insert_batches_fail E self sch (next_uuid w) (requests w) b nb
              Hemb 0 w0) as (w1 & Hrun & Hst).
  { unfold after_batches. cbn. rewrite Hc. split; [reflexivity|split; lia]. }
  { lia. }
  { cbn. apply Hcov. exact Hb. }
  { exact Hb. }
  { intros j Hj. apply Hff. lia. }
  { exact Hf. }
  rewrite (bind_raise _ _ _ _ _ Hrun).
  eexists. split; [reflexivity|exact Hst].
Qed.

Lemma run_ok (E : Env) (self : Index.QdrantRAGUploader) (w w1 : World) :
  Index.pipeline E self w = (Ok tt, w1) →
  Index.run E self w = (Ok true, w1).
Proof.
  intros H. unfold Index.run, try_except. rewrite bind_eq, H. reflexivity.
Qed.

Lemma run_raise (E : Env) (self : Index.QdrantRAGUploader) (w w1 : World) (e : exn) :
  Index.pipeline E self w = (Raise e, w1) →
  Index.run E self w
  = (Ok false, add_event (EvPrint ("[ERROR] " +:+ str_exn e)) w1).
Proof.
  intros H. unfold Index.run, try_except. rewrite bind_eq, H. reflexivity.
Qed.

(** Loading, collection setup and embedding going through, the run
    comes down to the upload into the freshly created collection. *)
Lemma pipeline_prepare (E : Env) (self : Index.QdrantRAGUploader) (w : World)
    (cs : list Py.dict) :
  read_chunks E (Index.file_path self) = Some cs →
  indexable E cs →
  fault_free E (requests w)
             (requests w + setup_requests w (Index.collection_name self)) →
  ∃ self2 w3,
    Index.pipeline E self w = Index.insert_into_qdrant E self2 10 w3
    ∧ embedded_with E self2
    ∧ Index.chunks self2 = cs
    ∧ Index.collection_name self2 = Index.collection_name self
    ∧ collections w3 !! Index.collection_name self
      = Some {| schema := Index.rag_schema; points := [] |}
    ∧ requests w3 = requests w + setup_requests w (Index.collection_name self)
    ∧ next_uuid w3 = next_uuid w.
Proof.
  intros Hread Hidx Hff.
  destruct (indexable_lists E cs Hidx) as (ts & ds & ss & ls & Hget & Hd & Hs & Hl).
  destruct (load_chunks_run E self w cs ts Hread Hget)
    as (self1 & w1 & Hload & Hcs1 & Hts1 & Hn1 & Hc1 & Hr1 & Hu1).
  destruct (setup_collection_ok E self1 w1) as (w2 & Hsetup & Hc2 & Hr2 & Hu2).
  { rewrite Hn1, Hr1. unfold setup_requests in *. rewrite Hc1. exact Hff. }
  destruct (embed_texts_run E self1 w2 ds ss ls)
    as (self2 & w3 & Hembed & Hemb & Hcs2 & Hn2 & Hc3 & Hr3 & Hu3);
    [rewrite Hcs1, Hts1; exact Hget|rewrite Hts1; assumption..|].
  exists self2, w3. split; [|split; [exact Hemb|]].
  - unfold Index.pipeline.
    rewrite (bind_ok _ _ _ _ _ Hload), (bind_ok _ _ _ _ _ Hsetup),
      (bind_ok _ _ _ _ _ Hembed).
    reflexivity.
  - split; [congruence|]. split; [congruence|].
    split; [rewrite Hc3, Hc2, Hn1; apply lookup_insert_eq|].
    split; [|congruence].
    rewrite Hr3, Hr2, Hr1, Hn1. unfold setup_requests. rewrite Hc1. reflexivity.
Qed.

Lemma built_points_of_chunks (E : Env) (self : Index.QdrantRAGUploader) (u0 m : nat) :
  embedded_with E self →
  m ≤ length (Index.chunks self) →
  points_of_chunks E u0 (Index.chunks self) (built_from self u0 0 m).
Proof.
  intros Hemb Hm j p Hj.
  assert (Hlt : j < m).
  { apply lookup_lt_Some in Hj. rewrite (built_from_length E) in Hj by assumption.
    exact Hj. }
  rewrite (built_from_lookup E) in Hj by assumption.
  destruct (embedded_point_for E self (u0 + j) j Hemb) as (content & p' & Ht & He & Hp);
    [lia|].
  destruct Hemb as (Hget & _).
  destruct (Forall2_lookup_r _ _ _ _ _ Hget Ht) as (chunk & Hchunk & Hcontent).
  exists chunk, content. split; [exact Hchunk|]. split; [exact Hcontent|].
  congruence.
Qed.

Lemma expected_point_spaces (E : Env) (uid : nat) (content : string) (p : PointStruct) :
  expected_point E uid content = Some p → has_three_spaces p.
Proof.
  unfold expected_point. intros H.
  destruct (dense_embed E content) as [d|]; [|discriminate].
  destruct (sparse_embed E content) as [s|]; [|discriminate].
  destruct (late_embed E content) as [c|]; [|discriminate].
  cbn in H. injection H as <-. exists d, s, c. cbn.
  split; [reflexivity|]. split; [reflexivity|]. split; [reflexivity|].
  rewrite !dom_insert_L, dom_empty_L. set_solver.
Qed.

(** C5. When upsert batch [b] (counting from zero) fails while the
    batches before it went through, the run returns [False] and the
    collection is left holding exactly the points of those [b] earlier
    batches of ten, in order: nothing is rolled back. *)
Theorem C5_failed_batch_keeps_earlier_batches
    (E : Env) (self : Index.QdrantRAGUploader) (w : World)
    (cs : list Py.dict) (b : nat) :
  read_chunks E (Index.file_path self) = Some cs →
  indexable E cs →
  b * 10 < length cs →
  fault_free E (requests w)
             (requests w + setup_requests w (Index.collection_name self) + b) →
  storage_fault E (requests w + setup_requests w (Index.collection_name self) + b)
  = true →
  ∃ w' pts,
    Index.run E self w = (Ok false, w')
    ∧ collections w' !! Index.collection_name self
      = Some {| schema := Index.rag_schema; points := pts |}
    ∧ length pts = b * 10
    ∧ points_of_chunks E (next_uuid w) cs pts.
Proof.
  intros Hread Hidx Hb Hff Hf.
  destruct (pipeline_prepare E self w cs Hread Hidx)
    as (self2 & w3 & Hpipe & Hemb & Hcs & Hname & Hc3 & Hr3 & Hu3).
  { intros n Hn. apply Hff. lia. }
  destruct (insert_into_qdrant_fail E self2 Index.rag_schema w3 b Hemb)
    as (w4 & Hins & Hc4).
  { rewrite Hname. exact Hc3. }
  { rewrite Hcs. exact Hb. }
  { rewrite Hr3. intros n Hn. apply Hff. lia. }
  { rewrite Hr3. exact Hf. }
  rewrite Hins in Hpipe.
  eexists _, (built_from self2 (next_uuid w) 0 (b * 10)).
  split; [apply (run_raise _ _ _ _ _ Hpipe)|].
  cbn [collections add_event]. rewrite <- Hname, Hc4, Hu3.
  split; [reflexivity|].
  split; [apply (built_from_length E); [exact Hemb|rewrite Hcs; lia]|].
  rewrite <- Hcs. apply built_points_of_chunks; [exact Hemb|rewrite Hcs; lia].
Qed.

(** C6 (amended). Every point the run upserts carries exactly the three
    named vector entries, holding what the three embedders returned for
    the chunk's text. The writer checks nothing about them and rejects no
    point: whenever loading, setup, embedding and upserts go through,
    every chunk is stored as one point. *)
Theorem C6_points_carry_three_spaces
    (E : Env) (self : Index.QdrantRAGUploader) (w : World) (cs : list Py.dict) :
  read_chunks E (Index.file_path self) = Some cs →
  indexable E cs →
  fault_free E (requests w)
             (requests w + setup_requests w (Index.collection_name self)
              + (length cs + 9) / 10) →
  ∃ w' pts,
    Index.run E self w = (Ok true, w')
    ∧ collections w' !! Index.collection_name self
      = Some {| schema := Index.rag_schema; points := pts |}
    ∧ length pts = length cs
    ∧ points_of_chunks E (next_uuid w) cs pts
    ∧ Forall has_three_spaces pts.
Proof.
  intros Hread Hidx Hff.
  destruct (pipeline_prepare E self w cs Hread Hidx)
    as (self2 & w3 & Hpipe & Hemb & Hcs & Hname & Hc3 & Hr3 & Hu3).
  { intros n Hn. apply Hff. lia. }
  destruct (insert_into_qdrant_ok E self2 Index.rag_schema w3 Hemb)
    as (w4 & Hins & Hc4).
  { rewrite Hname. exact Hc3. }
  { rewrite Hr3, Hcs. intros n Hn. apply Hff. lia. }
  rewrite Hins in Hpipe.
  exists w4, (built_from self2 (next_uuid w) 0 (length cs)).
  split; [apply (run_ok _ _ _ _ Hpipe)|].
  rewrite <- Hname, Hc4, Hu3, Hcs. split; [reflexivity|].
  assert (Hpts : points_of_chunks E (next_uuid w) cs
                   (built_from self2 (next_uuid w) 0 (length cs))).
  { rewrite <- Hcs. apply built_points_of_chunks; [exact Hemb|lia]. }
  split; [apply (built_from_length E); [exact Hemb|rewrite Hcs; lia]|].
  split; [exact Hpts|].
  apply Forall_lookup. intros j p Hj.
  destruct (Hpts j p Hj) as (chunk & content & _ & _ & Hp).
  exact (expected_point_spaces _ _ _ _ Hp).
Qed.

Lemma scenario_indexable (contents : list string) (fault : nat → bool) :
  indexable (Scenario.env (Scenario.file contents) fault) (Scenario.chunk <$> contents).
Proof.
  apply Forall_fmap, Forall_forall. intros content _. exists content.
  split; [reflexivity|]. repeat split; eexists; reflexivity.
Qed.

Lemma C5_failed_batch_keeps_earlier_batches_witness :
  ∃ w' pts,
    Index.run (Scenario.env (Scenario.file (replicate 45 "x")) (Scenario.fail_at 4))
              Scenario.uploader Scenario.empty_world
    = (Ok false, w')
    ∧ collections w' !! "pdf" = Some {| schema := Index.rag_schema; points := pts |}
    ∧ length pts = 20
    ∧ points_of_chunks
        (Scenario.env (Scenario.file (replicate 45 "x")) (Scenario.fail_at 4))
        0 (Scenario.chunk <$> replicate 45 "x") pts.
Proof.
  apply (C5_failed_batch_keeps_earlier_batches
           (Scenario.env (Scenario.file (replicate 45 "x")) (Scenario.fail_at 4))
           Scenario.uploader Scenario.empty_world
           (Scenario.chunk <$> replicate 45 "x") 2).
  - reflexivity.
  - apply scenario_indexable.
  - vm_compute. lia.
  - intros n Hn.
    change (setup_requests Scenario.empty_world
              (Index.collection_name Scenario.uploader)) with 2 in Hn.
    change (requests Scenario.empty_world) with 0 in Hn.
    destruct n as [|[|[|[|n]]]]; [reflexivity..|lia].
  - reflexivity.
Defined.

Lemma C6_points_carry_three_spaces_witness :
  ∃ w' pts,
    Index.run (Scenario.env (Scenario.file ["ab"; ""]) Scenario.no_fault)
              Scenario.uploader Scenario.empty_world
    = (Ok true, w')
    ∧ collections w' !! "pdf" = Some {| schema := Index.rag_schema; points := pts |}
    ∧ length pts = 2
    ∧ points_of_chunks (Scenario.env (Scenario.file ["ab"; ""]) Scenario.no_fault)
                       0 (Scenario.chunk <$> ["ab"; ""]) pts
    ∧ Forall has_three_spaces pts.
Proof.
  refine (C6_points_carry_three_spaces
            (Scenario.env (Scenario.file ["ab"; ""]) Scenario.no_fault)
            Scenario.uploader Scenario.empty_world (Scenario.chunk <$> ["ab"; ""])
            eq_refl (scenario_indexable _ _) _).
  intros n _. reflexivity.
Defined.

(** C6 as stated fails: the run stores a point whose sparse vector is
    empty. The chunk with empty text is embedded, built and upserted like
    any other, and the run reports success. *)
Lemma C6_counterexample :
  (Index.run (Scenario.env (Scenario.file ["ab"; ""]) Scenario.no_fault)
             Scenario.uploader Scenario.empty_world).1 = Ok true
  ∧ ∃ p,
      p ∈ stored_points
            (Index.run (Scenario.env (Scenario.file ["ab"; ""]) Scenario.no_fault)
                       Scenario.uploader Scenario.empty_world).2 "pdf"
      ∧ p ∈ upserted_points
              (trace (Index.run (Scenario.env (Scenario.file ["ab"; ""]) Scenario.no_fault)
                                Scenario.uploader Scenario.empty_world).2)
      ∧ point_vector p !! "bm25" = Some (VSparse {| indices := []; values := [] |})
      ∧ point_complete p = false.
Proof.
  split; [vm_compute; reflexivity|].
  exists (Scenario.point 1 "").
  assert (Hstored :
    stored_points
      (Index.run (Scenario.env (Scenario.file ["ab"; ""]) Scenario.no_fault)
                 Scenario.uploader Scenario.empty_world).2 "pdf"
    = [Scenario.point 0 "ab"; Scenario.point 1 ""]) by (vm_compute; reflexivity).
  assert (Hups :
    upserted_points
      (trace (Index.run (Scenario.env (Scenario.file ["ab"; ""]) Scenario.no_fault)
                        Scenario.uploader Scenario.empty_world).2)
    = [Scenario.point 0 "ab"; Scenario.point 1 ""]) by (vm_compute; reflexivity).
  rewrite Hstored, Hups.
  split; [apply list_elem_of_further, list_elem_of_here|].
  split; [apply list_elem_of_further, list_elem_of_here|].
  split; vm_compute; reflexivity.
Qed.

(** * Further properties of the code *)

(** ** Frames *)

Section Frames.
Context (R : World → World → Prop) `{!FrameRel R}.

Lemma preserves_ret {A} (a : A) : preserves R (mret a : M A).
Proof. intros w. apply frame_refl. Qed.

Lemma preserves_raise {A} (e : exn) : preserves R (raise e : M A).
Proof. intros w. apply frame_refl. Qed.

Lemma preserves_bind {A B} (m : M A) (k : A → M B) :
  preserves R m → (∀ a, preserves R (k a)) → preserves R (m ≫= k).
Proof.
  intros Hm Hk w. rewrite bind_eq. specialize (Hm w).
  destruct (m w) as [[a|e] w1]; cbn in *; [|exact Hm].
  eapply frame_trans; [exact Hm|apply Hk].
Qed.

Lemma preserves_try_except {A} (body : M A) (handler : exn → M A) :
  preserves R body → (∀ e, preserves R (handler e)) →
  preserves R (try_except body handler).
Proof.
  intros Hm Hk w. unfold try_except. specialize (Hm w).
  destruct (body w) as [[a|e] w1]; cbn in *; [exact Hm|].
  eapply frame_trans; [exact Hm|apply Hk].
Qed.

Lemma preserves_emit (e : Event) : preserves R (emit e).
Proof. intros w. apply frame_event. Qed.

Lemma preserves_print (line : string) : preserves R (print line).
Proof. apply preserves_emit. Qed.

Lemma preserves_from_option {A} (e : exn) (o : option A) :
  preserves R (from_option e o).
Proof. destruct o; [apply preserves_ret|apply preserves_raise]. Qed.

Lemma preserves_mapM {A B} (f : A → M B) (l : list A) :
  (∀ x, preserves R (f x)) → preserves R (mapM f l).
Proof.
  intros Hf. induction l as [|x l IH]; cbn [mapM].
  - apply preserves_ret.
  - apply preserves_bind; [apply Hf|]. intros y.
    apply preserves_bind; [apply IH|]. intros ys. apply preserves_ret.
Qed.

Lemma preserves_forM_ {A} (f : A → M unit) (l : list A) :
  (∀ x, preserves R (f x)) → preserves R (forM_ l f).
Proof.
  intros Hf. induction l as [|x l IH]; cbn [forM_].
  - apply preserves_ret.
  - apply preserves_bind; [apply Hf|]. intros _. apply IH.
Qed.

Lemma preserves_request (E : Env) (r : Request) : preserves R (Qdrant.request E r).
Proof.
  intros w. unfold Qdrant.request.
  destruct (storage_fault E (requests w)); apply frame_request.
Qed.

Lemma preserves_get_store : preserves R Qdrant.get_store.
Proof. intros w. apply frame_refl. Qed.

(** The reading requests of the engine keep every frame. *)
Lemma preserves_collection_exists (E : Env) (name : string) :
  preserves R (Qdrant.collection_exists E name).
Proof.
  unfold Qdrant.collection_exists.
  apply preserves_bind; [apply preserves_request|]. intros _.
  apply preserves_bind; [apply preserves_get_store|]. intros cs.
  apply preserves_ret.
Qed.

Lemma preserves_get_collection (name : string) :
  preserves R (Qdrant.get_collection name).
Proof.
  unfold Qdrant.get_collection.
  apply preserves_bind; [apply preserves_get_store|]. intros cs.
  apply preserves_from_option.
Qed.

Lemma preserves_count (E : Env) (name : string) : preserves R (Qdrant.count E name).
Proof.
  unfold Qdrant.count.
  apply preserves_bind; [apply preserves_request|]. intros _.
  apply preserves_bind; [apply preserves_get_collection|]. intros c.
  apply preserves_ret.
Qed.

Lemma preserves_query_points (E : Env) (r : QueryRequest) :
  preserves R (Qdrant.query_points E r).
Proof.
  unfold Qdrant.query_points.
  apply preserves_bind; [apply preserves_request|]. intros _.
  apply preserves_bind; [apply preserves_get_collection|]. intros c.
  apply preserves_ret.
Qed.

Lemma preserves_scroll (E : Env) (name : string) (n : nat) (b : bool) :
  preserves R (Qdrant.scroll E name n b).
Proof.
  unfold Qdrant.scroll.
  apply preserves_bind; [apply preserves_request|]. intros _.
  apply preserves_bind; [apply preserves_get_collection|]. intros c.
  apply preserves_ret.
Qed.

End Frames.

(** Decompose a frame goal along the structure of the program. *)
Ltac frame :=
  repeat first
    [ apply preserves_ret; typeclasses eauto
    | apply preserves_raise; typeclasses eauto
    | apply preserves_from_option; typeclasses eauto
    | apply preserves_collection_exists; typeclasses eauto
    | apply preserves_count; typeclasses eauto
    | apply preserves_query_points; typeclasses eauto
    | apply preserves_scroll; typeclasses eauto
    | apply preserves_print; typeclasses eauto
    | apply preserves_emit; typeclasses eauto
    | apply preserves_bind; [typeclasses eauto| |intros ?]
    | apply preserves_try_except; [typeclasses eauto| |intros ?]
    | apply preserves_mapM; [typeclasses eauto|intros ?]
    | apply preserves_forM_; [typeclasses eauto|intros ?]
    | match goal with
      | |- preserves _ (if ?b then _ else _) => destruct b
      | |- preserves _ (match ?x with _ => _ end) => destruct x
      end ].

#[global] Instance same_store_frame : FrameRel same_store.
Proof.
  split.
  - intros w. split; reflexivity.
  - intros a b c [H1 H2] [H3 H4]. split; congruence.
  - intros e w. split; reflexivity.
  - intros r w. split; reflexivity.
Qed.

#[global] Instance same_elsewhere_frame (name : string) : FrameRel (same_elsewhere name).
Proof.
  split.
  - intros w other _. reflexivity.
  - intros a b c H1 H2 other Hne. rewrite H2, H1 by exact Hne. reflexivity.
  - intros e w other _. reflexivity.
  - intros r w other _. reflexivity.
Qed.

(** X1. The retrieval side is read-only: constructing a retriever or a
    chatbot, retrieving, formatting a context, answering a query,
    summarising, and one round of [search.py] leave every collection of
    the store and the id supply as they were, whatever the outcome. *)
Theorem X1_retrieval_is_read_only
    (E : Env) (self : Retriever.QdrantRetriever) (bot : Chatbot.RAGChatbot)
    (path name query model intent : string) (limit max_tokens : nat) :
  preserves same_store (Retriever.__init__ E path name)
  ∧ preserves same_store (Retriever.retrieve E self query limit)
  ∧ preserves same_store (Retriever.get_context_string E self query limit)
  ∧ preserves same_store (Chatbot.__init__ E name)
  ∧ preserves same_store (Chatbot.answer_query E bot query)
  ∧ preserves same_store (Chatbot.summarize_full_document E bot model max_tokens)
  ∧ preserves same_store (ChatRoutes.bot_response E name query intent)
  ∧ preserves same_store (Search.search_once E query).
Proof.
  unfold Retriever.__init__, Retriever._check_collection,
    Retriever.get_context_string, Retriever.retrieve,
    Chatbot.__init__, ChatRoutes.bot_response, Chatbot.answer_query,
    Chatbot._embed_query, Chatbot._retrieve_context,
    Chatbot._generate_answer_with_ollama, Chatbot.summarize_full_document,
    Chatbot.post_generate, Chatbot.__init__, Search.search_once, query_embed.
  repeat match goal with |- _ ∧ _ => split end; frame.
Qed.

(** ** The writer's footprint on the store *)

Lemma preserves_uuid4_elsewhere (name : string) :
  preserves (same_elsewhere name) uuid4.
Proof. intros w other _. reflexivity. Qed.

Lemma preserves_delete_elsewhere (E : Env) (name : string) :
  preserves (same_elsewhere name) (Qdrant.delete_collection E name).
Proof.
  intros w other Hne. unfold Qdrant.delete_collection, Qdrant.request.
  destruct w as [cs rq uu tr]. unfold_monad.
  destruct (storage_fault E rq); cbn; [reflexivity|].
  apply lookup_delete_ne. congruence.
Qed.

Lemma preserves_create_elsewhere (E : Env) (name : string) (s : Schema) :
  preserves (same_elsewhere name) (Qdrant.create_collection E name s).
Proof.
  intros w other Hne. unfold Qdrant.create_collection, Qdrant.request.
  destruct w as [cs rq uu tr]. unfold_monad.
  destruct (storage_fault E rq); cbn; [reflexivity|].
  destruct (cs !! name); cbn; [reflexivity|].
  apply lookup_insert_ne. congruence.
Qed.

Lemma preserves_upsert_elsewhere (E : Env) (name : string) (batch : list PointStruct) :
  preserves (same_elsewhere name) (Qdrant.upsert E name batch).
Proof.
  intros w other Hne.
  unfold Qdrant.upsert, Qdrant.get_collection, Qdrant.put_collection, Qdrant.request.
  destruct w as [cs rq uu tr]. unfold_monad.
  destruct (storage_fault E rq); cbn; [reflexivity|].
  destruct (cs !! name); cbn; [|reflexivity].
  apply lookup_insert_ne. congruence.
Qed.

Lemma preserves_bind_post {A B} (R : World → World → Prop) `{!FrameRel R}
    (Q : A → Prop) (m : M A) (k : A → M B) :
  preserves R m →
  (∀ w a w', m w = (Ok a, w') → Q a) →
  (∀ a, Q a → preserves R (k a)) →
  preserves R (m ≫= k).
Proof.
  intros Hm HQ Hk w. rewrite bind_eq. specialize (Hm w). pose proof (HQ w) as HQw.
  destruct (m w) as [[a|e] w1]; cbn in *; [|exact Hm].
  eapply frame_trans; [exact Hm|]. apply Hk. exact (HQw a w1 eq_refl).
Qed.

(** The uploader keeps its collection name through loading and
    embedding. *)
Lemma load_chunks_name (E : Env) (self self1 : Index.QdrantRAGUploader) (w w' : World) :
  Index.load_chunks E self w = (Ok self1, w') →
  Index.collection_name self1 = Index.collection_name self.
Proof.
  unfold Index.load_chunks. rewrite bind_eq.
  destruct (read_chunks E (Index.file_path self)) as [cs|]; [|discriminate]. cbn.
  rewrite bind_eq. destruct (mapM _ cs w) as [[ts|e] w1]; [|discriminate].
  intros [= <- _]. reflexivity.
Qed.

Lemma embed_texts_name (E : Env) (self self2 : Index.QdrantRAGUploader) (w w' : World) :
  Index.embed_texts E self w = (Ok self2, w') →
  Index.collection_name self2 = Index.collection_name self.
Proof.
  unfold Index.embed_texts. rewrite bind_eq. cbn.
  rewrite bind_eq. destruct (Index.embed_all Dense _ _ _) as [[d|e] w1]; [|discriminate].
  rewrite bind_eq. destruct (Index.embed_all Bm25 _ _ _) as [[s|e] w2]; [|discriminate].
  rewrite bind_eq. destruct (Index.embed_all Colbert _ _ _) as [[c|e] w3]; [|discriminate].
  intros [= <- _]. reflexivity.
Qed.

(** Like [frame], trying the writing requests of collection [name]
    before anything is unfolded. *)
Ltac frame_elsewhere :=
  repeat first
    [ apply preserves_uuid4_elsewhere
    | apply preserves_delete_elsewhere
    | apply preserves_create_elsewhere
    | apply preserves_upsert_elsewhere
    | apply preserves_ret; typeclasses eauto
    | apply preserves_raise; typeclasses eauto
    | apply preserves_from_option; typeclasses eauto
    | apply preserves_collection_exists; typeclasses eauto
    | apply preserves_print; typeclasses eauto
    | apply preserves_emit; typeclasses eauto
    | apply preserves_bind; [typeclasses eauto| |intros ?]
    | apply preserves_mapM; [typeclasses eauto|intros ?]
    | apply preserves_forM_; [typeclasses eauto|intros ?]
    | match goal with
      | |- preserves _ (if ?b then _ else _) => destruct b
      | |- preserves _ (match ?x with _ => _ end) => destruct x
      end ].

Lemma setup_collection_elsewhere (E : Env) (self : Index.QdrantRAGUploader) :
  preserves (same_elsewhere (Index.collection_name self))
            (Index.setup_collection E self).
Proof. unfold Index.setup_collection. frame_elsewhere. Qed.

Lemma insert_into_qdrant_elsewhere (E : Env) (self : Index.QdrantRAGUploader)
    (batch_size : nat) :
  preserves (same_elsewhere (Index.collection_name self))
            (Index.insert_into_qdrant E self batch_size).
Proof.
  unfold Index.insert_into_qdrant, Index.insert_batch, Index.build_point.
  frame_elsewhere.
Qed.

Lemma run_same_elsewhere (E : Env) (self : Index.QdrantRAGUploader) :
  preserves (same_elsewhere (Index.collection_name self)) (Index.run E self).
Proof.
  unfold Index.run, Index.pipeline.
  apply preserves_try_except; [typeclasses eauto| |intros e; frame_elsewhere].
  apply preserves_bind; [typeclasses eauto| |intros []; frame_elsewhere].
  apply (preserves_bind_post _
           (λ self1, Index.collection_name self1 = Index.collection_name self)).
  { unfold Index.load_chunks. frame_elsewhere. }
  { intros w self1 w'. apply load_chunks_name. }
  intros self1 Hn1.
  apply preserves_bind; [typeclasses eauto| |intros _].
  { rewrite <- Hn1. apply setup_collection_elsewhere. }
  apply (preserves_bind_post _
           (λ self2, Index.collection_name self2 = Index.collection_name self)).
  { unfold Index.embed_texts, Index.embed_all. frame_elsewhere. }
  { intros w self2 w' H. rewrite (embed_texts_name _ _ _ _ _ H). exact Hn1. }
  intros self2 Hn2. rewrite <- Hn2. apply insert_into_qdrant_elsewhere.
Qed.

(** X2. An indexing run touches no collection but its own: whatever
    happens during the run, every other collection of the store holds
    after it what it held before. *)
Theorem X2_run_touches_only_its_collection
    (E : Env) (self : Index.QdrantRAGUploader) (w : World) (other : string) :
  other ≠ Index.collection_name self →
  collections (Index.run E self w).2 !! other = collections w !! other.
Proof. intros Hne. apply (run_same_elsewhere E self w other Hne). Qed.

Lemma X2_run_touches_only_its_collection_witness :
  stored_points
    (Index.run (Scenario.env (Scenario.file ["x"; "y"]) Scenario.no_fault)
       {| Index.file_path := "chunks.json"; Index.collection_name := "new";
          Index.texts := []; Index.chunks := []; Index.dense_vecs := [];
          Index.sparse_vecs := []; Index.colbert_vecs := [] |}
       (Scenario.world_with ["a"; "b"])).2 "pdf"
  = [Scenario.point 0 "a"; Scenario.point 1 "b"].
Proof.
  unfold stored_points.
  rewrite (X2_run_touches_only_its_collection
             (Scenario.env (Scenario.file ["x"; "y"]) Scenario.no_fault)
             {| Index.file_path := "chunks.json"; Index.collection_name := "new";
                Index.texts := []; Index.chunks := []; Index.dense_vecs := [];
                Index.sparse_vecs := []; Index.colbert_vecs := [] |}
             (Scenario.world_with ["a"; "b"]) "pdf").
  - reflexivity.
  - discriminate.
Defined.

(** ** Request sizes *)

Lemma emits_bind_post {A B} (P : Event → Prop) (Q : A → Prop)
    (m : M A) (k : A → M B) :
  emits P m →
  (∀ w a w', m w = (Ok a, w') → Q a) →
  (∀ a, Q a → emits P (k a)) →
  emits P (m ≫= k).
Proof.
  intros Hm HQ Hk w. rewrite bind_eq. destruct (Hm w) as (n1 & E1 & F1).
  pose proof (HQ w) as HQw.
  destruct (m w) as [[a|e] w1]; cbn in *.
  - destruct (Hk a (HQw a w1 eq_refl) w1) as (n2 & E2 & F2). exists (n2 ++ n1).
    rewrite E2, E1, app_assoc. split; [reflexivity|].
    apply Forall_app; split; assumption.
  - exists n1. split; assumption.
Qed.

Lemma mapM_length {A B} (f : A → M B) (l : list A) (w w' : World) (ys : list B) :
  mapM f l w = (Ok ys, w') → length ys = length l.
Proof.
  revert w w' ys. induction l as [|x l IH]; intros w w' ys; cbn [mapM].
  - intros [= <- _]. reflexivity.
  - rewrite bind_eq. destruct (f x w) as [[y|e] w1]; [|discriminate].
    rewrite bind_eq. destruct (mapM f l w1) as [[ys'|e] w2] eqn:Hrest; [|discriminate].
    intros [= <- _]. cbn. f_equal. exact (IH _ _ _ Hrest).
Qed.

Lemma insert_batch_bounded (E : Env) (self : Index.QdrantRAGUploader)
    (batch_size i : nat) :
  emits (batch_bounded batch_size) (Index.insert_batch E self batch_size i).
Proof.
  unfold Index.insert_batch.
  apply (emits_bind_post _ (λ batch, length batch ≤ batch_size)).
  - unfold Index.build_point. footprint.
  - intros w batch w' Hrun. rewrite (mapM_length _ _ _ _ _ Hrun), length_seq. lia.
  - intros batch Hlen. unfold Qdrant.upsert, Qdrant.get_collection,
      Qdrant.put_collection.
    footprint. exact Hlen.
Qed.

(** Like [footprint], trying [tac] before anything is unfolded. *)
Ltac footprint_using tac :=
  repeat first
    [ tac
    | apply emits_ret | apply emits_raise | apply emits_uuid4
    | apply emits_get_store | apply emits_put_store | apply emits_from_option
    | apply emits_bind; [|intros ?]
    | apply emits_try_except; [|intros ?]
    | apply emits_mapM; intros ?
    | apply emits_forM_; intros ?
    | apply emits_print | apply emits_emit | apply emits_request
    | match goal with
      | |- emits _ (if ?b then _ else _) => destruct b
      | |- emits _ (match ?x with _ => _ end) => destruct x
      end ].

(** X3. Upserts are sent in batches of at most ten points: whatever the
    chunk file holds and however the run ends, no upsert request of the
    run carries more than ten points. *)
Theorem X3_upsert_batches_of_at_most_ten
    (E : Env) (self : Index.QdrantRAGUploader) (w : World) :
  ∃ new,
    trace (Index.run E self w).2 = new ++ trace w
    ∧ Forall (batch_bounded 10) new.
Proof.
  revert w. change (emits (batch_bounded 10) (Index.run E self)).
  unfold Index.run, Index.pipeline, Index.load_chunks, Index.setup_collection,
    Index.embed_texts, Index.embed_all, Index.insert_into_qdrant,
    Qdrant.collection_exists, Qdrant.delete_collection, Qdrant.create_collection.
  footprint_using ltac:(apply insert_batch_bounded); exact I.
Qed.

(** ** How an indexing run fails *)

Lemma mapM_from_option_raise {A B} (e : exn) (f : A → option B) (l : list A)
    (w : World) :
  Exists (λ x, f x = None) l →
  mapM (λ x, from_option e (f x)) l w = (Raise e, w).
Proof.
  induction l as [|x l IH]; intros Hex; [inversion Hex|].
  cbn [mapM]. rewrite bind_eq. destruct (f x) as [y|] eqn:Hx; cbn; [|reflexivity].
  rewrite bind_eq, IH; [reflexivity|].
  inversion Hex as [? ? Hnone|]; [congruence|assumption].
Qed.

(** The lookups either all succeed or the first failure raises; the
    world is not touched either way. *)
Lemma mapM_from_option_cases {A B} (e : exn) (f : A → option B) (l : list A)
    (w : World) :
  (∃ ys, Forall2 (λ x y, f x = Some y) l ys
         ∧ mapM (λ x, from_option e (f x)) l w = (Ok ys, w))
  ∨ (Exists (λ x, f x = None) l
     ∧ mapM (λ x, from_option e (f x)) l w = (Raise e, w)).
Proof.
  destruct (decide (Exists (λ x, f x = None) l)) as [Hex|Hnex].
  - right. split; [exact Hex|]. apply mapM_from_option_raise, Hex.
  - left. apply not_Exists_Forall in Hnex; [|intros x; apply _].
    assert (Hall : Forall (λ x, is_Some (f x)) l).
    { eapply Forall_impl; [exact Hnex|]. intros x Hx. cbn in Hx.
      destruct (f x); [eexists; reflexivity|congruence]. }
    clear Hnex. induction Hall as [|x l [y Hy] _ (ys & IH & _)].
    + exists []. split; [constructor|reflexivity].
    + assert (H2 : Forall2 (λ x y, f x = Some y) (x :: l) (y :: ys))
        by (constructor; assumption).
      exists (y :: ys). split; [exact H2|]. apply mapM_from_option_ok, H2.
Qed.

(** X4. When the chunk file cannot be read, or one of its chunks has no
    [content], the run returns [False] having done nothing but print the
    error: no storage request is issued, so a collection indexed earlier
    under the same name is still there. *)
Theorem X4_unreadable_chunks_leave_store_alone
    (E : Env) (self : Index.QdrantRAGUploader) (w : World) :
  (read_chunks E (Index.file_path self) = None
   ∨ ∃ cs, read_chunks E (Index.file_path self) = Some cs
           ∧ Exists (λ chunk, Py.get chunk "content" = None) cs) →
  ∃ e,
    (e = FileError (Index.file_path self) ∨ e = KeyError "content")
    ∧ Index.run E self w
      = (Ok false, add_event (EvPrint ("[ERROR] " +:+ str_exn e)) w).
Proof.
  intros Hbad.
  assert (Hload : ∃ e,
            (e = FileError (Index.file_path self) ∨ e = KeyError "content")
            ∧ Index.load_chunks E self w = (Raise e, w)).
  { unfold Index.load_chunks. destruct Hbad as [Hnone|(cs & Hread & Hex)].
    - exists (FileError (Index.file_path self)). split; [left; reflexivity|].
      rewrite Hnone. reflexivity.
    - exists (KeyError "content"). split; [right; reflexivity|].
      rewrite Hread. rewrite (bind_ok _ _ w w cs) by reflexivity.
      apply bind_raise.
      exact (mapM_from_option_raise (KeyError "content")
               (λ chunk, Py.get chunk "content") cs w Hex). }
  destruct Hload as (e & He & Hload). exists e. split; [exact He|].
  apply run_raise. unfold Index.pipeline. apply bind_raise. exact Hload.
Qed.

Lemma X4_unreadable_chunks_leave_store_alone_witness :
  ∃ e,
    Index.run (Scenario.env (λ _, Some [[("text", "no content key")]]) Scenario.no_fault)
              Scenario.uploader (Scenario.world_with ["a"; "b"])
    = (Ok false,
       add_event (EvPrint ("[ERROR] " +:+ str_exn e)) (Scenario.world_with ["a"; "b"])).
Proof.
  destruct (X4_unreadable_chunks_leave_store_alone
              (Scenario.env (λ _, Some [[("text", "no content key")]]) Scenario.no_fault)
              Scenario.uploader (Scenario.world_with ["a"; "b"]))
    as (e & _ & Hrun).
  - right. eexists. split; [reflexivity|]. constructor. reflexivity.
  - exists e. exact Hrun.
Defined.

Lemma embed_all_cases {V} (m : Model) (f : string → option V) (docs : list string)
    (w : World) :
  (∃ vs, Forall2 (λ doc v, f doc = Some v) docs vs
         ∧ Index.embed_all m f docs w = (Ok vs, add_event (EvEmbed m docs) w))
  ∨ (Exists (λ doc, f doc = None) docs
     ∧ Index.embed_all m f docs w
       = (Raise (EmbeddingFailure m), add_event (EvEmbed m docs) w)).
Proof.
  unfold Index.embed_all.
  rewrite (bind_ok _ _ w (add_event (EvEmbed m docs) w) tt) by reflexivity.
  destruct (mapM_from_option_cases (EmbeddingFailure m) f docs
              (add_event (EvEmbed m docs) w)) as [(vs & H2 & Hrun)|(Hex & Hrun)].
  - left. exists vs. split; assumption.
  - right. split; assumption.
Qed.

Lemma Forall2_Exists_None {A B} (f : A → option B) (l : list A) (ys : list B) :
  Forall2 (λ x y, f x = Some y) l ys → ¬ Exists (λ x, f x = None) l.
Proof.
  intros H2 Hex. induction H2 as [|x y l ys Hxy _ IH].
  - inversion Hex.
  - inversion Hex as [? ? Hnone|]; [congruence|auto].
Qed.

(** If some text is refused by one of the models, [embed_texts] raises
    without touching the store. *)
Lemma embed_texts_raise (E : Env) (self : Index.QdrantRAGUploader) (w : World) :
  Exists (λ text, dense_embed E text = None
                  ∨ sparse_embed E text = None
                  ∨ late_embed E text = None) (Index.texts self) →
  ∃ m w',
    Index.embed_texts E self w = (Raise (EmbeddingFailure m), w')
    ∧ collections w' = collections w
    ∧ requests w' = requests w.
Proof.
  intros Hex. unfold Index.embed_texts.
  erewrite (bind_ok _ _ w _ tt) by reflexivity.
  match goal with |- context [add_event ?e w] => set (w0 := add_event e w) end.
  destruct (embed_all_cases Dense (dense_embed E) (Index.texts self) w0)
    as [(d & Hd & Rd)|(_ & Rd)];
    [|exists Dense; eexists; rewrite (bind_raise _ _ _ _ _ Rd);
      repeat split; reflexivity].
  rewrite (bind_ok _ _ _ _ _ Rd).
  destruct (embed_all_cases Bm25 (sparse_embed E) (Index.texts self)
              (add_event (EvEmbed Dense (Index.texts self)) w0))
    as [(s & Hs & Rs)|(_ & Rs)];
    [|exists Bm25; eexists; rewrite (bind_raise _ _ _ _ _ Rs);
      repeat split; reflexivity].
  rewrite (bind_ok _ _ _ _ _ Rs).
  destruct (embed_all_cases Colbert (late_embed E) (Index.texts self)
              (add_event (EvEmbed Bm25 (Index.texts self))
                 (add_event (EvEmbed Dense (Index.texts self)) w0)))
    as [(c & Hc & Rc)|(_ & Rc)];
    [|exists Colbert; eexists; rewrite (bind_raise _ _ _ _ _ Rc);
      repeat split; reflexivity].
  exfalso.
  apply Forall2_Exists_None in Hd, Hs, Hc.
  apply Exists_exists in Hex as (t & Ht & [H|[H|H]]).
  - apply Hd, Exists_exists. eauto.
  - apply Hs, Exists_exists. eauto.
  - apply Hc, Exists_exists. eauto.
Qed.

(** X5. When a chunk text is refused by one of the three embedding
    models, the run returns [False] after the collection has been
    recreated: it is left existing and empty, whatever it held before, and
    no upsert is attempted. *)
Theorem X5_embedding_failure_leaves_empty_collection
    (E : Env) (self : Index.QdrantRAGUploader) (w : World)
    (cs : list Py.dict) (ts : list string) :
  read_chunks E (Index.file_path self) = Some cs →
  Forall2 (λ chunk text, Py.get chunk "content" = Some text) cs ts →
  Exists (λ text, dense_embed E text = None
                  ∨ sparse_embed E text = None
                  ∨ late_embed E text = None) ts →
  fault_free E (requests w)
             (requests w + setup_requests w (Index.collection_name self)) →
  ∃ w',
    Index.run E self w = (Ok false, w')
    ∧ collections w' !! Index.collection_name self
      = Some {| schema := Index.rag_schema; points := [] |}
    ∧ requests w' = requests w + setup_requests w (Index.collection_name self)
    ∧ head (trace w') = Some (EvPrint "[ERROR] embedding model failed").
Proof.
  intros Hread Hget Hex Hff.
  destruct (load_chunks_run E self w cs ts Hread Hget)
    as (self1 & w1 & Hload & Hcs1 & Hts1 & Hn1 & Hc1 & Hr1 & Hu1).
  destruct (setup_collection_ok E self1 w1) as (w2 & Hsetup & Hc2 & Hr2 & Hu2).
  { rewrite Hn1, Hr1. unfold setup_requests in *. rewrite Hc1. exact Hff. }
  destruct (embed_texts_raise E self1 w2) as (m & w3 & Hembed & Hc3 & Hr3).
  { rewrite Hts1. exact Hex. }
  eexists. split.
  - apply run_raise. unfold Index.pipeline.
    rewrite (bind_ok _ _ _ _ _ Hload), (bind_ok _ _ _ _ _ Hsetup).
    apply bind_raise. exact Hembed.
  - cbn [collections requests trace add_event head].
    rewrite Hc3, Hc2, Hr3, Hr2, Hr1. unfold setup_requests.
    rewrite Hc1, Hn1.
    split; [apply lookup_insert_eq|]. split; reflexivity.
Qed.

Lemma X5_embedding_failure_leaves_empty_collection_witness :
  ∃ w',
    Index.run
      {| read_chunks := Scenario.file ["x"; ""];
         dense_embed := λ t, Some (Scenario.dense t);
         sparse_embed := λ t, if String.eqb t "" then None else Some (Scenario.sparse t);
         late_embed := λ t, Some (Scenario.late t);
         dense_query_embed := λ t, Some (Scenario.dense t);
         sparse_query_embed := λ t, Some (Scenario.sparse t);
         late_query_embed := λ t, Some (Scenario.late t);
         tokenizer_encode := Scenario.char_codes;
         str_payload := λ _, "{}";
         generate := λ _ _, Some "ok";
         storage_fault := Scenario.no_fault;
         similarity := λ _, Scenario.dot;
         sparse_similarity := λ _ _ _, 0%Q |}
      Scenario.uploader (Scenario.world_with ["a"; "b"])
    = (Ok false, w')
    ∧ stored_points (Scenario.world_with ["a"; "b"]) "pdf"
      = [Scenario.point 0 "a"; Scenario.point 1 "b"]
    ∧ stored_points w' "pdf" = [].
Proof.
  edestruct (X5_embedding_failure_leaves_empty_collection
               {| read_chunks := Scenario.file ["x"; ""];
                  dense_embed := λ t, Some (Scenario.dense t);
                  sparse_embed :=
                    λ t, if String.eqb t "" then None else Some (Scenario.sparse t);
                  late_embed := λ t, Some (Scenario.late t);
                  dense_query_embed := λ t, Some (Scenario.dense t);
                  sparse_query_embed := λ t, Some (Scenario.sparse t);
                  late_query_embed := λ t, Some (Scenario.late t);
                  tokenizer_encode := Scenario.char_codes;
                  str_payload := λ _, "{}";
                  generate := λ _ _, Some "ok";
                  storage_fault := Scenario.no_fault;
                  similarity := λ _, Scenario.dot;
                  sparse_similarity := λ _ _ _, 0%Q |}
               Scenario.uploader (Scenario.world_with ["a"; "b"])
               (Scenario.chunk <$> ["x"; ""]) ["x"; ""])
    as (w' & Hrun & Hc & _).
  - reflexivity.
  - repeat constructor.
  - apply Exists_cons_tl, Exists_cons_hd. right. left. reflexivity.
  - intros n _. reflexivity.
  - exists w'. split; [exact Hrun|]. split; [reflexivity|].
    unfold stored_points.
    change (Index.collection_name Scenario.uploader) with "pdf" in Hc.
    rewrite Hc. reflexivity.
Defined.

(** The first failing request of [setup_collection] decides what is left
    of the collection: nothing has changed if the existence check or the
    deletion fails; the collection is gone if the creation fails after the
    deletion. *)
Lemma setup_collection_fault (E : Env) (self : Index.QdrantRAGUploader) (w : World)
    (k : nat) :
  k < setup_requests w (Index.collection_name self) →
  fault_free E (requests w) (requests w + k) →
  storage_fault E (requests w + k) = true →
  ∃ w',
    Index.setup_collection E self w = (Raise (StorageFailure (requests w + k)), w')
    ∧ collections w' !! Index.collection_name self
      = (if k <? 2 then collections w !! Index.collection_name self else None).
Proof.
  intros Hk Hff Hf. unfold setup_requests in *.
  unfold Index.setup_collection, Qdrant.collection_exists,
    Qdrant.delete_collection, Qdrant.create_collection, Qdrant.request.
  set (name := Index.collection_name self) in *.
  destruct w as [cs rq uu tr]. unfold_monad.
  destruct k as [|k].
  { rewrite Nat.add_0_r in *. rewrite Hf. cbn. eexists. split; reflexivity. }
  rewrite (Hff rq) by lia. cbn.
  case_bool_decide as Hex; cbn.
  - destruct k as [|k].
    { replace (rq + 1) with (S rq) in Hf by lia. rewrite Hf. cbn.
      replace (rq + 1) with (S rq) by lia. eexists. split; reflexivity. }
    rewrite (Hff (S rq)) by lia. cbn.
    destruct k as [|k]; [|lia].
    replace (rq + 2) with (S (S rq)) in Hf by lia. rewrite Hf. cbn.
    replace (rq + 2) with (S (S rq)) by lia.
    eexists. split; [reflexivity|]. cbn. apply lookup_delete_eq.
  - destruct k as [|k]; [|lia].
    replace (rq + 1) with (S rq) in Hf by lia. rewrite Hf. cbn.
    replace (rq + 1) with (S rq) by lia. eexists. split; reflexivity.
Qed.

(** X6. A storage failure during collection setup makes the run return
    [False], and the request that failed decides what is left of a
    collection that existed: its old points are all still there if the
    existence check or the deletion failed, and the collection no longer
    exists at all if the creation failed after the deletion. *)
Theorem X6_setup_failure_window
    (E : Env) (self : Index.QdrantRAGUploader) (w : World)
    (cs : list Py.dict) (k : nat) :
  read_chunks E (Index.file_path self) = Some cs →
  Forall (λ chunk, is_Some (Py.get chunk "content")) cs →
  k < setup_requests w (Index.collection_name self) →
  fault_free E (requests w) (requests w + k) →
  storage_fault E (requests w + k) = true →
  ∃ w',
    Index.run E self w = (Ok false, w')
    ∧ collections w' !! Index.collection_name self
      = (if k <? 2 then collections w !! Index.collection_name self else None).
Proof.
  intros Hread Hall Hk Hff Hf.
  assert (Hts : ∃ ts, Forall2 (λ chunk text, Py.get chunk "content" = Some text) cs ts).
  { clear Hread. induction Hall as [|chunk cs [t Ht] _ [ts IH]].
    - exists []. constructor.
    - exists (t :: ts). constructor; assumption. }
  destruct Hts as [ts Hget].
  destruct (load_chunks_run E self w cs ts Hread Hget)
    as (self1 & w1 & Hload & _ & _ & Hn1 & Hc1 & Hr1 & _).
  destruct (setup_collection_fault E self1 w1 k) as (w2 & Hsetup & Hc2).
  { rewrite Hn1. unfold setup_requests in *. rewrite Hc1. exact Hk. }
  { rewrite Hr1. exact Hff. }
  { rewrite Hr1. exact Hf. }
  eexists. split.
  - apply run_raise. unfold Index.pipeline.
    rewrite (bind_ok _ _ _ _ _ Hload). apply bind_raise. exact Hsetup.
  - cbn [collections add_event]. rewrite <- Hn1, Hc2, Hc1. reflexivity.
Qed.

Lemma X6_setup_failure_window_witness :
  ∃ w',
    Index.run (Scenario.env (Scenario.file ["x"]) (Scenario.fail_at 2))
              Scenario.uploader (Scenario.world_with ["a"; "b"])
    = (Ok false, w')
    ∧ collections w' !! "pdf" = None.
Proof.
  apply (X6_setup_failure_window
           (Scenario.env (Scenario.file ["x"]) (Scenario.fail_at 2))
           Scenario.uploader (Scenario.world_with ["a"; "b"])
           (Scenario.chunk <$> ["x"]) 2).
  - reflexivity.
  - repeat constructor. eexists. reflexivity.
  - vm_compute. lia.
  - intros n Hn. change (requests (Scenario.world_with ["a"; "b"])) with 0 in Hn.
    destruct n as [|[|n]]; [reflexivity..|lia].
  - reflexivity.
Defined.

(** X7. An empty chunk file is not an error: the run recreates the
    collection and returns [True] with the collection existing and empty;
    the requests of the setup are the only ones it sends, so no upsert is
    attempted. *)
Theorem X7_empty_chunk_file
    (E : Env) (self : Index.QdrantRAGUploader) (w : World) :
  read_chunks E (Index.file_path self) = Some [] →
  fault_free E (requests w)
             (requests w + setup_requests w (Index.collection_name self)) →
  ∃ w',
    Index.run E self w = (Ok true, w')
    ∧ collections w' !! Index.collection_name self
      = Some {| schema := Index.rag_schema; points := [] |}
    ∧ requests w' = requests w + setup_requests w (Index.collection_name self).
Proof.
  intros Hread Hff.
  destruct (pipeline_prepare E self w [] Hread (List.Forall_nil _) Hff)
    as (self2 & w3 & Hpipe & _ & Hcs & Hname & Hc3 & Hr3 & _).
  assert (Hins : ∃ w4,
            Index.insert_into_qdrant E self2 10 w3 = (Ok tt, w4)
            ∧ collections w4 = collections w3
            ∧ requests w4 = requests w3).
  { unfold Index.insert_into_qdrant. rewrite Hcs.
    eexists. split; [reflexivity|]. split; reflexivity. }
  destruct Hins as (w4 & Hins & Hc4 & Hr4). rewrite Hins in Hpipe.
  exists w4. split; [apply (run_ok _ _ _ _ Hpipe)|].
  rewrite Hc4, Hr4, <- Hname. rewrite Hname. split; [exact Hc3|exact Hr3].
Qed.

Lemma X7_empty_chunk_file_witness :
  ∃ w',
    Index.run (Scenario.env (Scenario.file []) Scenario.no_fault)
              Scenario.uploader (Scenario.world_with ["a"; "b"])
    = (Ok true, w')
    ∧ collections w' !! "pdf" = Some {| schema := Index.rag_schema; points := [] |}
    ∧ requests w' = 3.
Proof.
  apply (X7_empty_chunk_file
           (Scenario.env (Scenario.file []) Scenario.no_fault)
           Scenario.uploader (Scenario.world_with ["a"; "b"])).
  - reflexivity.
  - intros n _. reflexivity.
Defined.

(** ** How a retrieval fails *)

(** X8. The three query embeddings are computed in the order dense,
    sparse, late interaction, and the first that fails ends the call with
    that model's failure, before the remaining models are tried and
    before anything is asked of the store: [retrieve] issues no storage
    request, and the chat pipeline's [answer_query] issues neither a
    storage request nor a generation request. The trace shows exactly the
    embeddings attempted. *)
Theorem X8_embedding_failure_stops_retrieval
    (E : Env) (self : Retriever.QdrantRetriever) (bot : Chatbot.RAGChatbot)
    (query : string) (limit : nat) (w : World) :
  (* the dense model fails *)
  (dense_query_embed E query = None →
   Retriever.retrieve E self query limit w
   = (Raise (EmbeddingFailure Dense), with_events [EvQueryEmbed Dense query] w)
   ∧ Chatbot.answer_query E bot query w
     = (Raise (EmbeddingFailure Dense), with_events [EvQueryEmbed Dense query] w))
  (* the sparse model fails after the dense one answered *)
  ∧ (is_Some (dense_query_embed E query) →
     sparse_query_embed E query = None →
     Retriever.retrieve E self query limit w
     = (Raise (EmbeddingFailure Bm25),
        with_events [EvQueryEmbed Bm25 query; EvQueryEmbed Dense query] w)
     ∧ Chatbot.answer_query E bot query w
       = (Raise (EmbeddingFailure Bm25),
          with_events [EvQueryEmbed Bm25 query; EvQueryEmbed Dense query] w))
  (* the late-interaction model fails after the other two answered *)
  ∧ (is_Some (dense_query_embed E query) →
     is_Some (sparse_query_embed E query) →
     late_query_embed E query = None →
     Retriever.retrieve E self query limit w
     = (Raise (EmbeddingFailure Colbert),
        with_events [EvQueryEmbed Colbert query; EvQueryEmbed Bm25 query;
                     EvQueryEmbed Dense query] w)
     ∧ Chatbot.answer_query E bot query w
       = (Raise (EmbeddingFailure Colbert),
          with_events [EvQueryEmbed Colbert query; EvQueryEmbed Bm25 query;
                       EvQueryEmbed Dense query] w)).
Proof.
  unfold Retriever.retrieve, Chatbot.answer_query, Chatbot._embed_query, query_embed,
    with_events.
  destruct w as [cs rq uu tr]. unfold_monad.
  split; [|split].
  - intros ->. cbn. split; reflexivity.
  - intros [d ->] ->. cbn. split; reflexivity.
  - intros [d ->] [s ->] ->. cbn. split; reflexivity.
Qed.

Lemma X8_embedding_failure_stops_retrieval_witness :
  Retriever.retrieve
    {| read_chunks := Scenario.file [];
       dense_embed := λ t, Some (Scenario.dense t);
       sparse_embed := λ t, Some (Scenario.sparse t);
       late_embed := λ t, Some (Scenario.late t);
       dense_query_embed := λ t, Some (Scenario.dense t);
       sparse_query_embed := λ t, None;
       late_query_embed := λ t, None;
       tokenizer_encode := Scenario.char_codes;
       str_payload := λ _, "{}";
       generate := λ _ _, Some "ok";
       storage_fault := Scenario.no_fault;
       similarity := λ _, Scenario.dot;
       sparse_similarity := λ _ _ _, 0%Q |}
    Scenario.retriever "ab" 5 (Scenario.world_with ["a"])
  = (Raise (EmbeddingFailure Bm25),
     {| collections := collections (Scenario.world_with ["a"]);
        requests := 0; next_uuid := 1;
        trace := [EvQueryEmbed Bm25 "ab"; EvQueryEmbed Dense "ab"] |}).
Proof.
  refine (proj1 (proj1 (proj2 (X8_embedding_failure_stops_retrieval
               {| read_chunks := Scenario.file [];
                  dense_embed := λ t, Some (Scenario.dense t);
                  sparse_embed := λ t, Some (Scenario.sparse t);
                  late_embed := λ t, Some (Scenario.late t);
                  dense_query_embed := λ t, Some (Scenario.dense t);
                  sparse_query_embed := λ t, None;
                  late_query_embed := λ t, None;
                  tokenizer_encode := Scenario.char_codes;
                  str_payload := λ _, "{}";
                  generate := λ _ _, Some "ok";
                  storage_fault := Scenario.no_fault;
                  similarity := λ _, Scenario.dot;
                  sparse_similarity := λ _ _ _, 0%Q |}
               Scenario.retriever Scenario.chatbot "ab" 5 (Scenario.world_with ["a"])))
            _ eq_refl)).
  eexists. reflexivity.
Defined.

(** ** Indexing, then asking *)










(** ** Nothing to retrieve *)

Lemma two_stage_nil (E : Env) (c : Collection) (d : list float) (s : SparseVector)
    (l : list (list float)) (n k : nat) :
  points c = [] → two_stage E c d s l n k = [].
Proof.
  intros Hpts. unfold two_stage, fused_pool, first_stage. rewrite Hpts.
  cbn. rewrite !take_nil. cbn. rewrite take_nil. reflexivity.
Qed.

(** X11. An empty collection is not an error. With a positive limit,
    [retrieve] on an existing collection without points returns the empty
    list, and [get_context_string] the sentinel. The chat pipeline has no
    sentinel: on an empty collection [answer_query] still asks the model,
    with a prompt whose context is empty. *)
Theorem X11_nothing_to_retrieve
    (E : Env) (self : Retriever.QdrantRetriever) (bot : Chatbot.RAGChatbot)
    (query : string) (limit : nat) (w : World)
    (d : list float) (s : SparseVector) (l : list (list float)) :
  dense_query_embed E query = Some d →
  sparse_query_embed E query = Some s →
  late_query_embed E query = Some l →
  storage_fault E (requests w) = false →
  (∀ c,
     collections w !! Retriever.collection_name self = Some c →
     points c = [] →
     0 < limit →
     (Retriever.retrieve E self query limit w).1 = Ok []
     ∧ (Retriever.get_context_string E self query limit w).1
       = Ok "No relevant information found.")
  ∧ (∀ c,
       collections w !! Chatbot.collection_name bot = Some c →
       points c = [] →
       (Chatbot.answer_query E bot query w).1
       = match generate E "gemma3:4b" (answer_prompt "" query) with
         | Some answer => Ok answer
         | None => Raise RequestFailure
         end
       ∧ trace (Chatbot.answer_query E bot query w).2
         = EvGenerate "gemma3:4b" (answer_prompt "" query)
           :: EvStorage (ReqQueryPoints (Chatbot.retrieve_request bot d s l))
           :: trace (after_query_embeds query w)).
Proof.
  intros Hd Hs Hl Hf. split.
  - intros c Hc Hpts _.
    pose proof (retrieve_run E self query limit w c d s l Hc Hd Hs Hl Hf) as Hr.
    rewrite (two_stage_nil E c d s l 20 limit Hpts) in Hr.
    unfold Retriever.get_context_string.
    rewrite (bind_ok _ _ _ _ _ Hr), Hr. split; reflexivity.
  - intros c Hc Hpts.
    assert (Hembed : Chatbot._embed_query E query w
                     = (Ok (d, s, l), after_query_embeds query w)).
    { unfold Chatbot._embed_query.
      rewrite (bind_ok _ _ _ _ _ (query_embed_ok Dense _ query d w Hd)).
      rewrite (bind_ok _ _ _ _ _ (query_embed_ok Bm25 _ query s _ Hs)).
      rewrite (bind_ok _ _ _ _ _ (query_embed_ok Colbert _ query l _ Hl)).
      reflexivity. }
    assert (Hctx : Chatbot._retrieve_context E bot d s l (after_query_embeds query w)
                   = (Ok "",
                      Qdrant.log_request
                        (ReqQueryPoints (Chatbot.retrieve_request bot d s l))
                        (after_query_embeds query w))).
    { rewrite (_retrieve_context_run E bot (after_query_embeds query w) c d s l)
        by assumption.
      rewrite (two_stage_nil E c d s l 10 5 Hpts). reflexivity. }
    unfold Chatbot.answer_query.
    rewrite (bind_ok _ _ _ _ _ Hembed). cbn [fst snd].
    rewrite (bind_ok _ _ _ _ _ Hctx).
    unfold Chatbot._generate_answer_with_ollama, Chatbot.post_generate.
    fold (answer_prompt "" query).
    erewrite (bind_ok _ _ _ _ tt) by reflexivity.
    unfold from_option.
    destruct (generate E "gemma3:4b" (answer_prompt "" query));
      split; reflexivity.
Qed.

Lemma X11_nothing_to_retrieve_witness :
  (Retriever.get_context_string
     (Scenario.env (Scenario.file []) Scenario.no_fault) Scenario.retriever
     "ab" 10 (Scenario.world_with [])).1
  = Ok "No relevant information found."
  ∧ trace (Chatbot.answer_query
             (Scenario.env (Scenario.file []) Scenario.no_fault) Scenario.chatbot
             "ab" (Scenario.world_with [])).2 !! 0
    = Some (EvGenerate "gemma3:4b" (answer_prompt "" "ab")).
Proof.
  destruct (X11_nothing_to_retrieve
              (Scenario.env (Scenario.file []) Scenario.no_fault)
              Scenario.retriever Scenario.chatbot "ab" 10 (Scenario.world_with [])
              (Scenario.dense "ab") (Scenario.sparse "ab") (Scenario.late "ab")
              eq_refl eq_refl eq_refl eq_refl) as [H1 H2].
  split.
  - apply (H1 {| schema := Index.rag_schema; points := [] |} eq_refl eq_refl).
    lia.
  - destruct (H2 {| schema := Index.rag_schema; points := [] |} eq_refl eq_refl)
      as [_ ->].
    reflexivity.
Defined.

(** ** File names *)

Lemma rsplit1_no_sep (c : Ascii.ascii) (s : string) :
  PyStr.contains c s = false → PyStr.rsplit1 c s = [s].
Proof.
  induction s as [|a s IH]; [reflexivity|]. cbn [PyStr.contains PyStr.rsplit1].
  intros H. apply orb_false_iff in H as [Ha Hs].
  rewrite (IH Hs), Ha. reflexivity.
Qed.

Lemma rsplit1_last (c : Ascii.ascii) (stem ext : string) :
  PyStr.contains c ext = false →
  PyStr.rsplit1 c (stem +:+ String c ext) = [stem; ext].
Proof.
  intros Hext. induction stem as [|a stem IH].
  - change (PyStr.rsplit1 c (String c ext) = [EmptyString; ext]).
    cbn [PyStr.rsplit1]. rewrite (rsplit1_no_sep c ext Hext), Ascii.eqb_refl.
    reflexivity.
  - change (PyStr.rsplit1 c (String a (stem +:+ String c ext))
            = [String a stem; ext]).
    cbn [PyStr.rsplit1]. rewrite IH. reflexivity.
Qed.

Lemma contains_sep (c : Ascii.ascii) (stem ext : string) :
  PyStr.contains c (stem +:+ String c ext) = true.
Proof.
  induction stem as [|a stem IH].
  - change (PyStr.contains c (String c ext) = true).
    cbn [PyStr.contains]. rewrite Ascii.eqb_refl. reflexivity.
  - change (PyStr.contains c (String a (stem +:+ String c ext)) = true).
    cbn [PyStr.contains]. rewrite IH. apply orb_true_r.
Qed.

Lemma rsplit1_two (c : Ascii.ascii) (s : string) :
  PyStr.contains c s = true → ∃ before after, PyStr.rsplit1 c s = [before; after].
Proof.
  induction s as [|a s IH]; [discriminate|]. cbn [PyStr.contains PyStr.rsplit1].
  destruct (PyStr.contains c s) eqn:Hs.
  - intros _. destruct (IH eq_refl) as (before & after & ->). eauto.
  - rewrite orb_false_r. intros Ha. rewrite (rsplit1_no_sep c s Hs), Ha. eauto.
Qed.

(** X12. [allowed_file] never raises. It rejects a name without a dot,
    and for a name with a dot it looks at what follows the last dot only:
    [stem.ext] is accepted exactly when [ext], lower-cased, is one of the
    allowed extensions, whatever dots [stem] contains. For an extension
    of ASCII characters, lower-casing maps [A-Z] to [a-z]. *)
Theorem X12_allowed_file_last_extension
    (str_lower : string → string) (filename stem ext : string)
    (allowed_extensions : gset string) :
  (∃ b, Upload.allowed_file str_lower filename allowed_extensions = Ok b)
  ∧ (PyStr.contains PyStr.dot filename = false →
     Upload.allowed_file str_lower filename allowed_extensions = Ok false)
  ∧ (PyStr.contains PyStr.dot ext = false →
     Upload.allowed_file str_lower (stem +:+ String PyStr.dot ext) allowed_extensions
     = Ok (bool_decide (str_lower ext ∈ allowed_extensions)))
  ∧ ((∀ t, PyStr.isascii t = true → str_lower t = PyStr.lower_ascii t) →
     PyStr.isascii ext = true →
     PyStr.contains PyStr.dot ext = false →
     Upload.allowed_file str_lower (stem +:+ String PyStr.dot ext) allowed_extensions
     = Ok (bool_decide (PyStr.lower_ascii ext ∈ allowed_extensions))).
Proof.
  unfold Upload.allowed_file. split; [|split; [|split]].
  - destruct (PyStr.contains PyStr.dot filename) eqn:Hdot; [|eauto].
    destruct (rsplit1_two _ _ Hdot) as (before & after & ->). eauto.
  - intros ->. reflexivity.
  - intros Hext. rewrite contains_sep, (rsplit1_last _ _ _ Hext). reflexivity.
  - intros Hlower Hascii Hext. rewrite <- (Hlower ext Hascii).
    rewrite contains_sep, (rsplit1_last _ _ _ Hext). reflexivity.
Qed.

Lemma X12_allowed_file_last_extension_witness :
  Upload.allowed_file PyStr.lower_ascii "thesis.v2.PDF" {[ "pdf" ]} = Ok true
  ∧ Upload.allowed_file PyStr.lower_ascii "thesis.pdf.exe" {[ "pdf" ]} = Ok false.
Proof.
  split.
  - rewrite (proj2 (proj2 (proj2 (X12_allowed_file_last_extension
                                    PyStr.lower_ascii "" "thesis.v2" "PDF"
                                    {[ "pdf" ]})))
               (λ t _, eq_refl) eq_refl eq_refl).
    reflexivity.
  - rewrite (proj2 (proj2 (proj2 (X12_allowed_file_last_extension
                                    PyStr.lower_ascii "" "thesis.pdf" "exe"
                                    {[ "pdf" ]})))
               (λ t _, eq_refl) eq_refl eq_refl).
    reflexivity.
Defined.

(** ** The background task *)

(** X13. The progress of an upload reaches 100 exactly when the
    background task ends without exception, and then the indexing run
    returned [True] and the PDF is marked [success]. When the run returns
    [False] the task raises "Failed to index PDF data": the progress stays
    at 50 and the status of the PDF is not touched. *)
Theorem X13_background_process_progress
    (E : Env) (process_pdf_for_rag : string → M unit)
    (name task_id file_path : string) (pdf_id : nat) (s : Upload.AppState) :
  (Upload.progress_store
     (Upload.background_process E process_pdf_for_rag name task_id file_path pdf_id s).2
     !! task_id = Some 100
   ↔ (Upload.background_process E process_pdf_for_rag name task_id file_path pdf_id s).1
     = Ok tt)
  ∧ ((Upload.background_process E process_pdf_for_rag name task_id file_path pdf_id s).1
     = Ok tt →
     ∃ w1 indexer w2 w3,
       process_pdf_for_rag file_path (Upload.world s) = (Ok tt, w1)
       ∧ Index.__init__ "./my_rag_chunks/rag_chunks.json" name w1 = (Ok indexer, w2)
       ∧ Index.run E indexer w2 = (Ok true, w3)
       ∧ Upload.pdf_status
           (Upload.background_process E process_pdf_for_rag name task_id file_path
              pdf_id s).2 !! pdf_id = Some "success")
  ∧ (∀ w1 indexer w2 w3,
       process_pdf_for_rag file_path (Upload.world s) = (Ok tt, w1) →
       Index.__init__ "./my_rag_chunks/rag_chunks.json" name w1 = (Ok indexer, w2) →
       Index.run E indexer w2 = (Ok false, w3) →
       Upload.background_process E process_pdf_for_rag name task_id file_path pdf_id s
       = (Raise (PyException "Failed to index PDF data"),
          {| Upload.world := w3;
             Upload.progress_store := <[task_id := 50]> (Upload.progress_store s);
             Upload.pdf_status := Upload.pdf_status s |})).
Proof.
  unfold Upload.background_process, Upload.lift, Upload.set_progress,
    Upload.set_pdf_status, Upload.app_raise.
  unfold mbind, Upload.App_bind, mret, Upload.App_ret.
  destruct s as [w ps st].
  cbn [Upload.world Upload.progress_store Upload.pdf_status fst snd].
  destruct (process_pdf_for_rag file_path w) as [[[]|e1] w1] eqn:Hproc;
    cbn [fst snd Upload.world Upload.progress_store Upload.pdf_status].
  2:{ rewrite lookup_insert_eq.
      split; [split; discriminate|split; [discriminate|]].
      intros ? ? ? ? H1. discriminate H1. }
  destruct (Index.__init__ "./my_rag_chunks/rag_chunks.json" name w1)
    as [[indexer|e2] w2] eqn:Hinit;
    cbn [fst snd Upload.world Upload.progress_store Upload.pdf_status].
  2:{ rewrite lookup_insert_eq.
      split; [split; discriminate|split; [discriminate|]].
      intros ? ? ? ? H1 H2. injection H1 as <-. rewrite Hinit in H2.
      discriminate H2. }
  destruct (Index.run E indexer w2) as [[[|]|e3] w3] eqn:Hrun;
    cbn [fst snd negb Upload.world Upload.progress_store Upload.pdf_status].
  - destruct (st !! pdf_id) as [old|] eqn:Hpdf;
      cbn [fst snd Upload.world Upload.progress_store Upload.pdf_status].
    + rewrite !lookup_insert_eq. split; [split; reflexivity|split].
      * intros _. exists w1, indexer, w2, w3.
        split; [reflexivity|split; [exact Hinit|split; [exact Hrun|reflexivity]]].
      * intros ? ? ? ? H1 H2 H3. injection H1 as <-. rewrite Hinit in H2.
        injection H2 as <- <-. rewrite Hrun in H3. discriminate H3.
    + rewrite lookup_insert_eq.
      split; [split; discriminate|split; [discriminate|]].
      intros ? ? ? ? H1 H2 H3. injection H1 as <-. rewrite Hinit in H2.
      injection H2 as <- <-. rewrite Hrun in H3. discriminate H3.
  - rewrite lookup_insert_eq.
    split; [split; discriminate|split; [discriminate|]].
    intros ? ? ? ? H1 H2 H3. injection H1 as <-. rewrite Hinit in H2.
    injection H2 as <- <-. rewrite Hrun in H3. injection H3 as <-.
    rewrite insert_insert_eq. reflexivity.
  - rewrite lookup_insert_eq.
    split; [split; discriminate|split; [discriminate|]].
    intros ? ? ? ? H1 H2 H3. injection H1 as <-. rewrite Hinit in H2.
    injection H2 as <- <-. rewrite Hrun in H3. discriminate H3.
Qed.

Lemma X13_background_process_progress_witness :
  ∃ s',
    Upload.background_process
      (Scenario.env (Scenario.file ["a"]) Scenario.no_fault) (λ _, mret tt)
      "pdf" "task" "upload.pdf" 7
      {| Upload.world := Scenario.empty_world;
         Upload.progress_store := {[ "task" := 100 ]};
         Upload.pdf_status := {[ 7 := "processing" ]} |}
    = (Raise (PyException "Failed to index PDF data"), s')
    ∧ Upload.progress_store s' !! "task" = Some 50
    ∧ Upload.pdf_status s' !! 7 = Some "processing".
Proof.
  pose (E := Scenario.env (Scenario.file ["a"]) Scenario.no_fault).
  pose (indexer := {| Index.file_path := "./my_rag_chunks/rag_chunks.json";
                      Index.collection_name := "pdf";
                      Index.texts := []; Index.chunks := [];
                      Index.dense_vecs := []; Index.sparse_vecs := [];
                      Index.colbert_vecs := [] |}).
  pose (i := Index.__init__ "./my_rag_chunks/rag_chunks.json" "pdf"
               Scenario.empty_world).
  assert (Hinit : i = (Ok indexer, i.2)) by (vm_compute; reflexivity).
  pose (r := Index.run E indexer i.2).
  assert (Hrun : r = (Ok false, r.2)) by (vm_compute; reflexivity).
  eexists. split.
  - exact (proj2 (proj2 (X13_background_process_progress
                           E (λ _, mret tt) "pdf" "task" "upload.pdf" 7
                           {| Upload.world := Scenario.empty_world;
                              Upload.progress_store := {[ "task" := 100 ]};
                              Upload.pdf_status := {[ 7 := "processing" ]} |}))
             Scenario.empty_world indexer i.2 r.2 eq_refl Hinit Hrun).
  - split; [apply lookup_insert_eq|reflexivity].
Defined.
